(** * BazBeans: a shallow embedding of the coordination fabric

    The development follows the Python sources module by module:
    [config.py], [bazbeans/node_pool.py], [pubsub.py],
    [bazbeans/node_agent.py], [ip_resolvers.py], [nginx_updater.py],
    [control_cli.py] and [bazbeans/docker_commands.py].

    Conventions of the embedding.
    - Python [str] is [string]; ordering and prefix tests are the byte-wise
      ones of [String.le] and [String.prefix].
    - A Python [dict] with string keys is a [gmap string _]; [{**a, **b}]
      is [b ∪ a] (stdpp's union keeps the left operand on a clash).
    - A Redis set is a [gset string]; [smembers] enumerates it with
      [elements], an arbitrary but fixed order, as Redis gives no order.
    - The coordinator is one record with a field per key family.  The key
      names [bazbeans:nodes:all], [bazbeans:nodes:active] and
      [bazbeans:node:<id>:heartbeat|status|commands] are pairwise distinct
      and injective in [<id>], so a family is a map indexed by node id.
      The hashes of addresses are indexed by the name of their key, which
      is the option [node_ips_key]: the agent writes the hash that its
      configuration names, a resolver reads the one that a configuration of
      its own names.  A name given to [node_ips_key] names no other key.
    - Wall-clock readings ([time.time()]) and the probe percentages are taken
      on an integer grid; the coordinator and its clients read one clock.
    - A method that mutates its object or the coordinator takes the state and
      returns the new one; [inl msg] in a result stands for an exception
      whose text is [msg].  An operation that can fail half way returns the
      state it left together with the exception, if any.  Exceptions are
      those of class [Exception]; what ends a program from outside
      ([KeyboardInterrupt], [SystemExit]) appears only where the source
      handles it, as the interrupt of the agent's loop.
    - A command is a dictionary of strings, as every command that the
      operator CLI queues is.
    - The coordinator is reachable: connection failures are not part of the
      embedding. *)

From Stdlib Require Import ZArith String Ascii List.
From stdpp Require Import base option list gmap strings sorting pretty.

Open Scope string_scope.
Open Scope list_scope.
Open Scope Z_scope.

(** ** JSON scalars carried by heartbeats and command results *)

Inductive jvalue :=
  | JBool (b : bool)
  | JNum (z : Z)
  | JStr (s : string).

(** [str.startswith] *)
Definition startswith (s prefix : string) : bool := String.prefix prefix s.

(** ** config.py *)

Module Config.

(** The options of [BazBeansConfig].  [pubsub_channel], [nodes_all_key]
    and [nodes_active_key] keep their default values throughout: they are
    the channel and the two sets of [Redis.Store] below. *)
Record BazBeansConfig := {
  redis_url : string;
  node_id : string;
  data_center : string;
  heartbeat_ttl : Z;
  heartbeat_interval : Z;
  command_poll_interval : Z;
  app_dir : string;
  compose_file : string;
  node_port : Z;
  cpu_threshold : Z;
  memory_threshold : Z;
  allowed_exec_prefixes : list string;
  node_ips_key : string
}.

(** [BazBeansConfig()] for a host called [hostname]. *)
Definition defaults (hostname : string) : BazBeansConfig :=
  {| redis_url := "redis://localhost:6379/0";
     node_id := hostname;
     data_center := "default";
     heartbeat_ttl := 30;
     heartbeat_interval := 10;
     command_poll_interval := 5;
     app_dir := "/opt/app";
     compose_file := "docker-compose.yml";
     node_port := 8000;
     cpu_threshold := 90;
     memory_threshold := 85;
     allowed_exec_prefixes :=
       ["docker"; "systemctl"; "ls"; "cat"; "grep"; "ps"; "netstat"];
     node_ips_key := "bazbeans:node_ips" |}.

(** [validate]: [inl msg] stands for [raise ValueError(msg)]. *)
Definition validate (c : BazBeansConfig) : string + unit :=
  if bool_decide (heartbeat_ttl c <= 0) then inl "heartbeat_ttl must be positive"
  else if bool_decide (heartbeat_interval c <= 0) then inl "heartbeat_interval must be positive"
  else if bool_decide (command_poll_interval c <= 0) then inl "command_poll_interval must be positive"
  else if negb (bool_decide (0 <= cpu_threshold c <= 100)) then inl "cpu_threshold must be between 0 and 100"
  else if negb (bool_decide (0 <= memory_threshold c <= 100)) then inl "memory_threshold must be between 0 and 100"
  else if bool_decide (node_id c = "") then inl "node_id cannot be empty"
  else if bool_decide (redis_url c = "") then inl "redis_url cannot be empty"
  else inr tt.

End Config.

(** ** The event payload of pubsub.py *)

Module Event.

(** The payload dictionary built by [publish_event].  [extra] holds the
    keys merged in by [payload.update(extra_data)]; the only caller that
    passes any is [notify_registered], with the fresh keys [data_center]
    and [node_port]. *)
Record t := {
  event : string;
  node_id : string;
  timestamp : Z;
  reason : string;
  active_nodes : list string;
  extra : list (string * jvalue)
}.

End Event.

(** ** The coordinator *)

Module Redis.

Record Store := {
  now : Z;
  nodes_all : gset string;
  nodes_active : gset string;
  node_ips : gmap string (gmap string string);
  heartbeat : gmap string (Z * gmap string jvalue);
  status : gmap string (gmap string string);
  commands : gmap string (list (gmap string string));
  lb_events : list Event.t
}.

Definition empty : Store :=
  {| now := 0; nodes_all := ∅; nodes_active := ∅; node_ips := ∅;
     heartbeat := ∅; status := ∅; commands := ∅; lb_events := [] |}.

(** Time passing on the wall clock. *)
Definition advance (dt : Z) (s : Store) : Store :=
  {| now := now s + Z.max 0 dt; nodes_all := nodes_all s;
     nodes_active := nodes_active s; node_ips := node_ips s;
     heartbeat := heartbeat s; status := status s;
     commands := commands s; lb_events := lb_events s |}.

(** [SADD nodes_all_key m] *)
Definition sadd_all (m : string) (s : Store) : Store :=
  {| now := now s; nodes_all := {[m]} ∪ nodes_all s;
     nodes_active := nodes_active s; node_ips := node_ips s;
     heartbeat := heartbeat s; status := status s;
     commands := commands s; lb_events := lb_events s |}.

(** [SADD nodes_active_key m] *)
Definition sadd_active (m : string) (s : Store) : Store :=
  {| now := now s; nodes_all := nodes_all s;
     nodes_active := {[m]} ∪ nodes_active s; node_ips := node_ips s;
     heartbeat := heartbeat s; status := status s;
     commands := commands s; lb_events := lb_events s |}.

(** [SREM nodes_active_key m] *)
Definition srem_active (m : string) (s : Store) : Store :=
  {| now := now s; nodes_all := nodes_all s;
     nodes_active := nodes_active s ∖ {[m]}; node_ips := node_ips s;
     heartbeat := heartbeat s; status := status s;
     commands := commands s; lb_events := lb_events s |}.

(** [SMEMBERS] *)
Definition smembers_all (s : Store) : list string := elements (nodes_all s).
Definition smembers_active (s : Store) : list string := elements (nodes_active s).

(** [HGETALL bazbeans:node:<id>:status]; a missing key reads as the empty hash. *)
Definition hgetall_status (id : string) (s : Store) : gmap string string :=
  default ∅ (status s !! id).

(** [HSET bazbeans:node:<id>:status mapping]: the given fields are set,
    the others are kept. *)
Definition hset_status (id : string) (mapping : gmap string string) (s : Store) : Store :=
  {| now := now s; nodes_all := nodes_all s;
     nodes_active := nodes_active s; node_ips := node_ips s;
     heartbeat := heartbeat s;
     status := <[id := mapping ∪ hgetall_status id s]> (status s);
     commands := commands s; lb_events := lb_events s |}.

(** [HSET key id ip] and [HGET key id] on the hash of addresses called
    [key]; a missing key reads as the empty hash. *)
Definition hset_ip (key id ip : string) (s : Store) : Store :=
  {| now := now s; nodes_all := nodes_all s;
     nodes_active := nodes_active s;
     node_ips := <[key := <[id := ip]> (default ∅ (node_ips s !! key))]> (node_ips s);
     heartbeat := heartbeat s; status := status s;
     commands := commands s; lb_events := lb_events s |}.

Definition hget_ip (key id : string) (s : Store) : option string :=
  node_ips s !! key ≫= (.!! id).

(** [SETEX bazbeans:node:<id>:heartbeat ttl value]: the record is kept
    with the instant [now + ttl] at which its time to live ends.  Redis refuses a TTL that is not positive and
    redis-py raises; [inl msg] stands for that exception.  The value is
    the dictionary itself: it is written with [json.dumps] and read with
    [json.loads], which give it back unchanged for string keys and scalar
    values. *)
Definition setex_heartbeat (id : string) (ttl : Z) (v : gmap string jvalue) (s : Store)
    : string + Store :=
  if bool_decide (ttl <= 0) then inl "invalid expire time in 'setex' command"
  else
    inr {| now := now s; nodes_all := nodes_all s;
           nodes_active := nodes_active s; node_ips := node_ips s;
           heartbeat := <[id := (now s + ttl, v)]> (heartbeat s);
           status := status s; commands := commands s; lb_events := lb_events s |}.

(** [GET bazbeans:node:<id>:heartbeat]: Redis takes a key for expired
    once the clock is past that instant, so the record is still read at
    the instant itself and no longer after it. *)
Definition get_heartbeat (id : string) (s : Store) : option (gmap string jvalue) :=
  match heartbeat s !! id with
  | Some (expiry, v) => if bool_decide (now s <= expiry) then Some v else None
  | None => None
  end.

(** [EXISTS bazbeans:node:<id>:heartbeat] *)
Definition exists_heartbeat (id : string) (s : Store) : bool :=
  match get_heartbeat id s with Some _ => true | None => false end.

(** [RPUSH bazbeans:node:<id>:commands cmd] *)
Definition rpush_command (id : string) (cmd : gmap string string) (s : Store) : Store :=
  {| now := now s; nodes_all := nodes_all s;
     nodes_active := nodes_active s; node_ips := node_ips s;
     heartbeat := heartbeat s; status := status s;
     commands := <[id := default [] (commands s !! id) ++ [cmd]]> (commands s);
     lb_events := lb_events s |}.

(** [LPOP bazbeans:node:<id>:commands] *)
Definition lpop_command (id : string) (s : Store) : option (gmap string string) * Store :=
  match default [] (commands s !! id) with
  | [] => (None, s)
  | cmd :: rest =>
      (Some cmd,
       {| now := now s; nodes_all := nodes_all s;
          nodes_active := nodes_active s; node_ips := node_ips s;
          heartbeat := heartbeat s; status := status s;
          commands := <[id := rest]> (commands s);
          lb_events := lb_events s |})
  end.

(** [PUBLISH pubsub_channel payload]: the channel is the log of what was
    published, oldest first. *)
Definition publish (e : Event.t) (s : Store) : Store :=
  {| now := now s; nodes_all := nodes_all s;
     nodes_active := nodes_active s; node_ips := node_ips s;
     heartbeat := heartbeat s; status := status s;
     commands := commands s; lb_events := lb_events s ++ [e] |}.

End Redis.

(** [repr] of a wall-clock reading, as redis-py stores a float in a hash:
    [<t>.0] on the integer grid, for the readings below 10^16 that a clock
    gives. *)
Definition float_repr (t : Z) : string := pretty t +:+ ".0".

(** ** bazbeans/node_pool.py *)

Module NodePool.

Import Config.

Definition register (c : BazBeansConfig) (s : Redis.Store) : Redis.Store :=
  let s := Redis.sadd_all (node_id c) s in
  let s := Redis.sadd_active (node_id c) s in
  Redis.hset_status (node_id c)
    (list_to_map [("status", "registered"); ("details", "");
                  ("timestamp", float_repr (Redis.now s));
                  ("data_center", data_center c);
                  ("is_frozen", "false"); ("is_active", "true")]) s.

Definition heartbeat (c : BazBeansConfig) (metrics : gmap string jvalue)
    (s : Redis.Store) : string + Redis.Store :=
  let heartbeat_data : gmap string jvalue :=
    metrics ∪ list_to_map [("timestamp", JNum (Redis.now s));
                           ("node_id", JStr (node_id c));
                           ("data_center", JStr (data_center c))] in
  Redis.setex_heartbeat (node_id c) (heartbeat_ttl c) heartbeat_data s.

Definition freeze (c : BazBeansConfig) (reason : string) (s : Redis.Store) : Redis.Store :=
  let s := Redis.srem_active (node_id c) s in
  Redis.hset_status (node_id c)
    (list_to_map [("status", "frozen"); ("details", reason);
                  ("timestamp", float_repr (Redis.now s));
                  ("is_frozen", "true"); ("is_active", "false")]) s.

Definition unfreeze (c : BazBeansConfig) (s : Redis.Store) : Redis.Store :=
  let s := Redis.sadd_active (node_id c) s in
  Redis.hset_status (node_id c)
    (list_to_map [("status", "active"); ("details", "Unfrozen");
                  ("timestamp", float_repr (Redis.now s));
                  ("is_frozen", "false"); ("is_active", "true")]) s.

(** One turn of the loop of [get_active_nodes]. *)
Definition get_active_nodes_step (acc : list string * Redis.Store) (id : string)
    : list string * Redis.Store :=
  let '(active, s) := acc in
  if Redis.exists_heartbeat id s then (active ++ [id], s)
  else (active, Redis.srem_active id s).

Definition get_active_nodes (s : Redis.Store) : list string * Redis.Store :=
  let all_nodes := Redis.smembers_active s in
  foldl get_active_nodes_step ([], s) all_nodes.

Definition get_all_nodes (s : Redis.Store) : list string := Redis.smembers_all s.

Definition get_node_status (id : string) (s : Redis.Store) : gmap string jvalue :=
  let heartbeat : gmap string jvalue :=
    match Redis.get_heartbeat id s with
    | Some heartbeat_data => heartbeat_data
    | None => {["status" := JStr "NO HEARTBEAT"]}
    end in
  let status_data : gmap string jvalue := JStr <$> Redis.hgetall_status id s in
  heartbeat ∪ (status_data ∪ {["node_id" := JStr id]}).

(** One turn of the loop of [cleanup_dead_nodes]. *)
Definition cleanup_dead_nodes_step (acc : list string * Redis.Store) (id : string)
    : list string * Redis.Store :=
  let '(cleaned, s) := acc in
  if negb (Redis.exists_heartbeat id s) then (cleaned ++ [id], Redis.srem_active id s)
  else (cleaned, s).

Definition cleanup_dead_nodes (s : Redis.Store) : list string * Redis.Store :=
  let active_nodes := Redis.smembers_active s in
  foldl cleanup_dead_nodes_step ([], s) active_nodes.

Definition send_command (id : string) (command : gmap string string)
    (s : Redis.Store) : Redis.Store :=
  Redis.rpush_command id command s.

Definition get_command (c : BazBeansConfig) (s : Redis.Store)
    : option (gmap string string) * Redis.Store :=
  Redis.lpop_command (node_id c) s.

Definition update_status (c : BazBeansConfig) (status details : string)
    (s : Redis.Store) : Redis.Store :=
  Redis.hset_status (node_id c)
    (list_to_map [("status", status); ("details", details);
                  ("timestamp", float_repr (Redis.now s))]) s.

Definition register_ip (c : BazBeansConfig) (ip_address : string)
    (s : Redis.Store) : Redis.Store :=
  Redis.hset_ip (node_ips_key c) (node_id c) ip_address s.

Definition get_node_ip (c : BazBeansConfig) (id : string) (s : Redis.Store)
    : option string :=
  Redis.hget_ip (node_ips_key c) id s.

End NodePool.

(** ** pubsub.py: the publisher and the notifier *)

Module PubSub.

Import Config.

(** [PubSubPublisher.publish_event]: the snapshot of [ACTIVE_NODES] is
    read when the event is published. *)
Definition publish_event (event node_id reason : string)
    (extra_data : list (string * jvalue)) (s : Redis.Store) : Redis.Store :=
  let active_nodes := Redis.smembers_active s in
  let payload :=
    {| Event.event := event;
       Event.node_id := node_id;
       Event.timestamp := Redis.now s;
       Event.reason := reason;
       Event.active_nodes := active_nodes;
       Event.extra := extra_data |} in
  Redis.publish payload s.

(** [LoadBalancerNotifier] *)
Definition notify_frozen (c : BazBeansConfig) (reason : string) (s : Redis.Store) : Redis.Store :=
  publish_event "node_frozen" (node_id c) reason [] s.

Definition notify_unfrozen (c : BazBeansConfig) (s : Redis.Store) : Redis.Store :=
  publish_event "node_unfrozen" (node_id c) "" [] s.

Definition notify_registered (c : BazBeansConfig) (s : Redis.Store) : Redis.Store :=
  publish_event "node_registered" (node_id c) ""
    [("data_center", JStr (data_center c)); ("node_port", JNum (node_port c))] s.

Definition notify_removed (c : BazBeansConfig) (s : Redis.Store) : Redis.Store :=
  publish_event "node_removed" (node_id c) "" [] s.

(** [PubSubSubscriber]: [handlers] maps an event type to a callback on
    the subscriber's state [St]; [dispatch] is the body of the loop of
    [listen] for one decoded message.  An event type without a handler
    is only printed. *)
Definition dispatch {St : Type} (handlers : gmap string (Event.t → St → St))
    (data : Event.t) (st : St) : St :=
  match handlers !! Event.event data with
  | Some handler => handler data st
  | None => st
  end.

End PubSub.

(** ** The host of an agent or of the updater

  What the sources reach through [subprocess], [os], [pathlib], [psutil],
  [docker], [socket], [json] and [time] is a parameter of the embedding:
  a state [OS] of the host and the outcome of each call on it.  A file or
  directory operation gives the host state it leaves and, when it raises,
  [str(e)]: an operation that raises may have done part of its work (a
  file created or emptied by [open] before the write fails, ancestors
  made before [mkdir] fails). *)

Inductive ProcOutcome :=
| Completed (stdout stderr : string) (returncode : Z)
| TimeoutExpired
| ProcError (msg : string).

Class Platform := {
OS : Type;
(** [json.dumps] of a result dictionary, keys in insertion order *)
json_dumps : list (string * jvalue) → string;
(** [str] of a list of strings, as an f-string renders it *)
str_of_list : list string → string;
(** [time.strftime('%Y-%m-%d %H:%M:%S UTC')] at a clock reading *)
strftime : Z → string;
(** [subprocess.run(args, shell=..., cwd=...)] *)
subprocess_run : list string → bool → option string → OS → ProcOutcome * OS;
(** [os.path.normpath], [pathlib.Path(p).parent] *)
normpath : string → string;
parent : string → string;
(** [Path(p).mkdir(parents=True, exist_ok=True)] *)
mkdir_parents : string → OS → option string * OS;
(** [with open(p, 'w') as f: f.write(content)] *)
write_text : string → string → OS → option string * OS;
(** [os.path.exists], [os.replace] *)
path_exists : string → OS → bool;
replace : string → string → OS → option string * OS;
(** [psutil] readings, in percent *)
cpu_percent : OS → Z;
memory_percent : OS → Z;
disk_percent : OS → Z;
(** [docker_client.containers.list()]: name and status of each container *)
containers_list : OS → string + list (string * string);
(** the local address of a UDP socket connected to 8.8.8.8 *)
local_ip : OS → option string;
(** [socket.gethostbyname]: the address, [inr None] when it raises
  [socket.gaierror], [inl msg] when it raises anything else (a
  [UnicodeError] for a name with an empty label or one of more than 63
  characters) *)
gethostbyname : string → OS → string + option string
}.

(** What a run did on its host, oldest first: every subprocess started and
  every file operation that went through.  An operation that raised is
  not listed; what it did is in the host state it left. *)
Inductive Effect :=
| Spawned (args : list string) (shell : bool) (cwd : option string)
| MadeDirs (path : string)
| Wrote (path content : string)
| Replaced (src dst : string).

Module Host.
Section Host.
Context `{Platform}.

Record World := {
  redis : Redis.Store;
  os : OS;
  effects : list Effect
}.

Definition with_redis (s : Redis.Store) (w : World) : World :=
  {| redis := s; os := os w; effects := effects w |}.

Definition on_redis (f : Redis.Store → Redis.Store) (w : World) : World :=
  with_redis (f (redis w)) w.

Definition run (args : list string) (shell : bool) (cwd : option string)
    (w : World) : ProcOutcome * World :=
  let '(out, os') := subprocess_run args shell cwd (os w) in
  (out, {| redis := redis w; os := os';
           effects := effects w ++ [Spawned args shell cwd] |}).

Definition lift (op : OS → option string * OS) (e : Effect) (w : World)
    : option string * World :=
  match op (os w) with
  | (Some msg, os') => (Some msg, {| redis := redis w; os := os'; effects := effects w |})
  | (None, os') => (None, {| redis := redis w; os := os'; effects := effects w ++ [e] |})
  end.

Definition mkdir (path : string) : World → option string * World :=
  lift (mkdir_parents path) (MadeDirs path).

Definition write (path content : string) : World → option string * World :=
  lift (write_text path content) (Wrote path content).

Definition move (src dst : string) : World → option string * World :=
  lift (replace src dst) (Replaced src dst).

End Host.
End Host.

(** ** bazbeans/node_agent.py *)

Inductive Outcome :=
| Returned (result : list (string * jvalue))
| Raised (msg : string).

Module NodeAgent.
Section NodeAgent.
Context `{Platform}.
Import Config.

(** The attributes of the agent that change while it runs, with its
    configuration and whether a Docker client could be built. *)
Record t := {
  config : BazBeansConfig;
  is_active : bool;
  is_frozen : bool;
  running : bool;
  docker_client : bool
}.

(** [__init__]: [config.validate()] may raise. *)
Definition new (c : BazBeansConfig) (docker : bool) : string + t :=
  match validate c with
  | inl msg => inl msg
  | inr _ => inr {| config := c; is_active := true; is_frozen := false;
                    running := false; docker_client := docker |}
  end.

Definition with_frozen (b : bool) (a : t) : t :=
  {| config := config a; is_active := is_active a; is_frozen := b;
     running := running a; docker_client := docker_client a |}.

Definition with_running (b : bool) (a : t) : t :=
  {| config := config a; is_active := is_active a; is_frozen := is_frozen a;
     running := b; docker_client := docker_client a |}.

(** A command handler is called on the command dictionary and may change
    the agent and the world before it returns or raises. *)
Definition Handler : Type :=
  gmap string string → t → Host.World → Outcome * t * Host.World.

(** A registered health check: its [__name__] and its verdict, or the
    text of the exception it raises. *)
Definition HealthCheck : Type := string * (OS → string + bool).

Definition freeze (reason : string) (a : t) (s : Redis.Store) : t * Redis.Store :=
  if negb (is_frozen a) then
    let a := with_frozen true a in
    let s := NodePool.freeze (config a) reason s in
    let s := PubSub.notify_frozen (config a) reason s in
    (a, s)
  else (a, s).

Definition unfreeze (a : t) (s : Redis.Store) : t * Redis.Store :=
  if is_frozen a then
    let a := with_frozen false a in
    let s := NodePool.unfreeze (config a) s in
    let s := PubSub.notify_unfrozen (config a) s in
    (a, s)
  else (a, s).

(** [freeze] and [unfreeze] inside a world. *)
Definition freeze_in (reason : string) (a : t) (w : Host.World) : t * Host.World :=
  let '(a, s) := freeze reason a (Host.redis w) in (a, Host.with_redis s w).

Definition unfreeze_in (a : t) (w : Host.World) : t * Host.World :=
  let '(a, s) := unfreeze a (Host.redis w) in (a, Host.with_redis s w).

Definition _send_heartbeat (a : t) (w : Host.World) : string + Host.World :=
  let metrics : gmap string jvalue :=
    list_to_map [("cpu_percent", JNum (cpu_percent (Host.os w)));
                 ("memory_percent", JNum (memory_percent (Host.os w)));
                 ("disk_percent", JNum (disk_percent (Host.os w)));
                 ("is_frozen", JBool (is_frozen a));
                 ("is_active", JBool (is_active a));
                 ("timestamp", JNum (Redis.now (Host.redis w)))] in
  match NodePool.heartbeat (config a) metrics (Host.redis w) with
  | inl e => inl e
  | inr s => inr (Host.with_redis s w)
  end.

(** The loop over the custom health checks: the reason of the first
    failure, if any. *)
Fixpoint first_failed_check (checks : list HealthCheck) (o : OS) : option string :=
  match checks with
  | [] => None
  | (name, check) :: rest =>
      match check o with
      | inr true => first_failed_check rest o
      | inr false => Some ("Custom health check failed: " +:+ name)
      | inl e => Some ("Health check error: " +:+ e)
      end
  end.

(** The names of the containers that are not running. *)
Definition unhealthy_containers (containers : list (string * string)) : list string :=
  (filter (λ c, c.2 ≠ "running") containers).*1.

Definition _check_self_health (checks : list HealthCheck) (a : t) (w : Host.World)
    : t * Host.World :=
  let cpu := cpu_percent (Host.os w) in
  let mem := memory_percent (Host.os w) in
  if bool_decide (cpu > cpu_threshold (config a)) then
    freeze_in ("High CPU usage: " +:+ float_repr cpu +:+ "%") a w
  else if bool_decide (mem > memory_threshold (config a)) then
    freeze_in ("High memory usage: " +:+ float_repr mem +:+ "%") a w
  else
    let docker_failure : option string :=
      if docker_client a then
        match containers_list (Host.os w) with
        | inr containers =>
            match unhealthy_containers containers with
            | [] => None
            | unhealthy => Some ("Unhealthy containers: " +:+ String.concat ", " unhealthy)
            end
        | inl e => Some ("Docker error: " +:+ e)
        end
      else None in
    match docker_failure with
    | Some reason => freeze_in reason a w
    | None =>
        match first_failed_check checks (Host.os w) with
        | Some reason => freeze_in reason a w
        | None => (a, w)
        end
    end.

(** *** Built-in command handlers *)

Definition _cmd_freeze : Handler := λ command a w,
  let reason := default "Administrative action" (command !! "reason") in
  let '(a, w) := freeze_in reason a w in
  (Returned [("status", JStr "frozen"); ("reason", JStr reason)], a, w).

Definition _cmd_unfreeze : Handler := λ command a w,
  let '(a, w) := unfreeze_in a w in
  (Returned [("status", JStr "active")], a, w).

Definition _cmd_exec : Handler := λ command a w,
  match command !! "command" with
  | None | Some "" => (Returned [("error", JStr "No command specified")], a, w)
  | Some cmd =>
      let allowed := existsb (startswith cmd) (allowed_exec_prefixes (config a)) in
      if negb allowed then
        (Returned [("error", JStr ("Command not allowed. Allowed prefixes: "
                                   +:+ str_of_list (allowed_exec_prefixes (config a))))],
         a, w)
      else
        match Host.run [cmd] true (Some (app_dir (config a))) w with
        | (Completed stdout stderr returncode, w) =>
            (Returned [("stdout", JStr stdout); ("stderr", JStr stderr);
                       ("returncode", JNum returncode);
                       ("success", JBool (bool_decide (returncode = 0)))], a, w)
        | (TimeoutExpired, w) =>
            (Returned [("error", JStr "Command timed out after 30 seconds")], a, w)
        | (ProcError e, w) => (Returned [("error", JStr e)], a, w)
        end
  end.

Definition _cmd_deploy_file : Handler := λ command a w,
  match command !! "path", command !! "content" with
  | None, _ | Some "", _ | _, None =>
      (Returned [("error", JStr "Missing path or content")], a, w)
  | Some file_path, Some content =>
      let file_path := normpath file_path in
      if startswith file_path ".." then
        (Returned [("error", JStr "Path traversal not allowed")], a, w)
      else
        match Host.mkdir (parent file_path) w with
        | (Some e, w) => (Returned [("error", JStr e)], a, w)
        | (None, w) =>
            match Host.write file_path content w with
            | (Some e, w) => (Returned [("error", JStr e)], a, w)
            | (None, w) =>
                (Returned [("status", JStr "deployed"); ("path", JStr file_path)], a, w)
            end
        end
  end.

Definition _cmd_health_check (checks : list HealthCheck) : Handler := λ command a w,
  let '(a, w) := _check_self_health checks a w in
  (Returned [("healthy", JBool (negb (is_frozen a)));
             ("frozen", JBool (is_frozen a));
             ("active", JBool (is_active a))], a, w).

Definition _register_builtin_handlers (checks : list HealthCheck) : gmap string Handler :=
  list_to_map [("freeze", _cmd_freeze); ("unfreeze", _cmd_unfreeze);
               ("exec", _cmd_exec); ("deploy_file", _cmd_deploy_file);
               ("health_check", _cmd_health_check checks)].

(** [register_command_plugin] and the [command_handler] decorator:
    [dict.update], the plugin's entries win. *)
Definition register_command_plugin (plugin handlers : gmap string Handler)
    : gmap string Handler :=
  plugin ∪ handlers.

Definition update_status (status details : string) (a : t) (w : Host.World) : Host.World :=
  Host.on_redis (NodePool.update_status (config a) status details) w.

(** The f-string rendering of [cmd_type], which is [None] when the
    command has no [type]. *)
Definition str_of_type (cmd_type : option string) : string :=
  default "None" cmd_type.

Definition _handle_commands (handlers : gmap string Handler) (a : t) (w : Host.World)
    : t * Host.World :=
  match NodePool.get_command (config a) (Host.redis w) with
  | (None, _) => (a, w)
  | (Some command, s) =>
      let w := Host.with_redis s w in
      if bool_decide (command = ∅) then (a, w)
      else
        let cmd_type := command !! "type" in
        match cmd_type ≫= (handlers !!.) with
        | Some handler =>
            match handler command a w with
            | (Returned result, a, w) =>
                (a, update_status ("executed_" +:+ str_of_type cmd_type)
                                  (json_dumps result) a w)
            | (Raised e, a, w) =>
                (a, update_status ("error_" +:+ str_of_type cmd_type) e a w)
            end
        | None =>
            (a, update_status "error"
                  ("Unknown command: " +:+ str_of_type cmd_type) a w)
        end
  end.

Definition _shutdown (a : t) (w : Host.World) : t * Host.World :=
  let a := with_running false a in
  let w := Host.on_redis (Redis.srem_active (node_id (config a))) w in
  let w := update_status "stopped" "Graceful shutdown" a w in
  let w := Host.on_redis (PubSub.notify_removed (config a)) w in
  (a, w).

(** The part of [run] before the loop. *)
Definition startup (a : t) (w : Host.World) : t * Host.World :=
  let w := Host.on_redis (NodePool.register (config a)) w in
  let w := Host.on_redis (PubSub.notify_registered (config a)) w in
  let w := match local_ip (Host.os w) with
           | Some "" | None => w
           | Some my_ip => Host.on_redis (NodePool.register_ip (config a) my_ip) w
           end in
  (with_running true a, w).

(** One turn of the loop of [run]; the sleep that ends it lets
    [command_poll_interval] seconds pass.  [inl msg] stands for an
    exception that leaves the loop: that of a heartbeat which the
    coordinator refuses.  What the checks and the handlers raise is caught
    within the turn. *)
Definition tick (checks : list HealthCheck) (handlers : gmap string Handler)
    (a : t) (w : Host.World) : string + t * Host.World :=
  match _send_heartbeat a w with
  | inl e => inl e
  | inr w =>
      let '(a, w) := if negb (is_frozen a) then _check_self_health checks a w else (a, w) in
      let '(a, w) := _handle_commands handlers a w in
      inr (a, Host.on_redis (Redis.advance (command_poll_interval (config a))) w)
  end.

(** The loop of [run], interrupted from the keyboard after [n] turns at
    the latest; the [finally] clause shuts the agent down however the
    loop is left. *)
Fixpoint loop (n : nat) (checks : list HealthCheck) (handlers : gmap string Handler)
    (a : t) (w : Host.World) : t * Host.World :=
  match n with
  | O => _shutdown a w
  | S n =>
      if running a then
        match tick checks handlers a w with
        | inl _ => _shutdown a w
        | inr (a, w) => loop n checks handlers a w
        end
      else _shutdown a w
  end.

Definition run (n : nat) (checks : list HealthCheck) (handlers : gmap string Handler)
    (a : t) (w : Host.World) : t * Host.World :=
  let '(a, w) := startup a w in
  loop n checks handlers a w.

End NodeAgent.
End NodeAgent.

(** ** ip_resolvers.py *)

Module IPResolvers.
Section IPResolvers.
Context `{Platform}.

(** The classes deriving from [IPResolver], one constructor each, with
    the attributes that [__init__] sets.  A callback may raise, as may
    [socket.gethostbyname]. *)
#[warnings="-register-all"] Inductive IPResolver :=
  | RedisIPResolver (config : Config.BazBeansConfig)
  | CallbackIPResolver (callback : string → string + option string)
  | DNSIPResolver (domain_suffix : string)
  | StaticIPResolver (mapping : gmap string string)
  | ChainedIPResolver (primary fallback : IPResolver)
  | MultiFallbackIPResolver (resolvers : list IPResolver)
  | AutoDetectIPResolver.

(** The test [if ip:] on an optional string. *)
Definition truthy (ip : option string) : bool :=
  match ip with
  | None | Some "" => false
  | Some _ => true
  end.

(** [RedisIPResolver(redis_client)], built on a host called [hostname]:
    [__init__] gives the resolver a configuration of its own,
    [BazBeansConfig()], whatever the configuration of the deployment. *)
Definition new_RedisIPResolver (hostname : string) : IPResolver :=
  RedisIPResolver (Config.defaults hostname).

(** [resolve]: [inl msg] when it raises.  [RedisIPResolver] looks the
    node up under the key name of its own configuration; [DNSIPResolver]
    turns [socket.gaierror] into [None] and lets any other exception
    through. *)
Fixpoint resolve (r : IPResolver) (node_id : string) (w : Host.World)
    : string + option string :=
  match r with
  | RedisIPResolver config =>
      inr (Redis.hget_ip (Config.node_ips_key config) node_id (Host.redis w))
  | CallbackIPResolver callback => callback node_id
  | DNSIPResolver domain_suffix => gethostbyname (node_id +:+ domain_suffix) (Host.os w)
  | StaticIPResolver mapping => inr (mapping !! node_id)
  | ChainedIPResolver primary fallback =>
      match resolve primary node_id w with
      | inl e => inl e
      | inr ip => if truthy ip then inr ip else resolve fallback node_id w
      end
  | MultiFallbackIPResolver resolvers =>
      (fix try_each (rs : list IPResolver) : string + option string :=
         match rs with
         | [] => inr None
         | r :: rs =>
             match resolve r node_id w with
             | inl e => inl e
             | inr ip => if truthy ip then inr ip else try_each rs
             end
         end) resolvers
  | AutoDetectIPResolver => inr (Some (default "127.0.0.1" (local_ip (Host.os w))))
  end.

End IPResolvers.
End IPResolvers.

(** ** nginx_updater.py *)

(** The line feed. *)
Definition LF : string := String "010"%char EmptyString.

(** [sorted] on a list of strings. *)
Definition sorted (l : list string) : list string := merge_sort String.le l.

Module NginxUpdater.
Section NginxUpdater.
Context `{Platform}.
Import Config.

Record t := {
  config : BazBeansConfig;
  upstream_name : string;
  upstream_file : string;
  reload_command : list string;
  ip_resolver : IPResolvers.IPResolver;
  active_nodes : list string
}.

Definition with_active_nodes (nodes : list string) (u : t) : t :=
  {| config := config u; upstream_name := upstream_name u;
     upstream_file := upstream_file u; reload_command := reload_command u;
     ip_resolver := ip_resolver u; active_nodes := nodes |}.

(** The line appended for one node by the loop of
    [_generate_upstream_config]; [inl msg] when the resolver raises. *)
Definition server_entry (u : t) (w : Host.World) (node_id : string) : string + string :=
  match IPResolvers.resolve (ip_resolver u) node_id w with
  | inl e => inl e
  | inr None | inr (Some "") => inr ("    # Could not resolve IP for " +:+ node_id)
  | inr (Some ip) =>
      inr ("    server " +:+ ip +:+ ":" +:+ pretty (node_port (config u)) +:+ ";")
  end.

(** The loop over the nodes: it appends a line for each, and is left at
    the first resolver that raises. *)
Fixpoint append_entries (u : t) (w : Host.World) (lines : list string)
    (nodes : list string) : string + list string :=
  match nodes with
  | [] => inr lines
  | node_id :: nodes =>
      match server_entry u w node_id with
      | inl e => inl e
      | inr line => append_entries u w (lines ++ [line]) nodes
      end
  end.

Definition _generate_upstream_lines (u : t) (w : Host.World) : string + list string :=
  let lines :=
    ["# Generated by BazBeans Nginx Updater";
     "# Updated: " +:+ strftime (Redis.now (Host.redis w));
     "upstream " +:+ upstream_name u +:+ " {";
     "    # Active nodes: " +:+ pretty (length (active_nodes u))] in
  match append_entries u w lines (sorted (active_nodes u)) with
  | inl e => inl e
  | inr lines => inr (lines ++ ["    # Load balancing options"; "    least_conn;"; "}"])
  end.

Definition _generate_upstream_config (u : t) (w : Host.World) : string + string :=
  match _generate_upstream_lines u w with
  | inl e => inl e
  | inr lines => inr (String.concat LF lines +:+ LF)
  end.

Definition _reload_nginx (u : t) (w : Host.World) : Host.World :=
  match Host.run ["nginx"; "-t"] false None w with
  | (Completed _ _ returncode, w) =>
      if bool_decide (returncode ≠ 0) then w
      else (Host.run (reload_command u) false None w).2
  | (_, w) => w
  end.

(** [_update_upstream]: the updater and the world it leaves, and the
    exception that leaves it, if any.  The text is generated before the
    [try]: a resolver that raises is not caught here, and by then the
    snapshot has been assigned.  What the file operations raise is caught
    and logged. *)
Definition _update_upstream (u : t) (w : Host.World) : t * Host.World * option string :=
  let u := match active_nodes u with
           | [] => with_active_nodes (Redis.smembers_active (Host.redis w)) u
           | _ => u
           end in
  match _generate_upstream_config u w with
  | inl e => (u, w, Some e)
  | inr upstream_config =>
      let '(raised, w) :=
        if path_exists (upstream_file u) (Host.os w)
        then Host.move (upstream_file u) (upstream_file u +:+ ".bak") w
        else (None, w) in
      match raised with
      | Some _ => (u, w, None)
      | None =>
          match Host.write (upstream_file u) upstream_config w with
          | (Some _, w) => (u, w, None)
          | (None, w) => (u, _reload_nginx u w, None)
          end
      end
  end.

Definition _update_upstream_if_needed (nodes : list string) (u : t) (w : Host.World)
    : t * Host.World * option string :=
  if bool_decide (list_to_set nodes =@{gset string} list_to_set (active_nodes u))
  then (u, w, None)
  else _update_upstream (with_active_nodes nodes u) w.

(** [__init__], with [reload_command] and [ip_resolver] already
    defaulted by the caller; it ends with the initial update, and there is
    no updater when that raises. *)
Definition new (c : BazBeansConfig) (name file : string) (resolver : IPResolvers.IPResolver)
    (reload : list string) (w : Host.World) : (string + t) * Host.World :=
  let '(u, w, raised) :=
    _update_upstream
      {| config := c; upstream_name := name; upstream_file := file;
         reload_command := reload; ip_resolver := resolver; active_nodes := [] |} w in
  (match raised with Some e => inl e | None => inr u end, w).

(** The four event handlers read [active_nodes] off the payload and
    reconcile.  An exception that leaves a handler is caught by the loop
    of [listen], which prints it and goes on with the next message. *)
Definition _handle_node_event (data : Event.t) (st : t * Host.World) : t * Host.World :=
  (_update_upstream_if_needed (Event.active_nodes data) st.1 st.2).1.

Definition handlers : gmap string (Event.t → t * Host.World → t * Host.World) :=
  list_to_map [("node_registered", _handle_node_event);
               ("node_removed", _handle_node_event);
               ("node_frozen", _handle_node_event);
               ("node_unfrozen", _handle_node_event)].

(** What [run] does with one message of the channel. *)
Definition on_message (data : Event.t) (st : t * Host.World) : t * Host.World :=
  PubSub.dispatch handlers data st.

End NginxUpdater.
End NginxUpdater.

(** ** Sequences of NodePool calls

    The calls that clients make on the coordinator through [NodePool], by
    any node, in any order, with time passing in between. *)

Module History.

Import Config.

Inductive Call :=
  | Register (c : BazBeansConfig)
  | Heartbeat (c : BazBeansConfig) (metrics : gmap string jvalue)
  | Freeze (c : BazBeansConfig) (reason : string)
  | Unfreeze (c : BazBeansConfig)
  | GetActiveNodes
  | GetAllNodes
  | GetNodeStatus (id : string)
  | CleanupDeadNodes
  | SendCommand (id : string) (command : gmap string string)
  | GetCommand (c : BazBeansConfig)
  | UpdateStatus (c : BazBeansConfig) (status details : string)
  | RegisterIp (c : BazBeansConfig) (ip_address : string)
  | Wait (dt : Z).

(** The coordinator after one call; what the call returns is dropped, and
    a call that raises leaves the coordinator as it was. *)
Definition call (s : Redis.Store) (op : Call) : Redis.Store :=
  match op with
  | Register c => NodePool.register c s
  | Heartbeat c metrics =>
      match NodePool.heartbeat c metrics s with
      | inr s' => s'
      | inl _ => s
      end
  | Freeze c reason => NodePool.freeze c reason s
  | Unfreeze c => NodePool.unfreeze c s
  | GetActiveNodes => (NodePool.get_active_nodes s).2
  | GetAllNodes => s
  | GetNodeStatus _ => s
  | CleanupDeadNodes => (NodePool.cleanup_dead_nodes s).2
  | SendCommand id command => NodePool.send_command id command s
  | GetCommand c => (NodePool.get_command c s).2
  | UpdateStatus c status details => NodePool.update_status c status details s
  | RegisterIp c ip_address => NodePool.register_ip c ip_address s
  | Wait dt => Redis.advance dt s
  end.

Definition run (ops : list Call) (s : Redis.Store) : Redis.Store := foldl call s ops.

End History.

(** ** A simulated POSIX host

    An instance of [Platform] on which the embedding runs on concrete
    inputs: a flat file table, [posixpath.normpath], subprocesses that
    exit with status 0 and print nothing. *)

Module Sim.

(** [str.split(sep)] for a one-character separator. *)
Fixpoint split (sep : ascii) (s : string) : list string :=
  match s with
  | EmptyString => [EmptyString]
  | String ch rest =>
      if Ascii.eqb ch sep then EmptyString :: split sep rest
      else match split sep rest with
           | [] => [String ch EmptyString]
           | word :: words => String ch word :: words
           end
  end.

(** One turn of the loop of [posixpath.normpath] over the components. *)
Definition normpath_step (initial_slashes : nat) (new_comps : list string) (comp : string)
    : list string :=
  if bool_decide (comp = "" ∨ comp = ".") then new_comps
  else if bool_decide (comp ≠ ".."
                       ∨ (initial_slashes = 0%nat ∧ new_comps = [])
                       ∨ last new_comps = Some "..")
  then new_comps ++ [comp]
  else removelast new_comps.

Definition posix_normpath (path : string) : string :=
  match path with
  | EmptyString => "."
  | _ =>
      let initial_slashes : nat :=
        if startswith path "/" then
          if startswith path "//" && negb (startswith path "///") then 2%nat else 1%nat
        else 0%nat in
      let comps := foldl (normpath_step initial_slashes) [] (split "/" path) in
      let path := String.concat "/" comps in
      let path := String.concat "" (List.repeat "/" initial_slashes) +:+ path in
      match path with EmptyString => "." | _ => path end
  end.

(** [PurePosixPath(p).parent] of a normalised path; the root of a path
    that begins with exactly two slashes is [//]. *)
Definition posix_parent (path : string) : string :=
  match removelast (split "/" path) with
  | [] => "."
  | comps =>
      if forallb (λ comp, bool_decide (comp = "")) comps then
        if startswith path "//" && negb (startswith path "///") then "//" else "/"
      else String.concat "/" comps
  end.

Definition quote : string := String "034"%char EmptyString.

Definition dumps_value (v : jvalue) : string :=
  match v with
  | JBool true => "true"
  | JBool false => "false"
  | JNum z => pretty z
  | JStr s => quote +:+ s +:+ quote
  end.

(** [json.dumps] of a flat dictionary whose strings need no escape. *)
Definition dumps (d : list (string * jvalue)) : string :=
  "{" +:+ String.concat ", "
            ((λ kv, quote +:+ kv.1 +:+ quote +:+ ": " +:+ dumps_value kv.2) <$> d)
      +:+ "}".

Definition str_list (l : list string) : string :=
  "[" +:+ String.concat ", " ((λ s, "'" +:+ s +:+ "'") <$> l) +:+ "]".

(** The file table: a path is a directory ([None]) or a regular file with
    its content. *)
Definition Fs : Type := gmap string (option string).

Definition fs_mkdir (path : string) (fs : Fs) : option string * Fs :=
  match fs !! path with
  | Some (Some _) => (Some ("[Errno 17] File exists: '" +:+ path +:+ "'"), fs)
  | _ => (None, <[path := None]> fs)
  end.

Definition fs_write (path content : string) (fs : Fs) : option string * Fs :=
  match fs !! path with
  | Some None => (Some ("[Errno 21] Is a directory: '" +:+ path +:+ "'"), fs)
  | _ => (None, <[path := Some content]> fs)
  end.

Definition fs_replace (src dst : string) (fs : Fs) : option string * Fs :=
  match fs !! src, fs !! dst with
  | None, _ =>
      (Some ("[Errno 2] No such file or directory: '" +:+ src +:+ "' -> '" +:+ dst +:+ "'"), fs)
  | Some (Some _), Some None =>
      (Some ("[Errno 21] Is a directory: '" +:+ src +:+ "' -> '" +:+ dst +:+ "'"), fs)
  | Some None, Some (Some _) =>
      (Some ("[Errno 20] Not a directory: '" +:+ src +:+ "' -> '" +:+ dst +:+ "'"), fs)
  | Some node, _ => (None, <[dst := node]> (delete src fs))
  end.

(** A host name that [socket.gethostbyname] cannot encode: one of its
    labels is longer than 63 characters, or is empty and not the last. *)
Definition bad_label (pos : nat) (labels : list string) (label : string) : bool :=
  bool_decide (63 < String.length label)%nat
  || (bool_decide (label = "") && bool_decide (pos + 1 < length labels)%nat).

Definition bad_hostname (name : string) : bool :=
  let labels := split "." name in
  existsb (λ '(pos, label), bad_label pos labels label) (imap pair labels).

Definition platform : Platform :=
  {| OS := Fs;
     json_dumps := dumps;
     str_of_list := str_list;
     strftime := λ t, pretty t;
     subprocess_run := λ _ _ _ fs, (Completed "" "" 0, fs);
     normpath := posix_normpath;
     parent := posix_parent;
     mkdir_parents := fs_mkdir;
     write_text := fs_write;
     path_exists := λ path fs, bool_decide (is_Some (fs !! path));
     replace := fs_replace;
     cpu_percent := λ _, 10;
     memory_percent := λ _, 20;
     disk_percent := λ _, 30;
     containers_list := λ _, inr [];
     local_ip := λ _, Some "10.0.0.1";
     gethostbyname := λ name _,
       if bad_hostname name
       then inl "encoding with 'idna' codec failed (UnicodeError: label empty or too long)"
       else inr None |}.

(** A world with an empty coordinator and the given files. *)
Definition world (fs : Fs) : @Host.World platform :=
  @Host.Build_World platform Redis.empty fs [].

End Sim.

(** Equality of JSON scalars is decidable (Python's [==] and [!=]). *)
Global Instance jvalue_eq_dec : EqDecision jvalue.
Proof. solve_decision. Defined.

(** ** control_cli.py: the controller behind the operator CLI *)

Module ClusterController.

Definition get_all_nodes (s : Redis.Store) : list string := Redis.smembers_all s.

(** Unlike [NodePool.get_active_nodes], the controller only reads the set. *)
Definition get_active_nodes (s : Redis.Store) : list string := Redis.smembers_active s.

Definition get_node_status (id : string) (s : Redis.Store) : gmap string jvalue :=
  let heartbeat : gmap string jvalue :=
    match Redis.get_heartbeat id s with
    | Some heartbeat_data => heartbeat_data
    | None => {["status" := JStr "NO HEARTBEAT"]}
    end in
  let status_data : gmap string jvalue := JStr <$> Redis.hgetall_status id s in
  heartbeat ∪ (status_data ∪ {["node_id" := JStr id]}).

Definition send_command (id : string) (command : gmap string string)
    (s : Redis.Store) : Redis.Store :=
  Redis.rpush_command id command s.

(** One turn of the loop of [send_command_to_all]; [filter_dc] is [None]
    when no data center was given. *)
Definition send_command_to_all_step (command : gmap string string)
    (filter_dc : option string) (s : Redis.Store) (node : string) : Redis.Store :=
  match filter_dc with
  | None | Some "" => send_command node command s
  | Some dc =>
      let status := get_node_status node s in
      if bool_decide (status !! "data_center" ≠ Some (JStr dc)) then s
      else send_command node command s
  end.

Definition send_command_to_all (command : gmap string string)
    (filter_dc : option string) (s : Redis.Store) : Redis.Store :=
  let nodes := get_all_nodes s in
  foldl (send_command_to_all_step command filter_dc) s nodes.

(** *** The commands of the CLI that write to the coordinator *)

Definition freeze (node_id reason : string) (s : Redis.Store) : Redis.Store :=
  send_command node_id (list_to_map [("type", "freeze"); ("reason", reason)]) s.

Definition unfreeze (node_id : string) (s : Redis.Store) : Redis.Store :=
  send_command node_id (list_to_map [("type", "unfreeze")]) s.

Definition start (node_id : string) (s : Redis.Store) : Redis.Store :=
  send_command node_id (list_to_map [("type", "start")]) s.

Definition stop (node_id : string) (s : Redis.Store) : Redis.Store :=
  send_command node_id (list_to_map [("type", "stop")]) s.

Definition restart (node_id : string) (s : Redis.Store) : Redis.Store :=
  send_command node_id (list_to_map [("type", "restart")]) s.

(** [update]: [dc] is the option of the command, [default_dc] the global
    one; [dc or default_dc] takes the first that is given and not empty. *)
Definition update (dc default_dc : option string) (s : Redis.Store) : Redis.Store :=
  let filter_dc := match dc with
                   | None | Some "" => default_dc
                   | Some _ => dc
                   end in
  send_command_to_all (list_to_map [("type", "update")]) filter_dc s.

Definition exec_cmd (node_id command : string) (s : Redis.Store) : Redis.Store :=
  send_command node_id (list_to_map [("type", "exec"); ("command", command)]) s.

(** [deploy_file], once the local file has been read. *)
Definition deploy_file (node_id remote_path content : string) (s : Redis.Store)
    : Redis.Store :=
  send_command node_id
    (list_to_map [("type", "deploy_file"); ("path", remote_path); ("content", content)]) s.



End ClusterController.

(** ** pubsub.py: the loop of the subscriber *)

(** What [pubsub.listen()] yields: a message whose type is not [message]
    (a subscription notice), or a message with its data, which is [None]
    when it is not valid JSON. *)
Inductive Message :=
  | Notice
  | Data (data : option Event.t).

Module PubSubSubscriber.

(** One turn of the loop of [listen]. *)
Definition listen_step {St : Type} (handlers : gmap string (Event.t → St → St))
    (st : St) (message : Message) : St :=
  match message with
  | Notice => st
  | Data None => st
  | Data (Some data) => PubSub.dispatch handlers data st
  end.

(** [listen] over the messages received until the subscriber is stopped. *)
Definition listen {St : Type} (handlers : gmap string (Event.t → St → St))
    (messages : list Message) (st : St) : St :=
  foldl (listen_step handlers) st messages.

End PubSubSubscriber.

(** ** bazbeans/docker_commands.py *)

Module DockerComposeCommands.
Section DockerComposeCommands.
Context `{Platform}.
Import Config.

Definition _run_docker_compose (c : BazBeansConfig) (args : list string) (w : Host.World)
    : list (string * jvalue) * Host.World :=
  let cmd := ["docker-compose"; "-f"; compose_file c] ++ args in
  match Host.run cmd false (Some (app_dir c)) w with
  | (Completed stdout stderr returncode, w) =>
      ([("stdout", JStr stdout); ("stderr", JStr stderr);
        ("returncode", JNum returncode);
        ("success", JBool (bool_decide (returncode = 0)))], w)
  | (TimeoutExpired, w) =>
      ([("stdout", JStr ""); ("stderr", JStr "Command timed out after 5 minutes");
        ("returncode", JNum (-1)); ("success", JBool false)], w)
  | (ProcError e, w) =>
      ([("stdout", JStr ""); ("stderr", JStr e);
        ("returncode", JNum (-1)); ("success", JBool false)], w)
  end.

(** [result["message"] = message] on a result of [_run_docker_compose],
    which has no such key yet. *)
Definition with_message (message : string) (result : list (string * jvalue))
    : list (string * jvalue) :=
  result ++ [("message", JStr message)].

Definition _cmd_status (c : BazBeansConfig) : NodeAgent.Handler := λ command a w,
  let '(result, w) := _run_docker_compose c ["ps"] w in
  (Returned (with_message "Service status retrieved" result), a, w).

End DockerComposeCommands.
End DockerComposeCommands.

(** ** Sequences of agent calls *)

Module AgentHistory.

Inductive Call :=
  | Freeze (reason : string)
  | Unfreeze.

Definition call (st : NodeAgent.t * Redis.Store) (op : Call) : NodeAgent.t * Redis.Store :=
  match op with
  | Freeze reason => NodeAgent.freeze reason st.1 st.2
  | Unfreeze => NodeAgent.unfreeze st.1 st.2
  end.

Definition run (ops : list Call) (st : NodeAgent.t * Redis.Store)
    : NodeAgent.t * Redis.Store :=
  foldl call st ops.

End AgentHistory.

(** ** Vocabulary of the statements *)

(** Two stores that differ at most in [ACTIVE_NODES]. *)
Definition same_but_active (s s' : Redis.Store) : Prop :=
  Redis.now s' = Redis.now s ∧ Redis.nodes_all s' = Redis.nodes_all s ∧
  Redis.node_ips s' = Redis.node_ips s ∧ Redis.heartbeat s' = Redis.heartbeat s ∧
  Redis.status s' = Redis.status s ∧ Redis.commands s' = Redis.commands s ∧
  Redis.lb_events s' = Redis.lb_events s.

(** The node has a heartbeat record that has not expired. *)
Definition live (s : Redis.Store) (id : string) : Prop :=
  Redis.exists_heartbeat id s = true.

Global Instance live_dec s id : Decision (live s id).
Proof. unfold live. apply _. Defined.

(** Every member of [ACTIVE_NODES] has [is_frozen] set to [false] in its
    status hash. *)
Definition active_unfrozen (s : Redis.Store) : Prop :=
  ∀ id, id ∈ Redis.nodes_active s →
        Redis.hgetall_status id s !! "is_frozen" = Some "false".

(** The coordinator once the head of the queue of [id] is popped. *)
Definition after_pop (id : string) (rest : list (gmap string string)) (s : Redis.Store)
    : Redis.Store :=
  {| Redis.now := Redis.now s; Redis.nodes_all := Redis.nodes_all s;
     Redis.nodes_active := Redis.nodes_active s; Redis.node_ips := Redis.node_ips s;
     Redis.heartbeat := Redis.heartbeat s; Redis.status := Redis.status s;
     Redis.commands := <[id := rest]> (Redis.commands s);
     Redis.lb_events := Redis.lb_events s |}.

(** The status word that records the outcome of a command of kind [k]. *)
Definition status_word (k : string) (out : Outcome) : string :=
  match out with
  | Returned _ => "executed_" +:+ k
  | Raised _ => "error_" +:+ k
  end.

Definition is_spawn (e : Effect) : Prop :=
  match e with Spawned _ _ _ => True | _ => False end.

Section Vocabulary.
Context `{Platform}.

(** The details written with the status word. *)
Definition status_details (out : Outcome) : string :=
  match out with
  | Returned result => json_dumps result
  | Raised e => e
  end.

(** The resolver of the updater gives an answer for [node], an address
    or none: it does not raise. *)
Definition answers (u : NginxUpdater.t) (w : Host.World) (node : string) : Prop :=
  ∃ ip, IPResolvers.resolve (NginxUpdater.ip_resolver u) node w = inr ip.

(** The line that stands for [node] in the upstream block, when the
    resolver answers. *)
Definition renders (u : NginxUpdater.t) (w : Host.World) (node line : string) : Prop :=
  match IPResolvers.resolve (NginxUpdater.ip_resolver u) node w with
  | inl _ => False
  | inr (Some ip) =>
      if bool_decide (ip = "")
      then line = "    # Could not resolve IP for " +:+ node
      else line = "    server " +:+ ip +:+ ":"
                  +:+ pretty (Config.node_port (NginxUpdater.config u)) +:+ ";"
  | inr None => line = "    # Could not resolve IP for " +:+ node
  end.

(** The text of an upstream file with the given lines for the nodes. *)
Definition upstream_text (u : NginxUpdater.t) (w : Host.World) (count : nat)
    (body : list string) : string :=
  String.concat LF
    (["# Generated by BazBeans Nginx Updater";
      "# Updated: " +:+ strftime (Redis.now (Host.redis w));
      "upstream " +:+ NginxUpdater.upstream_name u +:+ " {";
      "    # Active nodes: " +:+ pretty count]
     ++ body
     ++ ["    # Load balancing options"; "    least_conn;"; "}"]) +:+ LF.

End Vocabulary.

(** ** Concrete inputs on the simulated host *)

Definition web1 : Config.BazBeansConfig := Config.defaults "web-1".
Definition web2 : Config.BazBeansConfig := Config.defaults "web-2".

(** An agent of [web-1] as [__init__] builds it, without a Docker client. *)
Definition agent_web1 : NodeAgent.t := NodeAgent.Build_t web1 true false false false.
Definition agent_web2 : NodeAgent.t := NodeAgent.Build_t web2 true false false false.

(** [web-1] registered and then frozen. *)
Definition frozen_web1 : @Host.World Sim.platform :=
  Host.on_redis (NodePool.freeze web1 "maintenance")
    (Host.on_redis (NodePool.register web1) (Sim.world ∅)).

(** The agent of [web-1] started, after one heartbeat and then a freeze. *)
Definition heartbeat_then_freeze : NodeAgent.t * @Host.World Sim.platform :=
  let '(a, w) := NodeAgent.startup agent_web1 (Sim.world ∅) in
  match NodeAgent._send_heartbeat a w with
  | inr w => NodeAgent.freeze_in "maintenance" a w
  | inl _ => (a, w)
  end.

(** Commands as the operator CLI queues them. *)
Definition freeze_cmd : gmap string string :=
  list_to_map [("type", "freeze"); ("reason", "maintenance")].

Definition unfreeze_cmd : gmap string string := list_to_map [("type", "unfreeze")].

Definition exec_cmd (line : string) : gmap string string :=
  list_to_map [("type", "exec"); ("command", line)].

Definition deploy_cmd (path content : string) : gmap string string :=
  list_to_map [("type", "deploy_file"); ("path", path); ("content", content)].

(** The handlers of an agent without plugins or custom health checks. *)
Definition builtin : gmap string (@NodeAgent.Handler Sim.platform) :=
  NodeAgent._register_builtin_handlers [].

(** An updater for the upstream [app_backend] with a given snapshot. *)
Definition updater (resolver : IPResolvers.IPResolver) (snapshot : list string)
    : NginxUpdater.t :=
  {| NginxUpdater.config := Config.defaults "proxy";
     NginxUpdater.upstream_name := "app_backend";
     NginxUpdater.upstream_file := "/etc/nginx/conf.d/upstream.conf";
     NginxUpdater.reload_command := ["nginx"; "-s"; "reload"];
     NginxUpdater.ip_resolver := resolver;
     NginxUpdater.active_nodes := snapshot |}.

Definition static_ips : IPResolvers.IPResolver :=
  IPResolvers.StaticIPResolver (list_to_map [("a", "10.0.0.1"); ("b", "10.0.0.2")]).

(** ** Vocabulary of the further statements *)

(** The queue of commands waiting for [id]. *)
Definition queue (id : string) (s : Redis.Store) : list (gmap string string) :=
  default [] (Redis.commands s !! id).

(** [n] calls of [get_command] in a row: what they return, and the
    coordinator afterwards. *)
Fixpoint get_commands (n : nat) (c : Config.BazBeansConfig) (s : Redis.Store)
    : list (option (gmap string string)) * Redis.Store :=
  match n with
  | O => ([], s)
  | S n =>
      let '(o, s) := NodePool.get_command c s in
      let '(os, s) := get_commands n c s in
      (o :: os, s)
  end.

(** The four event kinds the updater subscribes to. *)
Definition membership_kinds : list string :=
  ["node_registered"; "node_removed"; "node_frozen"; "node_unfrozen"].

Section Vocabulary2.
Context `{Platform}.

(** Nothing makes [_check_self_health] freeze the agent on this host. *)
Definition healthy (checks : list NodeAgent.HealthCheck) (a : NodeAgent.t) (o : OS) : Prop :=
  cpu_percent o <= Config.cpu_threshold (NodeAgent.config a) ∧
  memory_percent o <= Config.memory_threshold (NodeAgent.config a) ∧
  (NodeAgent.docker_client a = true →
   ∃ containers, containers_list o = inr containers ∧
                 Forall (λ c : string * string, c.2 = "running") containers) ∧
  Forall (λ check : NodeAgent.HealthCheck, check.2 o = inr true) checks.

End Vocabulary2.

(** The node whose heartbeat record or status hash a NodePool call
    writes, if it writes any. *)
Definition writes_for (op : History.Call) : option string :=
  match op with
  | History.Register c | History.Heartbeat c _ | History.Freeze c _
  | History.Unfreeze c | History.UpdateStatus c _ _ => Some (Config.node_id c)
  | _ => None
  end.

(** The agent's flag says what the coordinator holds for its node. *)
Definition flag_agrees (a : NodeAgent.t) (s : Redis.Store) : Prop :=
  let id := Config.node_id (NodeAgent.config a) in
  (id ∈ Redis.nodes_active s ↔ NodeAgent.is_frozen a = false) ∧
  Redis.hgetall_status id s !! "is_frozen"
  = Some (if NodeAgent.is_frozen a then "true" else "false").

(** The node passes the data-center filter of [send_command_to_all]. *)
Definition matches_dc (filter_dc : option string) (id : string) (s : Redis.Store) : Prop :=
  match filter_dc with
  | None | Some "" => True
  | Some dc => ClusterController.get_node_status id s !! "data_center" = Some (JStr dc)
  end.

Global Instance matches_dc_dec filter_dc id s : Decision (matches_dc filter_dc id s).
Proof. unfold matches_dc. destruct filter_dc as [[|ch dc]|]; apply _. Defined.

(** Two stores that differ at most in the command queues. *)
Definition same_but_commands (s s' : Redis.Store) : Prop :=
  Redis.now s' = Redis.now s ∧ Redis.nodes_all s' = Redis.nodes_all s ∧
  Redis.nodes_active s' = Redis.nodes_active s ∧
  Redis.node_ips s' = Redis.node_ips s ∧ Redis.heartbeat s' = Redis.heartbeat s ∧
  Redis.status s' = Redis.status s ∧ Redis.lb_events s' = Redis.lb_events s.

(** The snapshots that the messages of a stream bring to the updater: one
    for each message that decodes to an event of a kind it subscribes to. *)
Definition snapshots (messages : list Message) : list (list string) :=
  omap (λ message,
          match message with
          | Data (Some data) =>
              if bool_decide (Event.event data ∈ membership_kinds)
              then Some (Event.active_nodes data) else None
          | _ => None
          end) messages.

(** An outcome of [resolve] that ends the search of a chain of resolvers:
    an exception, or an address that is not empty. *)
Definition ends_search (out : string + option string) : Prop :=
  match out with
  | inl _ => True
  | inr ip => IPResolvers.truthy ip = true
  end.

Global Instance ends_search_dec out : Decision (ends_search out).
Proof. destruct out; apply _. Defined.

(** * Properties *)

Set Warnings "-clear-no-such-hyp".

(** ** The simulated host on small inputs *)

Example normpath_traversal : Sim.posix_normpath "../../etc/passwd" = "../../etc/passwd".
Proof. vm_compute. reflexivity. Qed.
Example normpath_inner : Sim.posix_normpath "conf//./a/../app.ini" = "conf/app.ini".
Proof. vm_compute. reflexivity. Qed.
Example normpath_up : Sim.posix_normpath "a/../../b" = "../b".
Proof. vm_compute. reflexivity. Qed.
Example normpath_root : Sim.posix_normpath "/../x" = "/x".
Proof. vm_compute. reflexivity. Qed.
Example parent_rel : Sim.posix_parent "conf/app.ini" = "conf".
Proof. vm_compute. reflexivity. Qed.
Example parent_bare : Sim.posix_parent "app.ini" = ".".
Proof. vm_compute. reflexivity. Qed.
Example parent_abs : Sim.posix_parent "/app.ini" = "/".
Proof. vm_compute. reflexivity. Qed.
Example parent_two_slashes :
  Sim.posix_parent "//app.ini" = "//" ∧ Sim.posix_parent "//etc/app.ini" = "//etc".
Proof. vm_compute. split; reflexivity. Qed.
Example hostname_labels :
  Sim.bad_hostname "web-1.example.org" = false ∧ Sim.bad_hostname "web-1." = false ∧
  Sim.bad_hostname "web..example.org" = true.
Proof. vm_compute. split_and!; reflexivity. Qed.
Example sorted_ids : sorted ["web-2"; "db"; "web-10"; "web-1"] = ["db"; "web-1"; "web-10"; "web-2"].
Proof. vm_compute. reflexivity. Qed.


(** ** The coordinator and the agent on small inputs *)

Example register_freeze_unfreeze :
  let s := NodePool.unfreeze web1
             (NodePool.freeze web1 "maintenance" (NodePool.register web1 Redis.empty)) in
  Redis.hgetall_status "web-1" s !! "status" = Some "active" ∧
  Redis.hgetall_status "web-1" s !! "details" = Some "Unfrozen" ∧
  Redis.hgetall_status "web-1" s !! "is_frozen" = Some "false" ∧
  Redis.smembers_active s = ["web-1"].
Proof. vm_compute. split_and!; reflexivity. Qed.

Example stale_node_is_collected :
  let s := History.run [History.Register web1; History.Register web2;
                        History.Heartbeat web1 ∅; History.Wait 10;
                        History.Heartbeat web2 ∅; History.Wait 25] Redis.empty in
  Redis.exists_heartbeat "web-1" s = false ∧
  Redis.exists_heartbeat "web-2" s = true ∧
  (NodePool.get_active_nodes s).1 = ["web-2"] ∧
  Redis.smembers_active (NodePool.get_active_nodes s).2 = ["web-2"] ∧
  (NodePool.cleanup_dead_nodes s).1 = ["web-1"] ∧
  length (Redis.smembers_all (NodePool.get_active_nodes s).2) = 2%nat.
Proof. vm_compute. split_and!; reflexivity. Qed.

Example heartbeat_needs_positive_ttl :
  NodePool.heartbeat (Config.Build_BazBeansConfig "redis://localhost:6379/0" "web-1"
                        "default" 0 10 5 "/opt/app" "docker-compose.yml" 8000 90 85 [] "bazbeans:node_ips")
    ∅ Redis.empty
  = inl "invalid expire time in 'setex' command".
Proof. reflexivity. Qed.

Example self_freeze_on_high_cpu :
  let c := Config.Build_BazBeansConfig "redis://localhost:6379/0" "web-1" "default"
             30 10 5 "/opt/app" "docker-compose.yml" 8000 5 85 [] "bazbeans:node_ips" in
  let '(a, w) := NodeAgent.run 1 [] builtin (NodeAgent.Build_t c true false false false)
                   (Sim.world ∅) in
  NodeAgent.is_frozen a = true ∧
  Event.event <$> Redis.lb_events (Host.redis w)
  = ["node_registered"; "node_frozen"; "node_removed"] ∧
  Event.reason <$> Redis.lb_events (Host.redis w) = [""; "High CPU usage: 10.0%"; ""] ∧
  Event.active_nodes <$> Redis.lb_events (Host.redis w) = [["web-1"]; []; []] ∧
  Redis.hgetall_status "web-1" (Host.redis w) !! "status" = Some "stopped".
Proof. vm_compute. split_and!; reflexivity. Qed.

Example unknown_command :
  let w := Host.on_redis (NodePool.send_command "web-1" (list_to_map [("type", "reboot")]))
             (Sim.world ∅) in
  let s := Host.redis (NodeAgent._handle_commands builtin agent_web1 w).2 in
  Redis.hgetall_status "web-1" s !! "status" = Some "error" ∧
  Redis.hgetall_status "web-1" s !! "details" = Some "Unknown command: reboot".
Proof. vm_compute. split_and!; reflexivity. Qed.

Example chained_resolvers :
  let r := IPResolvers.ChainedIPResolver (IPResolvers.new_RedisIPResolver "proxy")
             static_ips in
  IPResolvers.resolve r "a" (Sim.world ∅) = inr (Some "10.0.0.1") ∧
  IPResolvers.resolve r "zz" (Sim.world ∅) = inr None.
Proof. vm_compute. split_and!; reflexivity. Qed.

(** ** The coordinator primitives *)

Section RedisFacts.
Implicit Types (s : Redis.Store) (id : string).

Lemma hgetall_hset_status_eq id (m : gmap string string) s :
  Redis.hgetall_status id (Redis.hset_status id m s) = m ∪ Redis.hgetall_status id s.
Proof.
  unfold Redis.hgetall_status at 1. cbn [Redis.status Redis.hset_status].
  now rewrite lookup_insert_eq.
Qed.

Lemma hgetall_hset_status_ne id id' (m : gmap string string) s :
  id ≠ id' →
  Redis.hgetall_status id' (Redis.hset_status id m s) = Redis.hgetall_status id' s.
Proof.
  intros Hid. unfold Redis.hgetall_status at 1. cbn [Redis.status Redis.hset_status].
  now rewrite lookup_insert_ne.
Qed.

Lemma exists_heartbeat_live id s :
  Redis.exists_heartbeat id s = true ↔
  ∃ expiry v, Redis.heartbeat s !! id = Some (expiry, v) ∧ Redis.now s <= expiry.
Proof.
  unfold Redis.exists_heartbeat, Redis.get_heartbeat.
  destruct (Redis.heartbeat s !! id) as [[expiry v]|] eqn:Hhb.
  - case_bool_decide as Hlt; split.
    + intros _. now exists expiry, v.
    + done.
    + done.
    + intros (expiry' & v' & [= <- <-] & Hlt'). lia.
  - split; [done|]. now intros (? & ? & ? & _).
Qed.

End RedisFacts.

(** ** The read loops of NodePool *)

Lemma same_but_active_refl s : same_but_active s s.
Proof. now repeat split. Qed.

Lemma same_but_active_srem id s s' :
  same_but_active s s' → same_but_active s (Redis.srem_active id s').
Proof. intros (?&?&?&?&?&?&?). now repeat split. Qed.

Lemma get_active_nodes_loop (l acc : list string) (s0 s : Redis.Store) :
  same_but_active s0 s →
  let r := foldl NodePool.get_active_nodes_step (acc, s) l in
  r.1 = acc ++ filter (live s0) l ∧
  Redis.nodes_active r.2 = Redis.nodes_active s ∖ list_to_set (filter (λ id, ¬ live s0 id) l) ∧
  same_but_active s0 r.2.
Proof.
  revert acc s. induction l as [|id l IH]; intros acc s Hsame; cbn zeta.
  - cbn. rewrite app_nil_r. split_and!; [done|set_solver|done].
  - cbn [foldl]. unfold NodePool.get_active_nodes_step at 2 4 6.
    assert (Redis.exists_heartbeat id s = Redis.exists_heartbeat id s0) as ->.
    { destruct Hsame as (Hnow & _ & _ & Hhb & _).
      unfold Redis.exists_heartbeat, Redis.get_heartbeat. now rewrite Hnow, Hhb. }
    destruct (Redis.exists_heartbeat id s0) eqn:Hid.
    + destruct (IH (acc ++ [id]) s Hsame) as (Hres & Hact & Hsame').
      rewrite Hres, Hact. split_and!; [| |done].
      * rewrite filter_cons_True by done. now rewrite <- app_assoc.
      * rewrite (filter_cons_False (λ id, ¬ live s0 id)); [done|]. intros Hn. now apply Hn.
    + destruct (IH acc (Redis.srem_active id s) (same_but_active_srem _ _ _ Hsame))
        as (Hres & Hact & Hsame').
      rewrite Hres, Hact. split_and!; [| |done].
      * rewrite filter_cons_False; [done|]. unfold live. congruence.
      * rewrite (filter_cons_True (λ id, ¬ live s0 id)) by (unfold live; congruence).
        cbn. set_solver.
Qed.

Lemma cleanup_dead_nodes_loop (l acc : list string) (s0 s : Redis.Store) :
  same_but_active s0 s →
  let r := foldl NodePool.cleanup_dead_nodes_step (acc, s) l in
  r.1 = acc ++ filter (λ id, ¬ live s0 id) l ∧
  Redis.nodes_active r.2 = Redis.nodes_active s ∖ list_to_set (filter (λ id, ¬ live s0 id) l) ∧
  same_but_active s0 r.2.
Proof.
  revert acc s. induction l as [|id l IH]; intros acc s Hsame; cbn zeta.
  - cbn. rewrite app_nil_r. split_and!; [done|set_solver|done].
  - cbn [foldl]. unfold NodePool.cleanup_dead_nodes_step at 2 4 6.
    assert (Redis.exists_heartbeat id s = Redis.exists_heartbeat id s0) as ->.
    { destruct Hsame as (Hnow & _ & _ & Hhb & _).
      unfold Redis.exists_heartbeat, Redis.get_heartbeat. now rewrite Hnow, Hhb. }
    destruct (Redis.exists_heartbeat id s0) eqn:Hid; cbn [negb].
    + destruct (IH acc s Hsame) as (Hres & Hact & Hsame').
      rewrite Hres, Hact.
      rewrite (filter_cons_False (λ id, ¬ live s0 id)); [done|]. intros Hn. now apply Hn.
    + destruct (IH (acc ++ [id]) (Redis.srem_active id s) (same_but_active_srem _ _ _ Hsame))
        as (Hres & Hact & Hsame').
      rewrite Hres, Hact.
      rewrite (filter_cons_True (λ id, ¬ live s0 id)) by (unfold live; congruence).
      split_and!; [| |done].
      * now rewrite <- app_assoc.
      * cbn. set_solver.
Qed.

(** ** NodePool.get_active_nodes *)

(** C7.  On every coordinator state, [get_active_nodes] returns, without
    repetition, exactly the members of [ACTIVE_NODES] whose heartbeat
    record exists and has not expired; afterwards [ACTIVE_NODES] holds
    exactly those members, so every member without such a record has
    been removed, and nothing else in the coordinator has changed.  When
    [ACTIVE_NODES] is empty the call returns the empty list and leaves the
    coordinator as it was. *)
Theorem get_active_nodes_spec (s : Redis.Store) :
  let '(active, s') := NodePool.get_active_nodes s in
  (∀ id, id ∈ active ↔
         id ∈ Redis.nodes_active s ∧
         ∃ expiry v, Redis.heartbeat s !! id = Some (expiry, v) ∧ Redis.now s <= expiry) ∧
  NoDup active ∧
  (∀ id, id ∈ Redis.nodes_active s' ↔ id ∈ active) ∧
  (∀ id, id ∈ Redis.nodes_active s → Redis.heartbeat s !! id = None →
         id ∉ Redis.nodes_active s') ∧
  same_but_active s s' ∧
  (Redis.nodes_active s = ∅ → active = [] ∧ s' = s).
Proof.
  destruct (NodePool.get_active_nodes s) as [active s'] eqn:Hrun.
  unfold NodePool.get_active_nodes, Redis.smembers_active in Hrun.
  destruct (get_active_nodes_loop (elements (Redis.nodes_active s)) [] s s
              (same_but_active_refl s)) as (Hres & Hact & Hsame).
  rewrite Hrun in Hres, Hact, Hsame. cbn [fst snd] in Hres, Hact, Hsame.
  rewrite app_nil_l in Hres.
  assert (Hin : ∀ id, id ∈ active ↔ id ∈ Redis.nodes_active s ∧ live s id).
  { intros id. rewrite Hres, list_elem_of_filter, elem_of_elements. tauto. }
  assert (Hkept : ∀ id, id ∈ Redis.nodes_active s' ↔ id ∈ active).
  { intros id. rewrite Hin, Hact, elem_of_difference, elem_of_list_to_set,
      list_elem_of_filter, elem_of_elements.
    destruct (decide (live s id)); tauto. }
  split_and!.
  - intros id. rewrite Hin. unfold live. now rewrite exists_heartbeat_live.
  - rewrite Hres. apply NoDup_filter, NoDup_elements.
  - done.
  - intros id Hid Hnone. rewrite Hkept, Hin. intros [_ Hlive].
    apply exists_heartbeat_live in Hlive as (? & ? & ? & _). congruence.
  - done.
  - intros Hempty. rewrite Hempty, elements_empty in Hrun. now injection Hrun as <- <-.
Qed.

Lemma get_active_nodes_spec_witness :
  NodePool.get_active_nodes Redis.empty = ([], Redis.empty).
Proof.
  pose proof (get_active_nodes_spec Redis.empty) as Hspec.
  destruct (NodePool.get_active_nodes Redis.empty) as [active s'].
  destruct Hspec as (_ & _ & _ & _ & _ & Hempty).
  destruct (Hempty eq_refl) as [-> ->]. reflexivity.
Defined.


(** ** The frozen flag and the active set *)

Lemma active_unfrozen_shrink s s' :
  same_but_active s s' → Redis.nodes_active s' ⊆ Redis.nodes_active s →
  active_unfrozen s → active_unfrozen s'.
Proof.
  intros (_ & _ & _ & _ & Hst & _) Hsub Hinv id Hid.
  unfold Redis.hgetall_status. rewrite Hst. apply Hinv. set_solver.
Qed.

(** A status write that leaves [is_frozen] alone. *)
Lemma active_unfrozen_hset id (m : gmap string string) s :
  m !! "is_frozen" = None →
  active_unfrozen s → active_unfrozen (Redis.hset_status id m s).
Proof.
  intros Hm Hinv id' Hid'. destruct (decide (id = id')) as [->|Hne].
  - rewrite hgetall_hset_status_eq, lookup_union_r by done. now apply Hinv.
  - rewrite hgetall_hset_status_ne by done. now apply Hinv.
Qed.

(** A status write that clears the flag may come with the node joining. *)
Lemma active_unfrozen_join id (m : gmap string string) s s1 :
  m !! "is_frozen" = Some "false" →
  Redis.status s1 = Redis.status s →
  Redis.nodes_active s1 ⊆ {[id]} ∪ Redis.nodes_active s →
  active_unfrozen s → active_unfrozen (Redis.hset_status id m s1).
Proof.
  intros Hm Hst Hact Hinv id' Hid'. destruct (decide (id = id')) as [->|Hne].
  - rewrite hgetall_hset_status_eq. now apply lookup_union_Some_l.
  - rewrite hgetall_hset_status_ne by done.
    unfold Redis.hgetall_status. rewrite Hst. apply Hinv.
    cbn in Hid'. set_solver.
Qed.

(** A status write that sets the flag comes with the node leaving. *)
Lemma active_unfrozen_leave id (m : gmap string string) s :
  active_unfrozen s →
  active_unfrozen (Redis.hset_status id m (Redis.srem_active id s)).
Proof.
  intros Hinv id' Hid'. cbn in Hid'. apply elem_of_difference in Hid' as [Hid' Hne].
  rewrite hgetall_hset_status_ne by set_solver. now apply Hinv.
Qed.

Lemma active_unfrozen_call s op :
  active_unfrozen s → active_unfrozen (History.call s op).
Proof.
  intros Hinv. destruct op; cbn [History.call].
  - unfold NodePool.register.
    apply (active_unfrozen_join _ _ s); [reflexivity|reflexivity| |done]. cbn. set_solver.
  - unfold NodePool.heartbeat, Redis.setex_heartbeat. case_bool_decide; [done|].
    intros id Hid. apply (Hinv id Hid).
  - unfold NodePool.freeze. now apply active_unfrozen_leave.
  - unfold NodePool.unfreeze.
    apply (active_unfrozen_join _ _ s); [reflexivity|reflexivity| |done]. cbn. set_solver.
  - destruct (get_active_nodes_loop (elements (Redis.nodes_active s)) [] s s
                (same_but_active_refl s)) as (_ & Hact & Hsame).
    eapply active_unfrozen_shrink; [exact Hsame| |done].
    unfold NodePool.get_active_nodes, Redis.smembers_active. rewrite Hact. set_solver.
  - done.
  - done.
  - destruct (cleanup_dead_nodes_loop (elements (Redis.nodes_active s)) [] s s
                (same_but_active_refl s)) as (_ & Hact & Hsame).
    eapply active_unfrozen_shrink; [exact Hsame| |done].
    unfold NodePool.cleanup_dead_nodes, Redis.smembers_active. rewrite Hact. set_solver.
  - done.
  - unfold NodePool.get_command, Redis.lpop_command.
    now destruct (default [] (Redis.commands s !! Config.node_id c)).
  - unfold NodePool.update_status. now apply active_unfrozen_hset.
  - done.
  - done.
Qed.

(** C1.  After every sequence of NodePool calls (register, heartbeat,
    freeze, unfreeze, get_active_nodes, cleanup_dead_nodes and the other
    methods of the class, made for any nodes in any order, with time
    passing in between) on the empty coordinator, every member of
    ACTIVE_NODES has [is_frozen] equal to ["false"] in its status hash. *)
Theorem active_nodes_are_not_frozen (ops : list History.Call) (N : string) :
  N ∈ Redis.nodes_active (History.run ops Redis.empty) →
  Redis.hgetall_status N (History.run ops Redis.empty) !! "is_frozen" = Some "false".
Proof.
  revert N. change (active_unfrozen (History.run ops Redis.empty)).
  unfold History.run. induction ops as [|op ops IH] using rev_ind.
  - intros N HN. cbn in HN. set_solver.
  - rewrite foldl_app. cbn [foldl]. now apply active_unfrozen_call.
Qed.

Lemma active_nodes_are_not_frozen_witness :
  let ops := [History.Register web1; History.Register web2;
              History.Freeze web1 "maintenance"; History.Wait 40;
              History.Unfreeze web1; History.Freeze web2 "drain";
              History.Heartbeat web1 ∅; History.GetActiveNodes] in
  "web-1" ∈ Redis.nodes_active (History.run ops Redis.empty) ∧
  Redis.hgetall_status "web-1" (History.run ops Redis.empty) !! "is_frozen" = Some "false".
Proof.
  intros ops.
  assert (Hin : "web-1" ∈ Redis.nodes_active (History.run ops Redis.empty)).
  { vm_compute. reflexivity. }
  split; [exact Hin|]. exact (active_nodes_are_not_frozen ops "web-1" Hin).
Defined.


(** ** NodePool.register *)

Section Register.
Context `{Platform}.
Import Config.

Lemma register_status (c : BazBeansConfig) (s : Redis.Store) :
  let s' := NodePool.register c s in
  node_id c ∈ Redis.nodes_all s' ∧
  node_id c ∈ Redis.nodes_active s' ∧
  Redis.hgetall_status (node_id c) s' !! "is_frozen" = Some "false" ∧
  Redis.hgetall_status (node_id c) s' !! "is_active" = Some "true".
Proof.
  cbn zeta. unfold NodePool.register. split_and!.
  - cbn. set_solver.
  - cbn. set_solver.
  - rewrite hgetall_hset_status_eq. now apply lookup_union_Some_l.
  - rewrite hgetall_hset_status_eq. now apply lookup_union_Some_l.
Qed.

(** C10.  From every prior coordinator state, the frozen ones included,
    [register] puts the node in ALL_NODES and in ACTIVE_NODES and sets
    [is_frozen] to ["false"] and [is_active] to ["true"] in its status
    hash.  Hence an agent that is built again and started on a world where
    its node is frozen comes up unfrozen, with the node active, and the
    only event it publishes on the way is [node_registered]. *)
Theorem register_unfreezes (c : BazBeansConfig) (docker : bool) (w : Host.World) :
  (let s' := NodePool.register c (Host.redis w) in
   node_id c ∈ Redis.nodes_all s' ∧
   node_id c ∈ Redis.nodes_active s' ∧
   Redis.hgetall_status (node_id c) s' !! "is_frozen" = Some "false" ∧
   Redis.hgetall_status (node_id c) s' !! "is_active" = Some "true") ∧
  (∀ a, NodeAgent.new c docker = inr a →
     let '(a', w') := NodeAgent.startup a w in
     NodeAgent.is_frozen a' = false ∧
     node_id c ∈ Redis.nodes_all (Host.redis w') ∧
     node_id c ∈ Redis.nodes_active (Host.redis w') ∧
     Redis.hgetall_status (node_id c) (Host.redis w') !! "is_frozen" = Some "false" ∧
     Redis.hgetall_status (node_id c) (Host.redis w') !! "is_active" = Some "true" ∧
     ∃ e, Redis.lb_events (Host.redis w') = Redis.lb_events (Host.redis w) ++ [e] ∧
          Event.event e = "node_registered" ∧ node_id c ∈ Event.active_nodes e).
Proof.
  split; [apply register_status|].
  intros a Hnew. unfold NodeAgent.new in Hnew.
  destruct (validate c); [done|]. injection Hnew as <-.
  unfold NodeAgent.startup. cbn [NodeAgent.config NodeAgent.is_frozen NodeAgent.with_running].
  destruct (register_status c (Host.redis w)) as (Hall & Hact & Hfrozen & Hactive).
  cbn zeta in Hall, Hact, Hfrozen, Hactive.
  set (w1 := Host.on_redis (PubSub.notify_registered c)
               (Host.on_redis (NodePool.register c) w)).
  assert (Hw1 : node_id c ∈ Redis.nodes_all (Host.redis w1) ∧
                node_id c ∈ Redis.nodes_active (Host.redis w1) ∧
                Redis.hgetall_status (node_id c) (Host.redis w1) = 
                  Redis.hgetall_status (node_id c) (NodePool.register c (Host.redis w)) ∧
                ∃ e, Redis.lb_events (Host.redis w1) = Redis.lb_events (Host.redis w) ++ [e] ∧
                     Event.event e = "node_registered" ∧ node_id c ∈ Event.active_nodes e).
  { split_and!; [exact Hall|exact Hact|reflexivity|].
    eexists. split; [reflexivity|]. split; [reflexivity|].
    cbn [Event.active_nodes]. unfold Redis.smembers_active. now apply elem_of_elements. }
  clearbody w1. destruct Hw1 as (Hall1 & Hact1 & Hst1 & Hev1).
  assert (Hip : ∀ ip, let w2 := Host.on_redis (NodePool.register_ip c ip) w1 in
            node_id c ∈ Redis.nodes_all (Host.redis w2) ∧
            node_id c ∈ Redis.nodes_active (Host.redis w2) ∧
            Redis.hgetall_status (node_id c) (Host.redis w2) =
              Redis.hgetall_status (node_id c) (Host.redis w1) ∧
            Redis.lb_events (Host.redis w2) = Redis.lb_events (Host.redis w1)).
  { intros ip. now split_and!. }
  destruct (local_ip (Host.os w1)) as [[|ch ip]|].
  - rewrite Hst1. now split_and!.
  - destruct (Hip (String ch ip)) as (? & ? & -> & ->). rewrite Hst1. now split_and!.
  - rewrite Hst1. now split_and!.
Qed.

End Register.

Lemma register_unfreezes_witness :
  Redis.hgetall_status "web-1" (Host.redis frozen_web1) !! "is_frozen" = Some "true" ∧
  ("web-1" ∉ Redis.nodes_active (Host.redis frozen_web1)) ∧
  (NodeAgent.new web1 false
    = inr agent_web1) ∧
  (let '(a', w') :=
     NodeAgent.startup agent_web1 frozen_web1 in
   NodeAgent.is_frozen a' = false ∧
   "web-1" ∈ Redis.nodes_active (Host.redis w') ∧
   Redis.hgetall_status "web-1" (Host.redis w') !! "is_frozen" = Some "false").
Proof.
  split; [vm_compute; reflexivity|].
  split; [vm_compute; intros Hin; discriminate Hin|].
  split; [reflexivity|].
  pose proof (proj2 (register_unfreezes web1 false frozen_web1)
                agent_web1 eq_refl) as Hrestart.
  destruct (NodeAgent.startup agent_web1 frozen_web1)
    as [a' w'].
  destruct Hrestart as (Hfrozen & _ & Hact & Hst & _). now split_and!.
Defined.


(** ** NodePool.get_node_status *)

Section Status.
Context `{Platform}.
Import Config.

Lemma get_node_status_lookup (id : string) (s : Redis.Store) (k : string) :
  k ≠ "node_id" →
  NodePool.get_node_status id s !! k =
  match Redis.get_heartbeat id s with
  | Some hb =>
      match hb !! k with
      | Some v => Some v
      | None => JStr <$> Redis.hgetall_status id s !! k
      end
  | None =>
      if bool_decide (k = "status") then Some (JStr "NO HEARTBEAT")
      else JStr <$> Redis.hgetall_status id s !! k
  end.
Proof.
  intros Hk. unfold NodePool.get_node_status.
  assert (Hrest : ((JStr <$> Redis.hgetall_status id s) ∪ {["node_id" := JStr id]}) !! k
                  = JStr <$> Redis.hgetall_status id s !! k).
  { rewrite lookup_union, lookup_fmap, lookup_singleton_ne by done.
    now destruct (Redis.hgetall_status id s !! k). }
  destruct (Redis.get_heartbeat id s) as [hb|].
  - rewrite lookup_union, Hrest. now destruct (hb !! k), (Redis.hgetall_status id s !! k).
  - rewrite lookup_union, Hrest. case_bool_decide as Hst.
    + subst k. rewrite lookup_singleton_eq.
      now destruct (Redis.hgetall_status id s !! "status").
    + rewrite lookup_singleton_ne by done.
      now destruct (Redis.hgetall_status id s !! k).
Qed.

(** C3 as the code has it.  [get_node_status] reports as [is_frozen] the
    value carried by a live heartbeat record whenever the record has that
    field; the status hash's field is reported only when there is no live
    record or when the record lacks the field.  A heartbeat sent by the
    agent always has the field: it is the agent's own flag at the time of
    sending, as a boolean, and it is what [get_node_status] shows until
    the record expires or is replaced. *)
Theorem get_node_status_is_frozen (id : string) (s : Redis.Store) :
  NodePool.get_node_status id s !! "is_frozen" =
    match Redis.get_heartbeat id s with
    | Some hb =>
        match hb !! "is_frozen" with
        | Some v => Some v
        | None => JStr <$> Redis.hgetall_status id s !! "is_frozen"
        end
    | None => JStr <$> Redis.hgetall_status id s !! "is_frozen"
    end
  ∧ ∀ (a : NodeAgent.t) (w : Host.World),
      0 < heartbeat_ttl (NodeAgent.config a) →
      ∃ w', NodeAgent._send_heartbeat a w = inr w' ∧
            NodePool.get_node_status (node_id (NodeAgent.config a)) (Host.redis w')
              !! "is_frozen"
            = Some (JBool (NodeAgent.is_frozen a)).
Proof.
  split.
  - now rewrite get_node_status_lookup.
  - intros a w Httl.
    unfold NodeAgent._send_heartbeat, NodePool.heartbeat, Redis.setex_heartbeat.
    rewrite bool_decide_eq_false_2 by lia. eexists. split; [reflexivity|].
    rewrite get_node_status_lookup by done. cbn [Host.redis Host.with_redis].
    unfold Redis.get_heartbeat. cbn [Redis.heartbeat Redis.now].
    rewrite lookup_insert_eq. rewrite bool_decide_eq_true_2 by lia.
    erewrite lookup_union_Some_l; [reflexivity|]. reflexivity.
Qed.

End Status.

Lemma get_node_status_is_frozen_witness :
  0 < Config.heartbeat_ttl (NodeAgent.config agent_web1) ∧
  ∃ w', NodeAgent._send_heartbeat agent_web1 (Sim.world ∅) = inr w' ∧
        NodePool.get_node_status "web-1" (Host.redis w') !! "is_frozen"
        = Some (JBool false).
Proof.
  split; [reflexivity|].
  apply (proj2 (get_node_status_is_frozen (H := Sim.platform) "web-1" Redis.empty)
           agent_web1 (Sim.world ∅)).
  reflexivity.
Defined.

(** The claim of C3 fails: after a heartbeat and then a freeze, the status
    hash of [web-1] says ["true"] while [get_node_status] still reports the
    heartbeat's [false]. *)
Lemma get_node_status_ignores_status_hash :
  let s := Host.redis heartbeat_then_freeze.2 in
  is_Some (Redis.status s !! "web-1") ∧
  is_Some (Redis.get_heartbeat "web-1" s) ∧
  Redis.hgetall_status "web-1" s !! "is_frozen" = Some "true" ∧
  NodePool.get_node_status "web-1" s !! "is_frozen" = Some (JBool false) ∧
  NodePool.get_node_status "web-1" s !! "is_frozen"
    ≠ JStr <$> Redis.hgetall_status "web-1" s !! "is_frozen".
Proof.
  cbn zeta. split_and!.
  - apply (bool_decide_unpack _). vm_compute. exact I.
  - apply (bool_decide_unpack _). vm_compute. exact I.
  - vm_compute. reflexivity.
  - vm_compute. reflexivity.
  - vm_compute. intros Heq. discriminate Heq.
Qed.


(** ** NodeAgent.freeze and NodeAgent.unfreeze *)

Section Freeze.
Import Config.
Implicit Types (a : NodeAgent.t) (s : Redis.Store).

(** What one effective [freeze] does: the agent was not frozen. *)
Lemma freeze_effective reason a s :
  NodeAgent.is_frozen a = false →
  let '(a', s') := NodeAgent.freeze reason a s in
  let id := node_id (NodeAgent.config a) in
  a' = NodeAgent.with_frozen true a ∧
  Redis.nodes_active s' = Redis.nodes_active s ∖ {[id]} ∧
  Redis.hgetall_status id s' !! "is_frozen" = Some "true" ∧
  Redis.hgetall_status id s' !! "status" = Some "frozen" ∧
  Redis.hgetall_status id s' !! "details" = Some reason ∧
  Redis.lb_events s' =
    Redis.lb_events s ++
      [{| Event.event := "node_frozen"; Event.node_id := id;
          Event.timestamp := Redis.now s; Event.reason := reason;
          Event.active_nodes := elements (Redis.nodes_active s ∖ {[id]});
          Event.extra := [] |}].
Proof.
  intros Hfrozen. unfold NodeAgent.freeze. rewrite Hfrozen. cbn [negb].
  cbn zeta. split_and!; try reflexivity.
  - cbn [NodeAgent.config NodeAgent.with_frozen]. unfold PubSub.notify_frozen, NodePool.freeze.
    change (Redis.hgetall_status ?i (PubSub.publish_event _ _ _ _ ?s))
      with (Redis.hgetall_status i s).
    rewrite hgetall_hset_status_eq. now apply lookup_union_Some_l.
  - cbn [NodeAgent.config NodeAgent.with_frozen]. unfold PubSub.notify_frozen, NodePool.freeze.
    change (Redis.hgetall_status ?i (PubSub.publish_event _ _ _ _ ?s))
      with (Redis.hgetall_status i s).
    rewrite hgetall_hset_status_eq. now apply lookup_union_Some_l.
  - cbn [NodeAgent.config NodeAgent.with_frozen]. unfold PubSub.notify_frozen, NodePool.freeze.
    change (Redis.hgetall_status ?i (PubSub.publish_event _ _ _ _ ?s))
      with (Redis.hgetall_status i s).
    rewrite hgetall_hset_status_eq. now apply lookup_union_Some_l.
Qed.

(** [NodePool.freeze] has no guard: the last reason is the one kept. *)
Lemma pool_freeze_keeps_last_reason (c : BazBeansConfig) (r1 r2 : string) s :
  Redis.hgetall_status (node_id c) (NodePool.freeze c r2 (NodePool.freeze c r1 s)) !! "details"
  = Some r2.
Proof.
  unfold NodePool.freeze at 1. rewrite hgetall_hset_status_eq.
  now apply lookup_union_Some_l.
Qed.

(** An agent that is already frozen ignores [freeze]. *)
Lemma freeze_noop reason a s :
  NodeAgent.is_frozen a = true → NodeAgent.freeze reason a s = (a, s).
Proof. intros Hfrozen. unfold NodeAgent.freeze. now rewrite Hfrozen. Qed.

Lemma unfreeze_noop a s :
  NodeAgent.is_frozen a = false → NodeAgent.unfreeze a s = (a, s).
Proof. intros Hfrozen. unfold NodeAgent.unfreeze. now rewrite Hfrozen. Qed.

(** C2 as the code has it.  Two consecutive calls [freeze(r1)],
    [freeze(r2)] on an agent that is not frozen leave the node frozen with
    [details] equal to [r1]: the second call finds the agent frozen and
    does nothing.  Together they publish exactly one [node_frozen] event,
    with reason [r1], hence at most two. *)
Theorem freeze_twice (r1 r2 : string) a s :
  NodeAgent.is_frozen a = false →
  let '(a1, s1) := NodeAgent.freeze r1 a s in
  let '(a2, s2) := NodeAgent.freeze r2 a1 s1 in
  let id := node_id (NodeAgent.config a) in
  (a2, s2) = (a1, s1) ∧
  NodeAgent.is_frozen a2 = true ∧
  (id ∉ Redis.nodes_active s2) ∧
  Redis.hgetall_status id s2 !! "is_frozen" = Some "true" ∧
  Redis.hgetall_status id s2 !! "details" = Some r1 ∧
  ∃ e, Redis.lb_events s2 = Redis.lb_events s ++ [e] ∧
       Event.event e = "node_frozen" ∧ Event.reason e = r1.
Proof.
  intros Hfrozen. pose proof (freeze_effective r1 a s Hfrozen) as Hfirst.
  destruct (NodeAgent.freeze r1 a s) as [a1 s1].
  destruct Hfirst as (-> & Hact & Hflag & _ & Hdetails & Hevents).
  rewrite freeze_noop by reflexivity. cbn zeta. split_and!.
  - reflexivity.
  - reflexivity.
  - rewrite Hact. set_solver.
  - exact Hflag.
  - exact Hdetails.
  - eexists. split; [exact Hevents|]. now split.
Qed.

(** C6.  [freeze] publishes a [node_frozen] event exactly when the agent
    was not frozen, and [unfreeze] a [node_unfrozen] event exactly when
    it was; nothing else is published by either.  The event names the
    agent's node, its snapshot lists the members of ACTIVE_NODES as they
    are once the call has changed the set, and so the node is absent from
    the snapshot of its [node_frozen] event and present in the snapshot of
    its [node_unfrozen] event. *)
Theorem freeze_events_snapshot (reason : string) a s :
  (let s' := (NodeAgent.freeze reason a s).2 in
   ∃ new, Redis.lb_events s' = Redis.lb_events s ++ new ∧
          length new = (if NodeAgent.is_frozen a then 0 else 1)%nat ∧
          ∀ e, e ∈ new →
               Event.event e = "node_frozen" ∧
               Event.node_id e = node_id (NodeAgent.config a) ∧
               (∀ id, id ∈ Event.active_nodes e ↔ id ∈ Redis.nodes_active s') ∧
               Event.node_id e ∉ Event.active_nodes e) ∧
  (let s' := (NodeAgent.unfreeze a s).2 in
   ∃ new, Redis.lb_events s' = Redis.lb_events s ++ new ∧
          length new = (if NodeAgent.is_frozen a then 1 else 0)%nat ∧
          ∀ e, e ∈ new →
               Event.event e = "node_unfrozen" ∧
               Event.node_id e = node_id (NodeAgent.config a) ∧
               (∀ id, id ∈ Event.active_nodes e ↔ id ∈ Redis.nodes_active s') ∧
               Event.node_id e ∈ Event.active_nodes e).
Proof.
  split; cbn zeta.
  - unfold NodeAgent.freeze. destruct (NodeAgent.is_frozen a); cbn [negb snd].
    + exists []. rewrite app_nil_r. split_and!; [done..|]. intros e He. inversion He.
    + eexists [_]. split; [reflexivity|]. split; [reflexivity|].
      intros e ->%list_elem_of_singleton.
      cbn [Event.event Event.node_id Event.active_nodes NodeAgent.config NodeAgent.with_frozen].
      split_and!; [done..| |].
      * intros id. unfold Redis.smembers_active. now rewrite elem_of_elements.
      * unfold Redis.smembers_active. rewrite elem_of_elements. cbn. set_solver.
  - unfold NodeAgent.unfreeze. destruct (NodeAgent.is_frozen a); cbn [snd].
    + eexists [_]. split; [reflexivity|]. split; [reflexivity|].
      intros e ->%list_elem_of_singleton.
      cbn [Event.event Event.node_id Event.active_nodes NodeAgent.config NodeAgent.with_frozen].
      split_and!; [done..| |].
      * intros id. unfold Redis.smembers_active. now rewrite elem_of_elements.
      * unfold Redis.smembers_active. rewrite elem_of_elements. cbn. set_solver.
    + exists []. rewrite app_nil_r. split_and!; [done..|]. intros e He. inversion He.
Qed.

End Freeze.

Lemma freeze_twice_witness :
  let s := NodePool.register web1 Redis.empty in
  NodeAgent.is_frozen agent_web1 = false ∧
  Redis.hgetall_status "web-1"
    (NodeAgent.freeze "r2" (NodeAgent.freeze "r1" agent_web1 s).1
                           (NodeAgent.freeze "r1" agent_web1 s).2).2 !! "details"
  = Some "r1".
Proof.
  intros s. split; [reflexivity|].
  pose proof (freeze_twice "r1" "r2" agent_web1 s eq_refl) as Htwice.
  destruct (NodeAgent.freeze "r1" agent_web1 s) as [a1 s1].
  cbn [fst snd]. destruct (NodeAgent.freeze "r2" a1 s1) as [a2 s2].
  destruct Htwice as (_ & _ & _ & _ & Hdetails & _). exact Hdetails.
Defined.

(** The claim of C2 fails: after [freeze("cpu")] and then
    [freeze("maintenance")] on the registered, unfrozen agent of [web-1],
    [details] is ["cpu"], not ["maintenance"], and one event was
    published. *)
Lemma second_freeze_keeps_first_reason :
  let s := NodePool.register web1 Redis.empty in
  let '(a1, s1) := NodeAgent.freeze "cpu" agent_web1 s in
  let '(a2, s2) := NodeAgent.freeze "maintenance" a1 s1 in
  NodeAgent.is_frozen a2 = true ∧
  Redis.hgetall_status "web-1" s2 !! "details" = Some "cpu" ∧
  Redis.hgetall_status "web-1" s2 !! "details" ≠ Some "maintenance" ∧
  Event.reason <$> Redis.lb_events s2 = ["cpu"].
Proof.
  cbn zeta. split_and!.
  - vm_compute. reflexivity.
  - vm_compute. reflexivity.
  - vm_compute. intros Heq. discriminate Heq.
  - vm_compute. reflexivity.
Qed.


(** ** The exec and deploy_file handlers *)

Section Handlers.
Context `{Platform}.
Import Config.
Implicit Types (a : NodeAgent.t) (w : Host.World) (command : gmap string string).

(** A command without a command string, or with an empty one, is turned
    down before the allow-list is looked at. *)
Lemma exec_unspecified command a w :
  command !! "command" = None ∨ command !! "command" = Some "" →
  NodeAgent._cmd_exec command a w
  = (Returned [("error", JStr "No command specified")], a, w).
Proof. intros [Hcmd|Hcmd]; unfold NodeAgent._cmd_exec; now rewrite Hcmd. Qed.

(** The allow-list check on a command string that is not empty. *)
Lemma exec_checks_prefixes command a w (cmd : string) :
  command !! "command" = Some cmd →
  cmd ≠ "" →
  let prefixes := allowed_exec_prefixes (NodeAgent.config a) in
  let '(out, a', w') := NodeAgent._cmd_exec command a w in
  a' = a ∧
  (Forall (λ p, startswith cmd p = false) prefixes →
     w' = w ∧
     ∃ msg, out = Returned [("error", JStr msg)] ∧
            startswith msg "Command not allowed" = true) ∧
  (Exists (λ p, startswith cmd p = true) prefixes →
     let run := subprocess_run [cmd] true (Some (app_dir (NodeAgent.config a))) (Host.os w) in
     Host.redis w' = Host.redis w ∧
     Host.os w' = run.2 ∧
     Host.effects w' =
       Host.effects w ++ [Spawned [cmd] true (Some (app_dir (NodeAgent.config a)))] ∧
     out = match run.1 with
           | Completed stdout stderr returncode =>
               Returned [("stdout", JStr stdout); ("stderr", JStr stderr);
                         ("returncode", JNum returncode);
                         ("success", JBool (bool_decide (returncode = 0)))]
           | TimeoutExpired => Returned [("error", JStr "Command timed out after 30 seconds")]
           | ProcError e => Returned [("error", JStr e)]
           end).
Proof.
  intros Hcmd Hne prefixes. unfold NodeAgent._cmd_exec. rewrite Hcmd.
  destruct cmd as [|ch cmd]; [done|]. fold prefixes.
  destruct (existsb (startswith (String ch cmd)) prefixes) eqn:Hallowed; cbn [negb].
  - apply existsb_exists in Hallowed as (p & Hp & Hstart).
    unfold Host.run.
    destruct (subprocess_run [String ch cmd] true (Some (app_dir (NodeAgent.config a)))
                (Host.os w)) as [outcome os'] eqn:Hrun.
    assert (Hgoal : Forall (λ p, startswith (String ch cmd) p = false) prefixes → False).
    { intros Hnone. rewrite Forall_forall in Hnone.
      apply list_elem_of_In in Hp. specialize (Hnone p Hp). congruence. }
    destruct outcome; (split; [reflexivity|]); (split; [intros Hnone; destruct (Hgoal Hnone)|]);
      intros _; cbn zeta; now split_and!.
  - split; [reflexivity|]. split.
    + intros _. split; [reflexivity|]. eexists. split; [reflexivity|]. reflexivity.
    + intros (p & Hp & Hstart)%Exists_exists.
      assert (existsb (startswith (String ch cmd)) prefixes = true) as Hyes.
      { apply existsb_exists. exists p. split; [now apply list_elem_of_In|done]. }
      congruence.
Qed.

(** C8 as the code has it.  A missing or empty command string is answered
    with "No command specified" and the world is left as it was.  For an
    exec command whose command string is not empty: when the string
    starts with none of the configured prefixes, the handler returns an
    error that begins with "Command not allowed" and leaves the world as
    it was, so no subprocess is started; when it starts with one of them,
    the handler starts exactly one subprocess, the shell on that string in
    [app_dir], and builds its result from the outcome. *)
Theorem exec_allow_list command a w :
  let prefixes := allowed_exec_prefixes (NodeAgent.config a) in
  let '(out, a', w') := NodeAgent._cmd_exec command a w in
  a' = a ∧
  (command !! "command" = None ∨ command !! "command" = Some "" →
     out = Returned [("error", JStr "No command specified")] ∧ w' = w) ∧
  (∀ cmd, command !! "command" = Some cmd → cmd ≠ "" →
     (Forall (λ p, startswith cmd p = false) prefixes →
        w' = w ∧
        ∃ msg, out = Returned [("error", JStr msg)] ∧
               startswith msg "Command not allowed" = true) ∧
     (Exists (λ p, startswith cmd p = true) prefixes →
        let run :=
          subprocess_run [cmd] true (Some (app_dir (NodeAgent.config a))) (Host.os w) in
        Host.redis w' = Host.redis w ∧
        Host.os w' = run.2 ∧
        Host.effects w' =
          Host.effects w ++ [Spawned [cmd] true (Some (app_dir (NodeAgent.config a)))] ∧
        out = match run.1 with
              | Completed stdout stderr returncode =>
                  Returned [("stdout", JStr stdout); ("stderr", JStr stderr);
                            ("returncode", JNum returncode);
                            ("success", JBool (bool_decide (returncode = 0)))]
              | TimeoutExpired =>
                  Returned [("error", JStr "Command timed out after 30 seconds")]
              | ProcError e => Returned [("error", JStr e)]
              end)).
Proof.
  intros prefixes. destruct (command !! "command") as [cmd|] eqn:Hcmd.
  - destruct (decide (cmd = "")) as [->|Hne].
    + rewrite exec_unspecified by now right.
      split_and!; [done|done|]. now intros cmd' [= <-] Hne.
    + pose proof (exec_checks_prefixes command a w cmd Hcmd Hne) as Hspec.
      cbn zeta in Hspec. fold prefixes in Hspec.
      destruct (NodeAgent._cmd_exec command a w) as [[out a'] w'].
      destruct Hspec as [Ha Hrest]. split_and!; [exact Ha| |].
      * intros [Hnone|Hempty]; congruence.
      * intros cmd' [= <-] _. exact Hrest.
  - rewrite exec_unspecified by now left.
    split_and!; [done|done|]. intros cmd' Hcmd'. discriminate Hcmd'.
Qed.

(** A deploy_file command without a path or without a content is turned
    down before the path is looked at. *)
Lemma deploy_file_missing command a w :
  command !! "path" = None ∨ command !! "path" = Some "" ∨ command !! "content" = None →
  NodeAgent._cmd_deploy_file command a w
  = (Returned [("error", JStr "Missing path or content")], a, w).
Proof.
  unfold NodeAgent._cmd_deploy_file.
  intros [Hp|[Hp|Hc]].
  - now rewrite Hp.
  - now rewrite Hp.
  - rewrite Hc. now destruct (command !! "path") as [[|? ?]|].
Qed.

(** The traversal check on a command with a path and a content. *)
Lemma deploy_file_checks_path command a w (path content : string) :
  command !! "path" = Some path →
  path ≠ "" →
  command !! "content" = Some content →
  let file_path := normpath path in
  let '(out, a', w') := NodeAgent._cmd_deploy_file command a w in
  a' = a ∧
  (startswith file_path ".." = true →
     out = Returned [("error", JStr "Path traversal not allowed")] ∧ w' = w) ∧
  (startswith file_path ".." = false →
     Host.redis w' = Host.redis w ∧
     match mkdir_parents (parent file_path) (Host.os w) with
     | (Some e, os1) =>
         out = Returned [("error", JStr e)] ∧ Host.os w' = os1 ∧
         Host.effects w' = Host.effects w
     | (None, os1) =>
         match write_text file_path content os1 with
         | (Some e, os2) =>
             out = Returned [("error", JStr e)] ∧ Host.os w' = os2 ∧
             Host.effects w' = Host.effects w ++ [MadeDirs (parent file_path)]
         | (None, os2) =>
             out = Returned [("status", JStr "deployed"); ("path", JStr file_path)] ∧
             Host.os w' = os2 ∧
             Host.effects w' =
               Host.effects w ++ [MadeDirs (parent file_path); Wrote file_path content]
         end
     end).
Proof.
  intros Hpath Hne Hcontent file_path. unfold NodeAgent._cmd_deploy_file.
  rewrite Hpath, Hcontent. destruct path as [|ch path]; [done|]. fold file_path.
  destruct (startswith file_path "..") eqn:Hup.
  - split; [reflexivity|]. split; [now intros _|intros Hno; discriminate Hno].
  - unfold Host.mkdir, Host.write, Host.lift.
    destruct (mkdir_parents (parent file_path) (Host.os w)) as [[e|] os1];
      cbn [Host.os Host.effects].
    + split; [reflexivity|]. split; [intros Hyes; discriminate Hyes|]. now intros _.
    + destruct (write_text file_path content os1) as [[e|] os2].
      * split; [reflexivity|]. split; [intros Hyes; discriminate Hyes|]. now intros _.
      * split; [reflexivity|]. split; [intros Hyes; discriminate Hyes|]. intros _.
        cbn [Host.redis Host.os Host.effects]. rewrite <- app_assoc. now split_and!.
Qed.

(** C9 as the code has it.  A command without a path, with an empty path
    or without a content is answered with "Missing path or content" and
    the world is left as it was.  For a deploy_file command that carries
    a path that is not empty and a content: when the normalised path
    starts with [..] the handler returns the error
    "Path traversal not allowed" and leaves the world as it was;
    otherwise it creates the parent directories and then writes the
    content to the normalised path, and nothing else.  When both steps go
    through the result is [deployed] with that path; when one of them
    raises, the result is an error with the text of the exception, no
    further step is taken, and the host is as the failed step left it:
    the directories it made, or a file that [open] created or emptied
    before the write failed, stay. *)
Theorem deploy_file_guard command a w :
  let '(out, a', w') := NodeAgent._cmd_deploy_file command a w in
  a' = a ∧
  (command !! "path" = None ∨ command !! "path" = Some "" ∨ command !! "content" = None →
     out = Returned [("error", JStr "Missing path or content")] ∧ w' = w) ∧
  (∀ path content,
     command !! "path" = Some path → path ≠ "" → command !! "content" = Some content →
     let file_path := normpath path in
     (startswith file_path ".." = true →
        out = Returned [("error", JStr "Path traversal not allowed")] ∧ w' = w) ∧
     (startswith file_path ".." = false →
        Host.redis w' = Host.redis w ∧
        match mkdir_parents (parent file_path) (Host.os w) with
        | (Some e, os1) =>
            out = Returned [("error", JStr e)] ∧ Host.os w' = os1 ∧
            Host.effects w' = Host.effects w
        | (None, os1) =>
            match write_text file_path content os1 with
            | (Some e, os2) =>
                out = Returned [("error", JStr e)] ∧ Host.os w' = os2 ∧
                Host.effects w' = Host.effects w ++ [MadeDirs (parent file_path)]
            | (None, os2) =>
                out = Returned [("status", JStr "deployed"); ("path", JStr file_path)] ∧
                Host.os w' = os2 ∧
                Host.effects w' =
                  Host.effects w ++ [MadeDirs (parent file_path); Wrote file_path content]
            end
        end)).
Proof.
  destruct (command !! "path") as [path|] eqn:Hpath.
  - destruct (decide (path = "")) as [->|Hne].
    + rewrite deploy_file_missing by (right; now left).
      split_and!; [done|done|]. now intros path' content' [= <-] Hne.
    + destruct (command !! "content") as [content|] eqn:Hcontent.
      * pose proof (deploy_file_checks_path command a w path content Hpath Hne Hcontent)
          as Hspec. cbn zeta in Hspec.
        destruct (NodeAgent._cmd_deploy_file command a w) as [[out a'] w'].
        destruct Hspec as [Ha Hrest]. split_and!; [exact Ha| |].
        -- intros [Hnone|[Hempty|Hnone]]; congruence.
        -- intros path' content' [= <-] _ [= <-]. exact Hrest.
      * rewrite deploy_file_missing by (right; now right).
        split_and!; [done|done|]. intros path' content' _ _ Hc. discriminate Hc.
  - rewrite deploy_file_missing by now left.
    split_and!; [done|done|]. intros path' content' Hp. discriminate Hp.
Qed.

End Handlers.

Lemma exec_allow_list_witness :
  let w := Sim.world ∅ in
  (exec_cmd "rm -rf /" !! "command" = Some "rm -rf /") ∧
  "rm -rf /" ≠ "" ∧
  (NodeAgent._cmd_exec (exec_cmd "rm -rf /") agent_web1 w).2 = w ∧
  Host.effects (NodeAgent._cmd_exec (exec_cmd "ls /tmp") agent_web1 w).2
    = [Spawned ["ls /tmp"] true (Some "/opt/app")].
Proof.
  intros w.
  assert (Hrm : exec_cmd "rm -rf /" !! "command" = Some "rm -rf /") by (vm_compute; reflexivity).
  assert (Hls : exec_cmd "ls /tmp" !! "command" = Some "ls /tmp") by (vm_compute; reflexivity).
  split; [exact Hrm|]. split; [discriminate|]. split.
  - pose proof (exec_allow_list (H := Sim.platform) (exec_cmd "rm -rf /") agent_web1 w)
      as Hspec.
    cbn zeta in Hspec.
    destruct (NodeAgent._cmd_exec (exec_cmd "rm -rf /") agent_web1 w) as [[out a'] w'].
    destruct Hspec as (_ & _ & Hcases).
    destruct (Hcases "rm -rf /" Hrm ltac:(discriminate)) as [Hrefused _].
    cbn [snd]. apply Hrefused. vm_compute. repeat constructor.
  - pose proof (exec_allow_list (H := Sim.platform) (exec_cmd "ls /tmp") agent_web1 w)
      as Hspec.
    cbn zeta in Hspec.
    destruct (NodeAgent._cmd_exec (exec_cmd "ls /tmp") agent_web1 w) as [[out a'] w'].
    destruct Hspec as (_ & _ & Hcases).
    destruct (Hcases "ls /tmp" Hls ltac:(discriminate)) as [_ Hallowed]. cbn [snd].
    destruct Hallowed as (_ & _ & Heff & _); [|exact Heff].
    do 2 apply Exists_cons_tl. apply Exists_cons_hd. reflexivity.
Defined.

(** The claim of C8 fails on the empty command string: with the default
    allow-list it starts with none of the prefixes, and the error is
    "No command specified". *)
Lemma exec_empty_command_string :
  let '(out, _, w') := NodeAgent._cmd_exec (exec_cmd "") agent_web1 (Sim.world ∅) in
  exec_cmd "" !! "command" = Some "" ∧
  Forall (λ p, startswith "" p = false) (Config.allowed_exec_prefixes web1) ∧
  out = Returned [("error", JStr "No command specified")] ∧
  startswith "No command specified" "Command not allowed" = false ∧
  Host.effects w' = [].
Proof.
  vm_compute. split_and!; try reflexivity. repeat constructor.
Qed.


Lemma deploy_file_guard_witness :
  let w := Sim.world ∅ in
  let up := deploy_cmd "../../etc/passwd" "x" in
  let ok := deploy_cmd "conf/./app.ini" "k=v" in
  (up !! "path" = Some "../../etc/passwd" ∧ up !! "content" = Some "x") ∧
  (ok !! "path" = Some "conf/./app.ini" ∧ ok !! "content" = Some "k=v") ∧
  (NodeAgent._cmd_deploy_file up agent_web1 w
   = (Returned [("error", JStr "Path traversal not allowed")], agent_web1, w)) ∧
  Host.effects (NodeAgent._cmd_deploy_file ok agent_web1 w).2
  = [MadeDirs "conf"; Wrote "conf/app.ini" "k=v"].
Proof.
  intros w up ok.
  assert (Hup : up !! "path" = Some "../../etc/passwd" ∧ up !! "content" = Some "x")
    by (split; vm_compute; reflexivity).
  assert (Hok : ok !! "path" = Some "conf/./app.ini" ∧ ok !! "content" = Some "k=v")
    by (split; vm_compute; reflexivity).
  split; [exact Hup|]. split; [exact Hok|]. split.
  - pose proof (deploy_file_guard (H := Sim.platform) up agent_web1 w) as Hspec.
    destruct (NodeAgent._cmd_deploy_file up agent_web1 w) as [[out a'] w'].
    destruct Hspec as (-> & _ & Hcases).
    destruct (Hcases _ _ (proj1 Hup) ltac:(discriminate) (proj2 Hup)) as [Hrefused _].
    destruct Hrefused as [-> ->]; [vm_compute; reflexivity|]. reflexivity.
  - pose proof (deploy_file_guard (H := Sim.platform) ok agent_web1 w) as Hspec.
    destruct (NodeAgent._cmd_deploy_file ok agent_web1 w) as [[out a'] w'].
    destruct Hspec as (_ & _ & Hcases).
    destruct (Hcases _ _ (proj1 Hok) ltac:(discriminate) (proj2 Hok)) as [_ Haccepted].
    cbn [snd].
    destruct Haccepted as [_ Hdone]; [vm_compute; reflexivity|].
    hnf in Hdone. destruct Hdone as (_ & _ & Heff). exact Heff.
Defined.

(** The claim of C9 fails in both halves.  A command whose path
    normalises to [../../etc/passwd] but that carries no content gets
    "Missing path or content".  A command whose path [conf/app.ini] is
    accepted, on a host where [conf] is a regular file, gets the error of
    the directory creation, and nothing is written. *)
Lemma deploy_file_not_always_as_claimed :
  (let command : gmap string string :=
     list_to_map [("type", "deploy_file"); ("path", "../../etc/passwd")] in
   let '(out, _, w') := NodeAgent._cmd_deploy_file command agent_web1 (Sim.world ∅) in
   command !! "path" = Some "../../etc/passwd" ∧
   startswith (Sim.posix_normpath "../../etc/passwd") ".." = true ∧
   out = Returned [("error", JStr "Missing path or content")] ∧
   out ≠ Returned [("error", JStr "Path traversal not allowed")]) ∧
  (let fs : Sim.Fs := {["conf" := Some "not a directory"]} in
   let '(out, _, w') :=
     NodeAgent._cmd_deploy_file (deploy_cmd "conf/app.ini" "k=v") agent_web1 (Sim.world fs) in
   startswith (Sim.posix_normpath "conf/app.ini") ".." = false ∧
   out = Returned [("error", JStr "[Errno 17] File exists: 'conf'")] ∧
   Host.effects w' = [] ∧
   Host.os w' !! "conf/app.ini" = None).
Proof.
  split.
  - vm_compute. split_and!; try reflexivity. intros Heq. discriminate Heq.
  - vm_compute. split_and!; reflexivity.
Qed.

(** ** NodeAgent._handle_commands *)

Section HandleCommands.
Context `{Platform}.
Import Config.
Implicit Types (a : NodeAgent.t) (w : Host.World) (command : gmap string string).

Lemma lpop_command_cons (id : string) command rest (s : Redis.Store) :
  Redis.commands s !! id = Some (command :: rest) →
  Redis.lpop_command id s = (Some command, after_pop id rest s).
Proof. intros Hqueue. unfold Redis.lpop_command. now rewrite Hqueue. Qed.

Lemma update_status_fields status details a w :
  let w' := NodeAgent.update_status status details a w in
  Host.os w' = Host.os w ∧ Host.effects w' = Host.effects w ∧
  Redis.hgetall_status (node_id (NodeAgent.config a)) (Host.redis w')
  = list_to_map [("status", status); ("details", details);
                 ("timestamp", float_repr (Redis.now (Host.redis w)))]
    ∪ Redis.hgetall_status (node_id (NodeAgent.config a)) (Host.redis w).
Proof.
  cbn zeta. unfold NodeAgent.update_status, Host.on_redis, NodePool.update_status.
  cbn [Host.os Host.effects Host.redis Host.with_redis].
  now rewrite hgetall_hset_status_eq.
Qed.

Lemma status_word_not_field k out :
  status_word k out ≠ "status" ∧ status_word k out ≠ "details" ∧
  status_word k out ≠ "timestamp".
Proof. destruct out; cbn; split_and!; discriminate. Qed.

(** C4 as the code has it.  When the command at the head of the agent's
    queue has a kind with a registered handler, [_handle_commands] pops
    it, runs the handler and then overwrites three fields of the node's
    status hash: [status] with [executed_<kind>], or [error_<kind>] when
    the handler raised, [details] with the serialised result or the text
    of the exception, and [timestamp].  Every other field is as the
    handler left it; in particular no field named [executed_<kind>] or
    [error_<kind>] is written, so the record of a command lasts until the
    next command of any kind is processed. *)
Theorem handle_commands_writes_status (handlers : gmap string NodeAgent.Handler)
    a w command (rest : list (gmap string string)) (k : string) (handler : NodeAgent.Handler) :
  Redis.commands (Host.redis w) !! node_id (NodeAgent.config a) = Some (command :: rest) →
  command !! "type" = Some k →
  handlers !! k = Some handler →
  let popped := Host.with_redis (NodePool.get_command (NodeAgent.config a) (Host.redis w)).2 w in
  let '(out, a1, w1) := handler command a popped in
  let '(a2, w2) := NodeAgent._handle_commands handlers a w in
  let id := node_id (NodeAgent.config a1) in
  Redis.commands (Host.redis popped) !! node_id (NodeAgent.config a) = Some rest ∧
  a2 = a1 ∧ Host.os w2 = Host.os w1 ∧ Host.effects w2 = Host.effects w1 ∧
  Redis.hgetall_status id (Host.redis w2)
  = list_to_map [("status", status_word k out); ("details", status_details out);
                 ("timestamp", float_repr (Redis.now (Host.redis w1)))]
    ∪ Redis.hgetall_status id (Host.redis w1) ∧
  Redis.hgetall_status id (Host.redis w2) !! "status" = Some (status_word k out) ∧
  Redis.hgetall_status id (Host.redis w2) !! "details" = Some (status_details out) ∧
  Redis.hgetall_status id (Host.redis w2) !! status_word k out
  = Redis.hgetall_status id (Host.redis w1) !! status_word k out.
Proof.
  intros Hqueue Htype Hhandler popped. subst popped.
  unfold NodeAgent._handle_commands, NodePool.get_command.
  rewrite (lpop_command_cons _ _ _ _ Hqueue). cbn [snd].
  destruct (handler command a (Host.with_redis _ w)) as [[out a1] w1] eqn:Hrun.
  rewrite bool_decide_eq_false_2.
  2:{ intros ->. rewrite lookup_empty in Htype. discriminate Htype. }
  rewrite Htype. change (Some k ≫= (handlers !!.)) with (handlers !! k).
  rewrite Hhandler, Hrun.
  assert (Hpop : Redis.commands
                   (Host.redis (Host.with_redis
                                  (after_pop (node_id (NodeAgent.config a)) rest (Host.redis w)) w))
                   !! node_id (NodeAgent.config a) = Some rest).
  { cbn. apply lookup_insert_eq. }
  destruct (status_word_not_field k out) as (Hn1 & Hn2 & Hn3).
  assert (Hgoal : ∀ w2, w2 = NodeAgent.update_status (status_word k out) (status_details out) a1 w1 →
    Host.os w2 = Host.os w1 ∧ Host.effects w2 = Host.effects w1 ∧
    Redis.hgetall_status (node_id (NodeAgent.config a1)) (Host.redis w2)
    = list_to_map [("status", status_word k out); ("details", status_details out);
                   ("timestamp", float_repr (Redis.now (Host.redis w1)))]
      ∪ Redis.hgetall_status (node_id (NodeAgent.config a1)) (Host.redis w1) ∧
    Redis.hgetall_status (node_id (NodeAgent.config a1)) (Host.redis w2) !! "status"
      = Some (status_word k out) ∧
    Redis.hgetall_status (node_id (NodeAgent.config a1)) (Host.redis w2) !! "details"
      = Some (status_details out) ∧
    Redis.hgetall_status (node_id (NodeAgent.config a1)) (Host.redis w2) !! status_word k out
      = Redis.hgetall_status (node_id (NodeAgent.config a1)) (Host.redis w1)
          !! status_word k out).
  { intros w2 ->.
    destruct (update_status_fields (status_word k out) (status_details out) a1 w1)
      as (Hos & Heff & Hst). cbn zeta in Hos, Heff, Hst.
    rewrite Hst. split_and!; [done|done|done| | |].
    - now apply lookup_union_Some_l.
    - now apply lookup_union_Some_l.
    - apply lookup_union_r. cbn [list_to_map foldr].
      now rewrite !lookup_insert_ne, lookup_empty by done. }
  destruct out as [result|e]; cbn [NodeAgent.str_of_type default];
    (split; [exact Hpop|]); (split; [reflexivity|]); now apply Hgoal.
Qed.

End HandleCommands.


Section FreezeCommand.
Context `{Platform}.

Lemma cmd_freeze_outcome (command : gmap string string) (a : NodeAgent.t) (w : Host.World) :
  ∃ w', NodeAgent._cmd_freeze command a w
        = (Returned [("status", JStr "frozen");
                     ("reason", JStr (default "Administrative action" (command !! "reason")))],
           NodeAgent.with_frozen true a, w').
Proof.
  unfold NodeAgent._cmd_freeze, NodeAgent.freeze_in, NodeAgent.freeze.
  destruct a as [c active frozen running docker]. destruct frozen; cbn; eauto.
Qed.

End FreezeCommand.

Lemma handle_commands_writes_status_witness :
  let w := Host.on_redis (NodePool.send_command "web-1" freeze_cmd) (Sim.world ∅) in
  Redis.commands (Host.redis w) !! "web-1" = Some [freeze_cmd] ∧
  freeze_cmd !! "type" = Some "freeze" ∧
  builtin !! "freeze" = Some NodeAgent._cmd_freeze ∧
  Redis.hgetall_status "web-1"
    (Host.redis (NodeAgent._handle_commands builtin agent_web1 w).2) !! "status"
  = Some "executed_freeze".
Proof.
  intros w.
  assert (Hqueue : Redis.commands (Host.redis w) !! "web-1" = Some [freeze_cmd])
    by reflexivity.
  assert (Htype : freeze_cmd !! "type" = Some "freeze") by (vm_compute; reflexivity).
  assert (Hhandler : builtin !! "freeze" = Some NodeAgent._cmd_freeze) by reflexivity.
  split; [exact Hqueue|]. split; [exact Htype|]. split; [exact Hhandler|].
  pose proof (handle_commands_writes_status (H := Sim.platform) builtin agent_web1 w
                freeze_cmd [] "freeze" NodeAgent._cmd_freeze Hqueue Htype Hhandler) as Hspec.
  cbn zeta in Hspec.
  destruct (cmd_freeze_outcome (H := Sim.platform) freeze_cmd agent_web1
              (Host.with_redis
                 (NodePool.get_command (NodeAgent.config agent_web1) (Host.redis w)).2 w))
    as [w1 Hrun].
  rewrite Hrun in Hspec.
  destruct (NodeAgent._handle_commands builtin agent_web1 w) as [a2 w2].
  destruct Hspec as (_ & _ & _ & _ & _ & Hstatus & _). exact Hstatus.
Defined.

(** The claim of C4 fails: after a freeze command the status hash of
    [web-1] has no field [executed_freeze]; the outcome is the value of
    the field [status], and the unfreeze command processed next
    overwrites it together with [details]. *)
Lemma command_result_is_overwritten :
  let w := Host.on_redis (NodePool.send_command "web-1" unfreeze_cmd)
             (Host.on_redis (NodePool.send_command "web-1" freeze_cmd) (Sim.world ∅)) in
  let '(a1, w1) := NodeAgent._handle_commands builtin agent_web1 w in
  let '(a2, w2) := NodeAgent._handle_commands builtin a1 w1 in
  let after_freeze := Redis.hgetall_status "web-1" (Host.redis w1) in
  let after_unfreeze := Redis.hgetall_status "web-1" (Host.redis w2) in
  after_freeze !! "executed_freeze" = None ∧
  after_freeze !! "status" = Some "executed_freeze" ∧
  after_freeze !! "details"
    = Some (Sim.dumps [("status", JStr "frozen"); ("reason", JStr "maintenance")]) ∧
  after_unfreeze !! "executed_freeze" = None ∧
  after_unfreeze !! "status" = Some "executed_unfreeze" ∧
  after_unfreeze !! "details" = Some (Sim.dumps [("status", JStr "active")]).
Proof.
  vm_compute. split_and!; reflexivity.
Qed.


(** ** The proxy updater *)

Lemma sorted_spec (l : list string) :
  StronglySorted String.le (sorted l) ∧ sorted l ≡ₚ l.
Proof.
  unfold sorted. split.
  - apply StronglySorted_merge_sort; apply _.
  - apply merge_sort_Permutation.
Qed.

Section Updater.
Context `{Platform}.
Import Config.
Implicit Types (u : NginxUpdater.t) (w : Host.World).

Lemma server_entry_renders u w (node line : string) :
  NginxUpdater.server_entry u w node = inr line → renders u w node line.
Proof.
  unfold renders, NginxUpdater.server_entry.
  destruct (IPResolvers.resolve (NginxUpdater.ip_resolver u) node w) as [e|[[|ch ip]|]];
    intros [= <-]; done.
Qed.

Lemma server_entry_answers u w (node : string) :
  answers u w node ↔ ∃ line, NginxUpdater.server_entry u w node = inr line.
Proof.
  unfold answers, NginxUpdater.server_entry.
  destruct (IPResolvers.resolve (NginxUpdater.ip_resolver u) node w) as [e|[[|ch ip]|]];
    split; intros [x Hx]; try discriminate Hx; eauto.
Qed.

Lemma append_entries_answers u w (nodes : list string) (lines : list string) :
  Forall (answers u w) nodes →
  ∃ body, NginxUpdater.append_entries u w lines nodes = inr (lines ++ body) ∧
          Forall2 (renders u w) nodes body.
Proof.
  revert lines. induction nodes as [|node nodes IH]; intros lines Hall.
  - exists []. rewrite app_nil_r. split; [reflexivity|constructor].
  - apply Forall_cons in Hall as [Hnode Hall].
    apply server_entry_answers in Hnode as [line Hline].
    destruct (IH (lines ++ [line]) Hall) as (body & Hrun & Hbody).
    exists (line :: body). cbn [NginxUpdater.append_entries]. rewrite Hline, Hrun.
    rewrite <- app_assoc. split; [reflexivity|].
    constructor; [now apply server_entry_renders|exact Hbody].
Qed.

Lemma append_entries_raises u w (nodes : list string) (lines : list string) :
  Exists (λ node, ¬ answers u w node) nodes →
  ∃ e, NginxUpdater.append_entries u w lines nodes = inl e.
Proof.
  revert lines. induction nodes as [|node nodes IH]; intros lines Hex.
  - inversion Hex.
  - cbn [NginxUpdater.append_entries].
    destruct (NginxUpdater.server_entry u w node) as [e|line] eqn:Hentry; [now exists e|].
    apply IH. apply Exists_cons in Hex as [Hnode|Hrest]; [|exact Hrest].
    destruct Hnode. apply server_entry_answers. now exists line.
Qed.

Lemma generate_upstream_config_text u w :
  Forall (answers u w) (NginxUpdater.active_nodes u) →
  ∃ body, Forall2 (renders u w) (sorted (NginxUpdater.active_nodes u)) body ∧
          NginxUpdater._generate_upstream_config u w
          = inr (upstream_text u w (length (NginxUpdater.active_nodes u)) body).
Proof.
  intros Hall. destruct (sorted_spec (NginxUpdater.active_nodes u)) as [_ Hperm].
  rewrite <- Hperm in Hall.
  unfold NginxUpdater._generate_upstream_config, NginxUpdater._generate_upstream_lines,
    upstream_text.
  destruct (append_entries_answers u w (sorted (NginxUpdater.active_nodes u))
              ["# Generated by BazBeans Nginx Updater";
               "# Updated: " +:+ strftime (Redis.now (Host.redis w));
               "upstream " +:+ NginxUpdater.upstream_name u +:+ " {";
               "    # Active nodes: " +:+ pretty (length (NginxUpdater.active_nodes u))]
              Hall) as (body & Hrun & Hbody).
  exists body. split; [exact Hbody|]. rewrite Hrun. now rewrite <- app_assoc.
Qed.

Lemma generate_upstream_config_raises u w :
  Exists (λ node, ¬ answers u w node) (NginxUpdater.active_nodes u) →
  ∃ e, NginxUpdater._generate_upstream_config u w = inl e.
Proof.
  intros Hex. destruct (sorted_spec (NginxUpdater.active_nodes u)) as [_ Hperm].
  rewrite <- Hperm in Hex.
  unfold NginxUpdater._generate_upstream_config, NginxUpdater._generate_upstream_lines.
  destruct (append_entries_raises u w (sorted (NginxUpdater.active_nodes u))
              ["# Generated by BazBeans Nginx Updater";
               "# Updated: " +:+ strftime (Redis.now (Host.redis w));
               "upstream " +:+ NginxUpdater.upstream_name u +:+ " {";
               "    # Active nodes: " +:+ pretty (length (NginxUpdater.active_nodes u))]
              Hex) as [e Hrun].
  exists e. now rewrite Hrun.
Qed.

Lemma reload_nginx_effects u w :
  let w' := NginxUpdater._reload_nginx u w in
  Host.redis w' = Host.redis w ∧
  ∃ spawned, Host.effects w' = Host.effects w ++ spawned ∧ Forall is_spawn spawned.
Proof.
  cbn zeta. unfold NginxUpdater._reload_nginx, Host.run.
  destruct (subprocess_run ["nginx"; "-t"] false None (Host.os w)) as [[so se rc| |e] os1].
  - case_bool_decide.
    + split; [done|]. eexists [_]. split; [done|]. now repeat constructor.
    + cbn [Host.os Host.effects Host.redis].
      destruct (subprocess_run (NginxUpdater.reload_command u) false None os1) as [o os2].
      cbn. split; [done|]. eexists [_; _]. rewrite <- app_assoc. split; [done|].
      now repeat constructor.
  - split; [done|]. eexists [_]. split; [done|]. now repeat constructor.
  - split; [done|]. eexists [_]. split; [done|]. now repeat constructor.
Qed.

(** The file operations of [_update_upstream] once the text is there:
    the old file is moved aside, the text is written, Nginx is reloaded;
    an operation that raises ends the update. *)
Lemma update_upstream_writes u w (text : string) :
  NginxUpdater._generate_upstream_config u w = inr text →
  NginxUpdater.active_nodes u ≠ [] →
  let file := NginxUpdater.upstream_file u in
  let '(u', w', raised) := NginxUpdater._update_upstream u w in
  u' = u ∧ raised = None ∧ Host.redis w' = Host.redis w ∧
  let backup := if path_exists file (Host.os w)
                then [Replaced file (file +:+ ".bak")] else [] in
  match (if path_exists file (Host.os w)
         then replace file (file +:+ ".bak") (Host.os w) else (None, Host.os w)) with
  | (Some _, os1) => Host.os w' = os1 ∧ Host.effects w' = Host.effects w
  | (None, os1) =>
      match write_text file text os1 with
      | (Some _, os2) => Host.os w' = os2 ∧ Host.effects w' = Host.effects w ++ backup
      | (None, os2) =>
          ∃ spawned,
            Host.effects w' = Host.effects w ++ backup ++ [Wrote file text] ++ spawned ∧
            Forall is_spawn spawned
      end
  end.
Proof.
  intros Htext Hsnapshot. cbn zeta. unfold NginxUpdater._update_upstream.
  assert (match NginxUpdater.active_nodes u with
          | [] => NginxUpdater.with_active_nodes (Redis.smembers_active (Host.redis w)) u
          | _ :: _ => u
          end = u) as ->.
  { now destruct (NginxUpdater.active_nodes u). }
  rewrite Htext. unfold Host.move, Host.write, Host.lift.
  destruct (path_exists (NginxUpdater.upstream_file u) (Host.os w)).
  - destruct (replace (NginxUpdater.upstream_file u)
                (NginxUpdater.upstream_file u +:+ ".bak") (Host.os w)) as [[e|] os1].
    + now split_and!.
    + cbn [Host.os Host.effects Host.redis].
      destruct (write_text (NginxUpdater.upstream_file u) text os1) as [[e|] os2].
      * now split_and!.
      * match goal with |- context [NginxUpdater._reload_nginx ?u0 ?w0] =>
          destruct (reload_nginx_effects u0 w0) as (Hredis & spawned & Heff & Hspawn) end.
        cbn zeta in Hredis, Heff. split_and!; [done|done|exact Hredis|].
        exists spawned. split; [|done]. rewrite Heff. cbn [Host.effects].
        now rewrite <- !app_assoc.
  - cbn [Host.os Host.effects Host.redis].
    destruct (write_text (NginxUpdater.upstream_file u) text (Host.os w)) as [[e|] os2].
    + split_and!; [done..|]. now rewrite app_nil_r.
    + match goal with |- context [NginxUpdater._reload_nginx ?u0 ?w0] =>
        destruct (reload_nginx_effects u0 w0) as (Hredis & spawned & Heff & Hspawn) end.
      cbn zeta in Hredis, Heff. split_and!; [done|done|exact Hredis|].
      exists spawned. split; [|done]. rewrite Heff. cbn [Host.effects].
      now rewrite <- !app_assoc.
Qed.

(** C5 as the code has it.  When the event's [active_nodes], taken as a
    set, equals the updater's snapshot, nothing is done.  Otherwise, for
    an event whose list is not empty and whose nodes the resolver all
    answers for, the snapshot becomes the event's list and the upstream
    text is rendered from it in lexicographic order of node id, with one
    [server <ip>:<port>;] line for each node whose IP resolves to a
    non-empty address and one comment line for each node whose IP does
    not.  The existing file, if any, is moved to [<file>.bak] and the
    text is written to the upstream file; when the move or the write
    raises, the update ends there, with the host as the failed operation
    left it.  No other file operation is made, and after a successful
    write only subprocesses follow. *)
Theorem update_upstream_if_needed_spec (nodes : list string) u w :
  let '(u', w', raised) := NginxUpdater._update_upstream_if_needed nodes u w in
  let file := NginxUpdater.upstream_file u in
  (list_to_set nodes =@{gset string} list_to_set (NginxUpdater.active_nodes u) →
   u' = u ∧ w' = w ∧ raised = None) ∧
  (list_to_set nodes ≠@{gset string} list_to_set (NginxUpdater.active_nodes u) →
   nodes ≠ [] →
   Forall (answers u w) nodes →
   u' = NginxUpdater.with_active_nodes nodes u ∧
   raised = None ∧
   Host.redis w' = Host.redis w ∧
   ∃ body,
     StronglySorted String.le (sorted nodes) ∧
     sorted nodes ≡ₚ nodes ∧
     Forall2 (renders u w) (sorted nodes) body ∧
     let text := upstream_text u w (length nodes) body in
     let backup := if path_exists file (Host.os w)
                   then [Replaced file (file +:+ ".bak")] else [] in
     match (if path_exists file (Host.os w)
            then replace file (file +:+ ".bak") (Host.os w) else (None, Host.os w)) with
     | (Some _, os1) => Host.os w' = os1 ∧ Host.effects w' = Host.effects w
     | (None, os1) =>
         match write_text file text os1 with
         | (Some _, os2) => Host.os w' = os2 ∧ Host.effects w' = Host.effects w ++ backup
         | (None, os2) =>
             ∃ spawned,
               Host.effects w' = Host.effects w ++ backup ++ [Wrote file text] ++ spawned ∧
               Forall is_spawn spawned
         end
     end).
Proof.
  unfold NginxUpdater._update_upstream_if_needed.
  case_bool_decide as Hsame.
  { split; [done|]. intros Hdiff. now destruct Hdiff. }
  cbn zeta.
  destruct (NginxUpdater._update_upstream (NginxUpdater.with_active_nodes nodes u) w)
    as [[u' w'] raised] eqn:Hrun.
  split; [intros Heq; now destruct Hsame|]. intros _ Hne Hall.
  destruct (generate_upstream_config_text (NginxUpdater.with_active_nodes nodes u) w Hall)
    as (body & Hbody & Htext).
  cbn [NginxUpdater.active_nodes NginxUpdater.with_active_nodes] in Hbody, Htext.
  pose proof (update_upstream_writes (NginxUpdater.with_active_nodes nodes u) w _ Htext Hne)
    as Hwrites.
  cbn zeta in Hwrites. rewrite Hrun in Hwrites.
  destruct Hwrites as (-> & -> & Hredis & Hfile).
  destruct (sorted_spec nodes) as [Hsorted Hperm].
  split_and!; [done|done|exact Hredis|].
  exists body. split_and!; [exact Hsorted|exact Hperm|exact Hbody|exact Hfile].
Qed.

End Updater.


Lemma update_upstream_if_needed_spec_witness :
  let u := updater static_ips ["a"] in
  let w := Sim.world ∅ in
  (list_to_set ["c"; "b"; "a"] ≠@{gset string} list_to_set (NginxUpdater.active_nodes u)) ∧
  ["c"; "b"; "a"] ≠ [] ∧
  Forall (answers u w) ["c"; "b"; "a"] ∧
  (NginxUpdater._update_upstream_if_needed ["c"; "b"; "a"] u w).1.1
    = updater static_ips ["c"; "b"; "a"] ∧
  (NginxUpdater._update_upstream_if_needed ["a"; "a"] u w) = (u, w, None).
Proof.
  intros u w.
  assert (Hdiff : list_to_set ["c"; "b"; "a"] ≠@{gset string}
                  list_to_set (NginxUpdater.active_nodes u)).
  { intros Heq. apply (bool_decide_pack _) in Heq. vm_compute in Heq. exact Heq. }
  assert (Hsame : list_to_set ["a"; "a"] =@{gset string}
                  list_to_set (NginxUpdater.active_nodes u)).
  { apply (bool_decide_unpack _). vm_compute. exact I. }
  assert (Hall : Forall (answers u w) ["c"; "b"; "a"]).
  { repeat constructor; eexists; reflexivity. }
  split; [exact Hdiff|]. split; [discriminate|]. split; [exact Hall|]. split.
  - pose proof (update_upstream_if_needed_spec (H := Sim.platform) ["c"; "b"; "a"] u w) as Hspec.
    destruct (NginxUpdater._update_upstream_if_needed ["c"; "b"; "a"] u w) as [[u' w'] raised].
    destruct Hspec as [_ Hchanged].
    destruct (Hchanged Hdiff ltac:(discriminate) Hall) as (-> & _). reflexivity.
  - pose proof (update_upstream_if_needed_spec (H := Sim.platform) ["a"; "a"] u w) as Hspec.
    destruct (NginxUpdater._update_upstream_if_needed ["a"; "a"] u w) as [[u' w'] raised].
    destruct Hspec as [Hkept _]. destruct (Hkept Hsame) as (-> & -> & ->). reflexivity.
Defined.

Example upstream_file_a_b_c :
  Host.effects (NginxUpdater._update_upstream_if_needed ["c"; "b"; "a"]
                  (updater static_ips ["a"]) (Sim.world ∅)).1.2
  = [Wrote "/etc/nginx/conf.d/upstream.conf"
       (String.concat LF
          ["# Generated by BazBeans Nginx Updater";
           "# Updated: 0";
           "upstream app_backend {";
           "    # Active nodes: 3";
           "    server 10.0.0.1:8000;";
           "    server 10.0.0.2:8000;";
           "    # Could not resolve IP for c";
           "    # Load balancing options";
           "    least_conn;";
           "}"] +:+ LF);
     Spawned ["nginx"; "-t"] false None;
     Spawned ["nginx"; "-s"; "reload"] false None].
Proof. vm_compute. reflexivity. Qed.

(** The claim of C5 fails when the file cannot be replaced.  The upstream
    file lists [a] and [<file>.bak] is a directory; the event lists [a]
    and [b], which differs from the snapshot [a], and both addresses
    resolve.  Moving the old file aside raises, the error is caught, and
    the file is not rewritten: it still has its old content and no line
    for [b], while the snapshot of the updater is already the event's. *)
Lemma failed_backup_keeps_old_file :
  let file := "/etc/nginx/conf.d/upstream.conf" in
  let old := "upstream app_backend { server 10.0.0.1:8000; }" in
  let fs : Sim.Fs := {[file := Some old; file +:+ ".bak" := None]} in
  let u := updater static_ips ["a"] in
  (list_to_set ["a"; "b"] ≠@{gset string} list_to_set (NginxUpdater.active_nodes u)) ∧
  IPResolvers.resolve static_ips "a" (Sim.world fs) = inr (Some "10.0.0.1") ∧
  IPResolvers.resolve static_ips "b" (Sim.world fs) = inr (Some "10.0.0.2") ∧
  (let '(u', w', raised) :=
     NginxUpdater._update_upstream_if_needed ["a"; "b"] u (Sim.world fs) in
   raised = None ∧
   NginxUpdater.active_nodes u' = ["a"; "b"] ∧
   Host.os w' !! file = Some (Some old) ∧
   Host.effects w' = []).
Proof.
  intros file old fs u. split_and!.
  - intros Heq. apply (bool_decide_pack _) in Heq. vm_compute in Heq. exact Heq.
  - vm_compute. reflexivity.
  - vm_compute. reflexivity.
  - vm_compute. split_and!; reflexivity.
Qed.

(** An event whose [active_nodes] is empty.  [web-1] starts and shuts
    down, which publishes [node_removed] with an empty snapshot; [web-2]
    starts before the updater, whose snapshot is still [web-1], handles
    that event.  The updater then takes its snapshot from ACTIVE_NODES in
    the coordinator, and the file it writes has a [server] line for
    [web-2]. *)
Example empty_event_reads_coordinator :
  let '(a1, w1) := NodeAgent.startup agent_web1 (Sim.world ∅) in
  let '(_, w2) := NodeAgent._shutdown a1 w1 in
  let removed := last (Redis.lb_events (Host.redis w2)) in
  let '(_, w3) := NodeAgent.startup agent_web2 w2 in
  let w3 := Host.with_redis (Host.redis w3) (Sim.world ∅) in
  let resolver := IPResolvers.new_RedisIPResolver "proxy" in
  let '(u', w') :=
    from_option (λ e, NginxUpdater.on_message e (updater resolver ["web-1"], w3))
      (updater resolver ["web-1"], w3) removed in
  (Event.event <$> removed) = Some "node_removed" ∧
  (Event.active_nodes <$> removed) = Some [] ∧
  NginxUpdater.active_nodes u' = ["web-2"] ∧
  Host.effects w'
  = [Wrote "/etc/nginx/conf.d/upstream.conf"
       (String.concat LF
          ["# Generated by BazBeans Nginx Updater";
           "# Updated: 0";
           "upstream app_backend {";
           "    # Active nodes: 1";
           "    server 10.0.0.1:8000;";
           "    # Load balancing options";
           "    least_conn;";
           "}"] +:+ LF);
     Spawned ["nginx"; "-t"] false None;
     Spawned ["nginx"; "-s"; "reload"] false None].
Proof. vm_compute. split_and!; reflexivity. Qed.

(** * Further properties *)

(** ** The read loops, once more *)

Lemma store_ext (s1 s2 : Redis.Store) :
  Redis.now s1 = Redis.now s2 → Redis.nodes_all s1 = Redis.nodes_all s2 →
  Redis.nodes_active s1 = Redis.nodes_active s2 → Redis.node_ips s1 = Redis.node_ips s2 →
  Redis.heartbeat s1 = Redis.heartbeat s2 → Redis.status s1 = Redis.status s2 →
  Redis.commands s1 = Redis.commands s2 → Redis.lb_events s1 = Redis.lb_events s2 →
  s1 = s2.
Proof. destruct s1, s2; cbn; intros; now subst. Qed.

Lemma same_but_active_eq (s s1 s2 : Redis.Store) :
  same_but_active s s1 → same_but_active s s2 →
  Redis.nodes_active s1 = Redis.nodes_active s2 → s1 = s2.
Proof.
  intros (?&?&?&?&?&?&?) (?&?&?&?&?&?&?) Hact. apply store_ext; congruence.
Qed.

Lemma get_active_nodes_result (s : Redis.Store) :
  (NodePool.get_active_nodes s).1 = filter (live s) (elements (Redis.nodes_active s)) ∧
  Redis.nodes_active (NodePool.get_active_nodes s).2
  = Redis.nodes_active s
      ∖ list_to_set (filter (λ id, ¬ live s id) (elements (Redis.nodes_active s))) ∧
  same_but_active s (NodePool.get_active_nodes s).2.
Proof.
  exact (get_active_nodes_loop (elements (Redis.nodes_active s)) [] s s
           (same_but_active_refl s)).
Qed.

Lemma cleanup_dead_nodes_result (s : Redis.Store) :
  (NodePool.cleanup_dead_nodes s).1
  = filter (λ id, ¬ live s id) (elements (Redis.nodes_active s)) ∧
  Redis.nodes_active (NodePool.cleanup_dead_nodes s).2
  = Redis.nodes_active s
      ∖ list_to_set (filter (λ id, ¬ live s id) (elements (Redis.nodes_active s))) ∧
  same_but_active s (NodePool.cleanup_dead_nodes s).2.
Proof.
  exact (cleanup_dead_nodes_loop (elements (Redis.nodes_active s)) [] s s
           (same_but_active_refl s)).
Qed.

Lemma filter_none {A} (P : A → Prop) `{∀ x, Decision (P x)} (l : list A) :
  (∀ x, x ∈ l → ¬ P x) → filter P l = [].
Proof.
  intros Hnone. destruct (filter P l) as [|x rest] eqn:Hfilter; [done|].
  assert (Hx : x ∈ filter P l) by (rewrite Hfilter; left).
  apply list_elem_of_filter in Hx as [HP Hx]. now destruct (Hnone x Hx).
Qed.



(** X2.  [get_active_nodes] and [cleanup_dead_nodes] leave the same
    coordinator behind, and what the first returns together with what the
    second returns is the membership of ACTIVE_NODES before the call:
    every member is either reported active or reported cleaned, never
    both. *)
Theorem get_active_nodes_cleanup_agree (s : Redis.Store) :
  (NodePool.get_active_nodes s).2 = (NodePool.cleanup_dead_nodes s).2 ∧
  (NodePool.get_active_nodes s).1 ++ (NodePool.cleanup_dead_nodes s).1
    ≡ₚ Redis.smembers_active s ∧
  (∀ id, id ∈ (NodePool.get_active_nodes s).1 → id ∉ (NodePool.cleanup_dead_nodes s).1).
Proof.
  destruct (get_active_nodes_result s) as (Hres1 & Hact1 & Hsame1).
  destruct (cleanup_dead_nodes_result s) as (Hres2 & Hact2 & Hsame2).
  split_and!.
  - apply (same_but_active_eq s); [done..|]. now rewrite Hact1, Hact2.
  - rewrite Hres1, Hres2. apply filter_app_complement.
  - intros id. rewrite Hres1, Hres2, !list_elem_of_filter. tauto.
Qed.

(** X3.  Calling [get_active_nodes] a second time right away changes
    nothing more: the coordinator is left as the first call left it and
    the same nodes are returned (in an order that may differ). *)
Theorem get_active_nodes_idempotent (s : Redis.Store) :
  let '(active1, s1) := NodePool.get_active_nodes s in
  let '(active2, s2) := NodePool.get_active_nodes s1 in
  s2 = s1 ∧ active2 ≡ₚ active1.
Proof.
  destruct (get_active_nodes_result s) as (Hres1 & Hact1 & Hsame1).
  destruct (NodePool.get_active_nodes s) as [active1 s1]. cbn [fst snd] in *.
  destruct (get_active_nodes_result s1) as (Hres2 & Hact2 & Hsame2).
  destruct (NodePool.get_active_nodes s1) as [active2 s2]. cbn [fst snd] in *.
  assert (Hlive : ∀ id, live s1 id ↔ live s id).
  { intros id. destruct Hsame1 as (Hnow & _ & _ & Hhb & _).
    unfold live, Redis.exists_heartbeat, Redis.get_heartbeat. now rewrite Hnow, Hhb. }
  assert (Hmem : ∀ id, id ∈ Redis.nodes_active s1 ↔ id ∈ Redis.nodes_active s ∧ live s id).
  { intros id. rewrite Hact1, elem_of_difference, elem_of_list_to_set,
      list_elem_of_filter, elem_of_elements.
    destruct (decide (live s id)); tauto. }
  assert (Hnone : filter (λ id, ¬ live s1 id) (elements (Redis.nodes_active s1)) = []).
  { apply filter_none. intros id Hid%elem_of_elements.
    apply Hmem in Hid as [_ Hid]. rewrite Hlive. tauto. }
  split.
  - symmetry. apply (same_but_active_eq s1); [apply same_but_active_refl|done|].
    rewrite Hact2, Hnone. cbn. set_solver.
  - apply NoDup_Permutation.
    + rewrite Hres2. apply NoDup_filter, NoDup_elements.
    + rewrite Hres1. apply NoDup_filter, NoDup_elements.
    + intros id. rewrite Hres2, Hres1, !list_elem_of_filter, !elem_of_elements, Hmem, Hlive.
      tauto.
Qed.

(** ** What NodePool calls do to the sets and to other nodes *)

Lemma History_run_snoc (ops : list History.Call) (op : History.Call) (s : Redis.Store) :
  History.run (ops ++ [op]) s = History.call (History.run ops s) op.
Proof. unfold History.run. now rewrite foldl_app. Qed.

Lemma call_nodes_all (s : Redis.Store) (op : History.Call) :
  Redis.nodes_all (History.call s op)
  = match op with
    | History.Register c => {[Config.node_id c]} ∪ Redis.nodes_all s
    | _ => Redis.nodes_all s
    end.
Proof.
  destruct op; cbn [History.call]; try reflexivity.
  - unfold NodePool.heartbeat, Redis.setex_heartbeat. now case_bool_decide.
  - now destruct (get_active_nodes_result s) as (_ & _ & _ & -> & _).
  - now destruct (cleanup_dead_nodes_result s) as (_ & _ & _ & -> & _).
  - unfold NodePool.get_command, Redis.lpop_command.
    now destruct (default [] (Redis.commands s !! Config.node_id c)).
Qed.

Lemma call_nodes_active (s : Redis.Store) (op : History.Call) :
  Redis.nodes_active (History.call s op)
  ⊆ match op with
    | History.Register c | History.Unfreeze c => {[Config.node_id c]} ∪ Redis.nodes_active s
    | _ => Redis.nodes_active s
    end.
Proof.
  destruct op; cbn [History.call]; try (cbn; set_solver).
  - unfold NodePool.heartbeat, Redis.setex_heartbeat. now case_bool_decide.
  - destruct (get_active_nodes_result s) as (_ & -> & _). set_solver.
  - destruct (cleanup_dead_nodes_result s) as (_ & -> & _). set_solver.
  - unfold NodePool.get_command, Redis.lpop_command.
    now destruct (default [] (Redis.commands s !! Config.node_id c)).
Qed.

(** X4.  No NodePool call ever removes a node from ALL_NODES: after any
    sequence of calls on the empty coordinator, ALL_NODES holds exactly
    the nodes that [register] was called for.  A member of ACTIVE_NODES
    got there by [register] or by [unfreeze]; since [unfreeze] does not
    touch ALL_NODES, an unfrozen node that never registered is active
    without being in ALL_NODES. *)
Theorem all_nodes_are_the_registered (ops : list History.Call) :
  (∀ s, Redis.nodes_all s ⊆ Redis.nodes_all (History.run ops s)) ∧
  (∀ id, id ∈ Redis.nodes_all (History.run ops Redis.empty) ↔
         ∃ c, History.Register c ∈ ops ∧ Config.node_id c = id) ∧
  (∀ id, id ∈ Redis.nodes_active (History.run ops Redis.empty) →
         ∃ c, (History.Register c ∈ ops ∨ History.Unfreeze c ∈ ops) ∧ Config.node_id c = id) ∧
  (let s := History.run [History.Unfreeze web1] Redis.empty in
   "web-1" ∈ Redis.nodes_active s ∧ "web-1" ∉ Redis.nodes_all s).
Proof.
  split_and!.
  - induction ops as [|op ops IH] using rev_ind; intros s; [done|].
    rewrite History_run_snoc, call_nodes_all. specialize (IH s).
    destruct op; set_solver.
  - induction ops as [|op ops IH] using rev_ind; intros id.
    + cbn. split; [set_solver|]. intros (c & Hc & _). inversion Hc.
    + rewrite History_run_snoc, call_nodes_all.
      assert (Hold : id ∈ Redis.nodes_all (History.run ops Redis.empty) →
                     ∃ c, History.Register c ∈ ops ++ [op] ∧ Config.node_id c = id).
      { intros (c & Hc & Hid)%IH. exists c. split; [|done]. apply elem_of_app. now left. }
      assert (Hnew : ∀ c, History.Register c ∈ ops ++ [op] →
                          History.Register c = op ∨ History.Register c ∈ ops).
      { intros c [Hc|Hc%list_elem_of_singleton]%elem_of_app; [now right|now left]. }
      destruct op;
        try (split; [exact Hold|];
             intros (c0 & Hc & Hid); apply Hnew in Hc as [Hc|Hc]; [discriminate Hc|];
             apply IH; now exists c0).
      rewrite elem_of_union, elem_of_singleton. split.
      * intros [->|Hin]; [|now apply Hold].
        exists c. split; [|done]. apply elem_of_app. right. now left.
      * intros (c0 & Hc & Hid). apply Hnew in Hc as [[= ->]|Hc]; [now left|].
        right. apply IH. now exists c0.
  - induction ops as [|op ops IH] using rev_ind; intros id.
    + cbn. set_solver.
    + rewrite History_run_snoc. intros Hin. apply call_nodes_active in Hin.
      assert (Hold : id ∈ Redis.nodes_active (History.run ops Redis.empty) →
                ∃ c, (History.Register c ∈ ops ++ [op] ∨ History.Unfreeze c ∈ ops ++ [op])
                     ∧ Config.node_id c = id).
      { intros (c & [Hc|Hc] & Hid)%IH; exists c; (split; [|done]);
          [left|right]; apply elem_of_app; now left. }
      destruct op; try (now apply Hold);
        apply elem_of_union in Hin as [Heq%elem_of_singleton|Hin]; try (now apply Hold);
        exists c; (split; [|done]); [left|right]; apply elem_of_app; right; now left.
  - cbn zeta. split; [vm_compute; reflexivity|vm_compute; intros Hin; discriminate Hin].
Qed.

Lemma get_heartbeat_same (s s' : Redis.Store) (id : string) :
  Redis.now s' = Redis.now s → Redis.heartbeat s' !! id = Redis.heartbeat s !! id →
  Redis.get_heartbeat id s' = Redis.get_heartbeat id s.
Proof. intros Hnow Hhb. unfold Redis.get_heartbeat. now rewrite Hnow, Hhb. Qed.

Lemma get_heartbeat_later (s s' : Redis.Store) (id : string) (record : gmap string jvalue) :
  Redis.now s <= Redis.now s' → Redis.heartbeat s' !! id = Redis.heartbeat s !! id →
  Redis.get_heartbeat id s' = Some record → Redis.get_heartbeat id s = Some record.
Proof.
  intros Hnow Hhb. unfold Redis.get_heartbeat. rewrite Hhb.
  destruct (Redis.heartbeat s !! id) as [[expiry v]|]; [|done].
  case_bool_decide; [|done]. now rewrite bool_decide_eq_true_2 by lia.
Qed.

(** What a call made for another node, or for no node, leaves in the
    tables of the coordinator, and what it does to the clock. *)
Lemma call_keeps_other_rows (s : Redis.Store) (op : History.Call) (id : string) :
  writes_for op ≠ Some id →
  Redis.hgetall_status id (History.call s op) = Redis.hgetall_status id s ∧
  Redis.heartbeat (History.call s op) !! id = Redis.heartbeat s !! id.
Proof.
  intros Hother.
  assert (Hne : ∀ c, writes_for op = Some (Config.node_id c) → Config.node_id c ≠ id)
    by (intros c Hc Heq; apply Hother; congruence).
  destruct op; cbn [History.call].
  - unfold NodePool.register. rewrite hgetall_hset_status_ne by now apply Hne. done.
  - unfold NodePool.heartbeat, Redis.setex_heartbeat. case_bool_decide; [done|].
    cbn. rewrite lookup_insert_ne by now apply Hne. done.
  - unfold NodePool.freeze. rewrite hgetall_hset_status_ne by now apply Hne. done.
  - unfold NodePool.unfreeze. rewrite hgetall_hset_status_ne by now apply Hne. done.
  - destruct (get_active_nodes_result s) as (_ & _ & _ & _ & _ & Hhb & Hst & _).
    unfold Redis.hgetall_status. now rewrite Hst, Hhb.
  - done.
  - done.
  - destruct (cleanup_dead_nodes_result s) as (_ & _ & _ & _ & _ & Hhb & Hst & _).
    unfold Redis.hgetall_status. now rewrite Hst, Hhb.
  - done.
  - unfold NodePool.get_command, Redis.lpop_command.
    now destruct (default [] (Redis.commands s !! Config.node_id c)).
  - unfold NodePool.update_status. rewrite hgetall_hset_status_ne by now apply Hne. done.
  - done.
  - done.
Qed.

Lemma call_clock (s : Redis.Store) (op : History.Call) :
  Redis.now s <= Redis.now (History.call s op) ∧
  ((∀ dt, op ≠ History.Wait dt) → Redis.now (History.call s op) = Redis.now s).
Proof.
  assert (Hsame : (∀ dt, op ≠ History.Wait dt) → Redis.now (History.call s op) = Redis.now s).
  { destruct op; cbn [History.call]; intros Hop; try reflexivity.
    - unfold NodePool.heartbeat, Redis.setex_heartbeat. now case_bool_decide.
    - now destruct (get_active_nodes_result s) as (_ & _ & Hnow & _).
    - now destruct (cleanup_dead_nodes_result s) as (_ & _ & Hnow & _).
    - unfold NodePool.get_command, Redis.lpop_command.
      now destruct (default [] (Redis.commands s !! Config.node_id c)).
    - now destruct (Hop dt). }
  split; [|exact Hsame].
  destruct op; try (rewrite Hsame by (intros dt0 Hdt0; discriminate Hdt0); lia).
  cbn [History.call Redis.advance Redis.now]. lia.
Qed.

(** X5.  The status hash and the heartbeat record of a node are written
    only by calls made for that node.  A NodePool call for another node,
    or a call that acts for no node (reads, clean-ups, queue and IP
    operations), leaves the status hash as it was and reads the same
    heartbeat record afterwards as before.  The passing of time leaves the
    status hash alone too, and can only make the record expire: a record
    read after the wait was there, unchanged, before it. *)
Theorem calls_leave_other_nodes_alone (s : Redis.Store) (op : History.Call) (id : string) :
  writes_for op ≠ Some id →
  Redis.hgetall_status id (History.call s op) = Redis.hgetall_status id s ∧
  ((∀ dt, op ≠ History.Wait dt) →
   Redis.get_heartbeat id (History.call s op) = Redis.get_heartbeat id s) ∧
  (∀ record, Redis.get_heartbeat id (History.call s op) = Some record →
             Redis.get_heartbeat id s = Some record).
Proof.
  intros Hother. destruct (call_keeps_other_rows s op id Hother) as [Hstatus Hrow].
  destruct (call_clock s op) as [Hlater Hsame].
  split_and!.
  - exact Hstatus.
  - intros Hop. apply get_heartbeat_same; [now apply Hsame|exact Hrow].
  - intros record. now apply get_heartbeat_later.
Qed.

Lemma calls_leave_other_nodes_alone_witness :
  let s := History.run [History.Register web1; History.Heartbeat web1 ∅] Redis.empty in
  writes_for (History.Freeze web2 "drain") ≠ Some "web-1" ∧
  writes_for (History.Wait 31) ≠ Some "web-1" ∧
  Redis.hgetall_status "web-1" (History.call s (History.Freeze web2 "drain"))
  = Redis.hgetall_status "web-1" s ∧
  Redis.get_heartbeat "web-1" (History.call s (History.Freeze web2 "drain"))
  = Redis.get_heartbeat "web-1" s ∧
  Redis.exists_heartbeat "web-1" s = true ∧
  Redis.exists_heartbeat "web-1" (History.call s (History.Wait 30)) = true ∧
  Redis.exists_heartbeat "web-1" (History.call s (History.Wait 31)) = false.
Proof.
  intros s.
  assert (Hother : writes_for (History.Freeze web2 "drain") ≠ Some "web-1")
    by (cbn; discriminate).
  assert (Hwait : writes_for (History.Wait 31) ≠ Some "web-1") by (cbn; discriminate).
  destruct (calls_leave_other_nodes_alone s (History.Freeze web2 "drain") "web-1" Hother)
    as (Hstatus & Hrecord & _).
  split_and!; [exact Hother|exact Hwait|exact Hstatus| | | |].
  - apply Hrecord. intros dt Hdt. discriminate Hdt.
  - vm_compute. reflexivity.
  - vm_compute. reflexivity.
  - vm_compute. reflexivity.
Defined.

(** ** The command queue *)

Lemma queue_send_command (id id' : string) (command : gmap string string) (s : Redis.Store) :
  queue id' (NodePool.send_command id command s)
  = if bool_decide (id = id') then queue id s ++ [command] else queue id' s.
Proof.
  unfold queue, NodePool.send_command, Redis.rpush_command. cbn [Redis.commands].
  case_bool_decide as Hid.
  - subst. now rewrite lookup_insert_eq.
  - now rewrite lookup_insert_ne.
Qed.

Lemma queue_send_commands (id : string) (cs : list (gmap string string)) (s : Redis.Store) :
  queue id (foldl (λ s command, NodePool.send_command id command s) s cs) = queue id s ++ cs.
Proof.
  revert s. induction cs as [|command cs IH]; intros s; cbn [foldl].
  - now rewrite app_nil_r.
  - rewrite IH, queue_send_command, bool_decide_eq_true_2 by done. now rewrite <- app_assoc.
Qed.

Lemma get_command_queue (c : Config.BazBeansConfig) (s : Redis.Store) :
  match queue (Config.node_id c) s with
  | [] => NodePool.get_command c s = (None, s)
  | command :: rest =>
      (NodePool.get_command c s).1 = Some command ∧
      queue (Config.node_id c) (NodePool.get_command c s).2 = rest ∧
      (∀ id, id ≠ Config.node_id c →
             queue id (NodePool.get_command c s).2 = queue id s)
  end.
Proof.
  unfold NodePool.get_command, Redis.lpop_command, queue.
  destruct (default [] (Redis.commands s !! Config.node_id c)) as [|command rest]; [done|].
  cbn [fst snd Redis.commands]. split_and!; [done| |].
  - now rewrite lookup_insert_eq.
  - intros id Hid. now rewrite lookup_insert_ne.
Qed.

Lemma get_commands_drain (c : Config.BazBeansConfig) (q : list (gmap string string))
    (s : Redis.Store) :
  queue (Config.node_id c) s = q →
  (get_commands (length q) c s).1 = Some <$> q ∧
  queue (Config.node_id c) (get_commands (length q) c s).2 = [].
Proof.
  revert s. induction q as [|command q IH]; intros s Hq; [done|].
  cbn [length get_commands].
  pose proof (get_command_queue c s) as Hpop. rewrite Hq in Hpop.
  destruct (NodePool.get_command c s) as [o s1]. cbn [fst snd] in Hpop.
  destruct Hpop as (-> & Hrest & _). specialize (IH s1 Hrest).
  destruct (get_commands (length q) c s1) as [os s2]. cbn [fst snd] in *.
  destruct IH as [-> Hempty]. done.
Qed.

(** X6.  The queue of a node is first in, first out: after the commands
    [cs] are sent to the node, as many calls of [get_command] as there
    are commands waiting return the commands that were already queued
    and then [cs], each once and in the order sent, and leave the queue
    empty; one more call returns nothing and changes nothing.  Commands
    sent to a node never show up in the queue of another node. *)
Theorem command_queue_is_fifo (c : Config.BazBeansConfig) (cs : list (gmap string string))
    (s : Redis.Store) :
  let id := Config.node_id c in
  let sent := foldl (λ s command, NodePool.send_command id command s) s cs in
  let '(got, s') := get_commands (length (queue id s) + length cs) c sent in
  got = Some <$> (queue id s ++ cs) ∧
  queue id s' = [] ∧
  NodePool.get_command c s' = (None, s') ∧
  (∀ id', id' ≠ id → queue id' sent = queue id' s).
Proof.
  cbn zeta.
  pose proof (queue_send_commands (Config.node_id c) cs s) as Hsent.
  pose proof (get_commands_drain c _ _ Hsent) as Hdrain.
  rewrite length_app in Hdrain.
  destruct (get_commands _ c _) as [got s']. cbn [fst snd] in Hdrain.
  destruct Hdrain as [-> Hempty]. split_and!; [done|done| |].
  - pose proof (get_command_queue c s') as Hpop. now rewrite Hempty in Hpop.
  - intros id' Hid'. clear Hsent Hempty. revert s.
    induction cs as [|command cs IH]; intros s; [done|]. cbn [foldl].
    rewrite IH, queue_send_command. now rewrite bool_decide_eq_false_2.
Qed.

(** ** Heartbeats *)

(** X7.  [heartbeat] raises exactly when [heartbeat_ttl] is not positive,
    and then writes nothing.  Otherwise the record it writes is seen by
    the coordinator for [heartbeat_ttl] seconds and no longer: after a
    wait of [dt] seconds the node has a live heartbeat if and only if
    [dt <= heartbeat_ttl]: Redis expires the key once the clock is past
    the end of its time to live, so the record is still there at exactly
    [heartbeat_ttl] seconds.  In the record the caller's metrics take
    precedence over the fields [timestamp], [node_id] and [data_center]
    that [heartbeat] supplies. *)
Theorem heartbeat_lives_for_ttl (c : Config.BazBeansConfig) (metrics : gmap string jvalue)
    (s : Redis.Store) :
  let id := Config.node_id c in
  match NodePool.heartbeat c metrics s with
  | inl _ => Config.heartbeat_ttl c <= 0
  | inr s' =>
      0 < Config.heartbeat_ttl c ∧
      (∀ dt, 0 <= dt →
             Redis.exists_heartbeat id (Redis.advance dt s')
             = bool_decide (dt <= Config.heartbeat_ttl c)) ∧
      (∃ record, Redis.get_heartbeat id s' = Some record ∧
                 (∀ k v, metrics !! k = Some v → record !! k = Some v) ∧
                 (metrics !! "node_id" = None → record !! "node_id" = Some (JStr id)) ∧
                 (metrics !! "data_center" = None →
                  record !! "data_center" = Some (JStr (Config.data_center c))) ∧
                 (metrics !! "timestamp" = None →
                  record !! "timestamp" = Some (JNum (Redis.now s)))) ∧
      (∀ id', id' ≠ id → Redis.get_heartbeat id' s' = Redis.get_heartbeat id' s) ∧
      Redis.nodes_all s' = Redis.nodes_all s ∧
      Redis.nodes_active s' = Redis.nodes_active s ∧
      Redis.status s' = Redis.status s
  end.
Proof.
  cbn zeta. unfold NodePool.heartbeat, Redis.setex_heartbeat.
  case_bool_decide as Httl; [done|].
  split_and!.
  - lia.
  - intros dt Hdt. unfold Redis.exists_heartbeat, Redis.get_heartbeat, Redis.advance.
    cbn [Redis.heartbeat Redis.now]. rewrite lookup_insert_eq.
    rewrite Z.max_r by done.
    destruct (decide (dt <= Config.heartbeat_ttl c)).
    + now rewrite !bool_decide_eq_true_2 by lia.
    + now rewrite !bool_decide_eq_false_2 by lia.
  - eexists. split.
    + unfold Redis.get_heartbeat. cbn [Redis.heartbeat Redis.now].
      rewrite lookup_insert_eq. now rewrite bool_decide_eq_true_2 by lia.
    + split_and!.
      * intros k v Hk. now apply lookup_union_Some_l.
      * intros Hk. now rewrite lookup_union_r.
      * intros Hk. now rewrite lookup_union_r.
      * intros Hk. now rewrite lookup_union_r.
  - intros id' Hid'. unfold Redis.get_heartbeat. cbn [Redis.heartbeat Redis.now].
    now rewrite lookup_insert_ne.
  - reflexivity.
  - reflexivity.
  - reflexivity.
Qed.

(** ** Status of a node without a heartbeat *)

(** X8.  For a node without a live heartbeat record, [get_node_status]
    reports the status ["NO HEARTBEAT"] whatever the status hash says,
    and every other field of the status hash as it is stored; the
    controller of the CLI computes the same dictionary. *)
Theorem get_node_status_without_heartbeat (id : string) (s : Redis.Store) :
  Redis.get_heartbeat id s = None →
  NodePool.get_node_status id s !! "status" = Some (JStr "NO HEARTBEAT") ∧
  (∀ k, k ≠ "status" → k ≠ "node_id" →
        NodePool.get_node_status id s !! k = JStr <$> Redis.hgetall_status id s !! k) ∧
  (Redis.hgetall_status id s !! "node_id" = None →
   NodePool.get_node_status id s !! "node_id" = Some (JStr id)) ∧
  ClusterController.get_node_status id s = NodePool.get_node_status id s.
Proof.
  intros Hnone. split_and!.
  - rewrite get_node_status_lookup by done.
    now rewrite Hnone.
  - intros k Hk1 Hk2. rewrite get_node_status_lookup by done.
    rewrite Hnone. now rewrite bool_decide_eq_false_2.
  - intros Hid. unfold NodePool.get_node_status. rewrite Hnone.
    rewrite lookup_union_r by now apply lookup_singleton_ne.
    rewrite lookup_union_r by now rewrite lookup_fmap, Hid.
    apply lookup_singleton_eq.
  - reflexivity.
Qed.

Lemma get_node_status_without_heartbeat_witness :
  let s := NodePool.freeze web1 "maintenance" (NodePool.register web1 Redis.empty) in
  Redis.get_heartbeat "web-1" s = None ∧
  Redis.hgetall_status "web-1" s !! "status" = Some "frozen" ∧
  NodePool.get_node_status "web-1" s !! "status" = Some (JStr "NO HEARTBEAT").
Proof.
  intros s.
  assert (Hnone : Redis.get_heartbeat "web-1" s = None) by reflexivity.
  split; [exact Hnone|]. split; [vm_compute; reflexivity|].
  exact (proj1 (get_node_status_without_heartbeat "web-1" s Hnone)).
Defined.

(** ** register, freeze and unfreeze on the coordinator *)

Section PoolRoundTrips.
Import Config.
Implicit Types (c : BazBeansConfig) (s : Redis.Store).

(** X9.  [register] is idempotent: registering a node a second time, at
    the same clock reading, leaves the coordinator exactly as the first
    registration left it. *)
Theorem register_idempotent c s :
  NodePool.register c (NodePool.register c s) = NodePool.register c s.
Proof.
  apply store_ext; try reflexivity.
  - cbn. set_solver.
  - cbn. set_solver.
  - unfold NodePool.register. cbn [Redis.status Redis.hset_status].
    change (Redis.hgetall_status ?i (Redis.sadd_active _ (Redis.sadd_all _ ?s0)))
      with (Redis.hgetall_status i s0).
    rewrite hgetall_hset_status_eq. cbn [Redis.now Redis.sadd_active Redis.sadd_all
      Redis.hset_status Redis.status].
    change (Redis.hgetall_status ?i (Redis.sadd_active _ (Redis.sadd_all _ ?s0)))
      with (Redis.hgetall_status i s0).
    rewrite insert_insert_eq. f_equal.
    rewrite (assoc_L (∪)). now rewrite (idemp_L (∪)).
Qed.

(** X10.  [unfreeze] after [freeze] puts the node back: whatever the
    state before, the node is in ACTIVE_NODES, its status is [active] with
    details [Unfrozen], [is_frozen] is ["false"] and [is_active] is
    ["true"]; the membership of every other node, ALL_NODES and the
    fields of the status hash that neither call writes (such as
    [data_center]) are as before the freeze. *)
Theorem unfreeze_undoes_freeze c (reason : string) s :
  let id := node_id c in
  let s' := NodePool.unfreeze c (NodePool.freeze c reason s) in
  Redis.nodes_active s' = {[id]} ∪ Redis.nodes_active s ∧
  Redis.nodes_all s' = Redis.nodes_all s ∧
  Redis.hgetall_status id s' !! "status" = Some "active" ∧
  Redis.hgetall_status id s' !! "details" = Some "Unfrozen" ∧
  Redis.hgetall_status id s' !! "is_frozen" = Some "false" ∧
  Redis.hgetall_status id s' !! "is_active" = Some "true" ∧
  (∀ k, k ∉ ["status"; "details"; "timestamp"; "is_frozen"; "is_active"] →
        Redis.hgetall_status id s' !! k = Redis.hgetall_status id s !! k) ∧
  (∀ id', id' ≠ id → Redis.hgetall_status id' s' = Redis.hgetall_status id' s).
Proof.
  cbn zeta. unfold NodePool.unfreeze. split_and!.
  - cbn. apply set_eq. intros x. rewrite !elem_of_union, elem_of_difference, elem_of_singleton.
    destruct (decide (x = node_id c)); tauto.
  - reflexivity.
  - rewrite hgetall_hset_status_eq. now apply lookup_union_Some_l.
  - rewrite hgetall_hset_status_eq. now apply lookup_union_Some_l.
  - rewrite hgetall_hset_status_eq. now apply lookup_union_Some_l.
  - rewrite hgetall_hset_status_eq. now apply lookup_union_Some_l.
  - intros k Hk. rewrite !not_elem_of_cons in Hk. destruct Hk as (?&?&?&?&?&_).
    rewrite hgetall_hset_status_eq.
    rewrite lookup_union_r
      by (cbn [list_to_map foldr]; now rewrite !lookup_insert_ne, lookup_empty by done).
    change (Redis.hgetall_status ?i (Redis.sadd_active _ ?s0)) with (Redis.hgetall_status i s0).
    unfold NodePool.freeze. rewrite hgetall_hset_status_eq.
    rewrite lookup_union_r
      by (cbn [list_to_map foldr]; now rewrite !lookup_insert_ne, lookup_empty by done).
    reflexivity.
  - intros id' Hid'. rewrite hgetall_hset_status_ne by done.
    change (Redis.hgetall_status ?i (Redis.sadd_active _ ?s0)) with (Redis.hgetall_status i s0).
    unfold NodePool.freeze. now rewrite hgetall_hset_status_ne by done.
Qed.

End PoolRoundTrips.

(** ** The agent's flag and the coordinator *)

Section AgentFlag.
Import Config.
Implicit Types (a : NodeAgent.t) (s : Redis.Store).

Lemma flag_agrees_call a s (op : AgentHistory.Call) :
  flag_agrees a s →
  let '(a', s') := AgentHistory.call (a, s) op in
  NodeAgent.config a' = NodeAgent.config a ∧ flag_agrees a' s' ∧
  (length (Redis.lb_events s') <= S (length (Redis.lb_events s)))%nat.
Proof.
  intros [Hact Hflag]. destruct op as [reason|]; cbn [AgentHistory.call fst snd].
  - unfold NodeAgent.freeze. destruct (NodeAgent.is_frozen a) eqn:Hfrozen; cbn [negb].
    + split; [done|]. split; [|lia]. unfold flag_agrees. now rewrite Hfrozen.
    + split; [done|]. split.
      * unfold flag_agrees. cbn [NodeAgent.config NodeAgent.with_frozen NodeAgent.is_frozen].
        split.
        -- cbn. set_solver.
        -- unfold PubSub.notify_frozen, NodePool.freeze.
           change (Redis.hgetall_status ?i (PubSub.publish_event _ _ _ _ ?s0))
             with (Redis.hgetall_status i s0).
           rewrite hgetall_hset_status_eq. now apply lookup_union_Some_l.
      * cbn. rewrite length_app. cbn. lia.
  - unfold NodeAgent.unfreeze. destruct (NodeAgent.is_frozen a) eqn:Hfrozen.
    + split; [done|]. split.
      * unfold flag_agrees. cbn [NodeAgent.config NodeAgent.with_frozen NodeAgent.is_frozen].
        split.
        -- cbn. set_solver.
        -- unfold PubSub.notify_unfrozen, NodePool.unfreeze.
           change (Redis.hgetall_status ?i (PubSub.publish_event _ _ _ _ ?s0))
             with (Redis.hgetall_status i s0).
           rewrite hgetall_hset_status_eq. now apply lookup_union_Some_l.
      * cbn. rewrite length_app. cbn. lia.
    + split; [done|]. split; [|lia]. unfold flag_agrees. now rewrite Hfrozen.
Qed.

(** X11.  For an agent built by [__init__] and registered, any sequence
    of [freeze] and [unfreeze] calls keeps the agent's flag, the
    membership of its node in ACTIVE_NODES and the [is_frozen] field of
    its status hash in step: the node is active exactly when the flag is
    off, and the field spells the flag.  Each call publishes at most one
    event. *)
Theorem freeze_unfreeze_keep_flag_in_step (c : BazBeansConfig) (docker : bool)
    (a : NodeAgent.t) (ops : list AgentHistory.Call) (s : Redis.Store) :
  NodeAgent.new c docker = inr a →
  let '(a', s') := AgentHistory.run ops (a, NodePool.register c s) in
  NodeAgent.config a' = c ∧
  (node_id c ∈ Redis.nodes_active s' ↔ NodeAgent.is_frozen a' = false) ∧
  Redis.hgetall_status (node_id c) s' !! "is_frozen"
  = Some (if NodeAgent.is_frozen a' then "true" else "false") ∧
  (length (Redis.lb_events s') <= length (Redis.lb_events s) + length ops)%nat.
Proof.
  intros Hnew. unfold NodeAgent.new in Hnew. destruct (validate c); [done|].
  injection Hnew as <-.
  set (a := NodeAgent.Build_t c true false false docker).
  assert (Hgoal : let st := AgentHistory.run ops (a, NodePool.register c s) in
            NodeAgent.config st.1 = c ∧ flag_agrees st.1 st.2 ∧
            (length (Redis.lb_events st.2) <= length (Redis.lb_events s) + length ops)%nat).
  { cbn zeta. unfold AgentHistory.run.
    induction ops as [|op ops IH] using rev_ind.
    - cbn [foldl fst snd length]. split; [done|]. split; [|cbn; lia].
      destruct (register_status c s) as (_ & Hact & Hflag & _).
      split; [|exact Hflag]. cbn [NodeAgent.config a NodeAgent.is_frozen]. tauto.
    - rewrite foldl_app. cbn [foldl]. destruct IH as (Hc & Hagree & Hlen).
      pose proof (flag_agrees_call _ _ op Hagree) as Hstep.
      destruct (foldl AgentHistory.call (a, NodePool.register c s) ops) as [a1 s1].
      cbn [fst snd] in *.
      destruct (AgentHistory.call (a1, s1) op) as [a2 s2]. cbn [fst snd].
      destruct Hstep as (Hc2 & Hagree2 & Hlen2). rewrite length_app. cbn [length].
      split; [congruence|]. split; [done|]. lia. }
  cbn zeta in Hgoal.
  destruct (AgentHistory.run ops (a, NodePool.register c s)) as [a' s']. cbn [fst snd] in Hgoal.
  destruct Hgoal as (Hc & [Hact Hflag] & Hlen). cbn zeta in Hact, Hflag.
  rewrite Hc in Hact, Hflag. now split_and!.
Qed.

End AgentFlag.

Lemma freeze_unfreeze_keep_flag_in_step_witness :
  let ops := [AgentHistory.Freeze "cpu"; AgentHistory.Freeze "again"; AgentHistory.Unfreeze;
              AgentHistory.Unfreeze; AgentHistory.Freeze "maintenance"] in
  (NodeAgent.new web1 false = inr agent_web1) ∧
  NodeAgent.is_frozen (AgentHistory.run ops (agent_web1, NodePool.register web1 Redis.empty)).1
  = true ∧
  ("web-1" ∉ Redis.nodes_active
     (AgentHistory.run ops (agent_web1, NodePool.register web1 Redis.empty)).2).
Proof.
  intros ops. split; [reflexivity|].
  pose proof (freeze_unfreeze_keep_flag_in_step web1 false agent_web1 ops Redis.empty eq_refl)
    as Hstep.
  destruct (AgentHistory.run ops (agent_web1, NodePool.register web1 Redis.empty))
    as [a' s'] eqn:Hrun.
  destruct Hstep as (_ & Hact & _). cbn [fst snd].
  assert (Hfrozen : NodeAgent.is_frozen a' = true).
  { change a' with (a', s').1. rewrite <- Hrun. vm_compute. reflexivity. }
  split; [exact Hfrozen|]. intros Hin. apply Hact in Hin. congruence.
Defined.

(** ** Shutting the agent down *)

Section Shutdown.
Context `{Platform}.
Import Config.
Implicit Types (a : NodeAgent.t) (w : Host.World).

(** X12.  [_shutdown] takes the node out of ACTIVE_NODES, writes the
    status [stopped] with details [Graceful shutdown] and publishes one
    [node_removed] event whose snapshot no longer holds the node.  It
    leaves ALL_NODES, the heartbeat record and the other fields of the
    status hash alone: [is_frozen] and [is_active] keep the values they
    had, and the host is not touched. *)
Theorem shutdown_effects a w :
  let '(a', w') := NodeAgent._shutdown a w in
  let id := node_id (NodeAgent.config a) in
  NodeAgent.running a' = false ∧
  NodeAgent.config a' = NodeAgent.config a ∧
  NodeAgent.is_frozen a' = NodeAgent.is_frozen a ∧
  Redis.nodes_active (Host.redis w') = Redis.nodes_active (Host.redis w) ∖ {[id]} ∧
  Redis.nodes_all (Host.redis w') = Redis.nodes_all (Host.redis w) ∧
  Redis.heartbeat (Host.redis w') = Redis.heartbeat (Host.redis w) ∧
  Redis.hgetall_status id (Host.redis w') !! "status" = Some "stopped" ∧
  Redis.hgetall_status id (Host.redis w') !! "details" = Some "Graceful shutdown" ∧
  (∀ k, k ∉ ["status"; "details"; "timestamp"] →
        Redis.hgetall_status id (Host.redis w') !! k
        = Redis.hgetall_status id (Host.redis w) !! k) ∧
  (∃ e, Redis.lb_events (Host.redis w') = Redis.lb_events (Host.redis w) ++ [e] ∧
        Event.event e = "node_removed" ∧ Event.node_id e = id ∧
        id ∉ Event.active_nodes e) ∧
  Host.os w' = Host.os w ∧ Host.effects w' = Host.effects w.
Proof.
  unfold NodeAgent._shutdown, NodeAgent.update_status, Host.on_redis, PubSub.notify_removed,
    NodePool.update_status.
  cbn [NodeAgent.config NodeAgent.with_running NodeAgent.running NodeAgent.is_frozen
       Host.redis Host.with_redis Host.os Host.effects].
  change (Redis.hgetall_status ?i (PubSub.publish_event _ _ _ _ ?s0))
    with (Redis.hgetall_status i s0).
  rewrite hgetall_hset_status_eq.
  split_and!; try reflexivity.
  - now apply lookup_union_Some_l.
  - now apply lookup_union_Some_l.
  - intros k Hk. rewrite !not_elem_of_cons in Hk. destruct Hk as (?&?&?&_).
    rewrite lookup_union_r
      by (cbn [list_to_map foldr]; now rewrite !lookup_insert_ne, lookup_empty by done).
    reflexivity.
  - eexists. split; [reflexivity|]. split; [reflexivity|]. split; [reflexivity|].
    cbn [Event.active_nodes]. unfold Redis.smembers_active. rewrite elem_of_elements.
    cbn. set_solver.
Qed.

Lemma shutdown_last_event a w :
  let '(a', w') := NodeAgent._shutdown a w in
  let id := node_id (NodeAgent.config a) in
  NodeAgent.running a' = false ∧
  NodeAgent.config a' = NodeAgent.config a ∧
  (id ∉ Redis.nodes_active (Host.redis w')) ∧
  Redis.hgetall_status id (Host.redis w') !! "status" = Some "stopped" ∧
  ∃ e, last (Redis.lb_events (Host.redis w')) = Some e ∧
       Event.event e = "node_removed" ∧ Event.node_id e = id ∧
       id ∉ Event.active_nodes e.
Proof.
  unfold NodeAgent._shutdown, NodeAgent.update_status, Host.on_redis, PubSub.notify_removed,
    NodePool.update_status.
  cbn [NodeAgent.config NodeAgent.with_running NodeAgent.running
       Host.redis Host.with_redis].
  change (Redis.hgetall_status ?i (PubSub.publish_event _ _ _ _ ?s0))
    with (Redis.hgetall_status i s0).
  rewrite hgetall_hset_status_eq.
  split_and!; [reflexivity|reflexivity| | |].
  - cbn. set_solver.
  - now apply lookup_union_Some_l.
  - eexists. split; [apply last_snoc|]. split; [reflexivity|]. split; [reflexivity|].
    cbn [Event.active_nodes]. unfold Redis.smembers_active. rewrite elem_of_elements.
    cbn. set_solver.
Qed.

Lemma loop_ends_with_shutdown (n : nat) (checks : list NodeAgent.HealthCheck)
    (handlers : gmap string NodeAgent.Handler) a w :
  ∃ a0 w0, NodeAgent.loop n checks handlers a w = NodeAgent._shutdown a0 w0.
Proof.
  revert a w. induction n as [|n IH]; intros a w; cbn [NodeAgent.loop]; [by eauto|].
  destruct (NodeAgent.running a); [|by eauto].
  destruct (NodeAgent.tick checks handlers a w) as [e|[a1 w1]]; [by eauto|]. apply IH.
Qed.

(** X13.  However the loop of [run] is left (an interrupt, an exception
    in a turn, the [running] flag cleared), the agent ends shut down:
    [running] is off, its node is not in ACTIVE_NODES, the status of the
    node is [stopped], and the last event on the channel is the
    [node_removed] of that node. *)
Theorem run_ends_shut_down (n : nat) (checks : list NodeAgent.HealthCheck)
    (handlers : gmap string NodeAgent.Handler) a w :
  let '(a', w') := NodeAgent.run n checks handlers a w in
  let id := node_id (NodeAgent.config a') in
  NodeAgent.running a' = false ∧
  (id ∉ Redis.nodes_active (Host.redis w')) ∧
  Redis.hgetall_status id (Host.redis w') !! "status" = Some "stopped" ∧
  ∃ e, last (Redis.lb_events (Host.redis w')) = Some e ∧
       Event.event e = "node_removed" ∧ Event.node_id e = id ∧
       id ∉ Event.active_nodes e.
Proof.
  unfold NodeAgent.run. destruct (NodeAgent.startup a w) as [a1 w1].
  destruct (loop_ends_with_shutdown n checks handlers a1 w1) as (a0 & w0 & ->).
  pose proof (shutdown_last_event a0 w0) as Hdown.
  destruct (NodeAgent._shutdown a0 w0) as [a' w'].
  destruct Hdown as (Hrun & Hc & Hact & Hst & Hev).
  cbn zeta. rewrite Hc. now split_and!.
Qed.

End Shutdown.

(** ** The self-health check *)

Section SelfHealth.
Context `{Platform}.
Import Config.
Implicit Types (a : NodeAgent.t) (w : Host.World) (checks : list NodeAgent.HealthCheck).

Lemma first_failed_check_none checks (o : OS) :
  NodeAgent.first_failed_check checks o = None ↔
  Forall (λ check : NodeAgent.HealthCheck, check.2 o = inr true) checks.
Proof.
  induction checks as [|[name check] checks IH]; cbn [NodeAgent.first_failed_check].
  - split; [constructor|done].
  - destruct (check o) as [e|[|]] eqn:Hcheck.
    + split; [done|]. intros Hall. inversion Hall as [|? ? Hhd _]. cbn in Hhd. congruence.
    + rewrite IH. split.
      * intros Hall. now constructor.
      * intros Hall. now inversion Hall.
    + split; [done|]. intros Hall. inversion Hall as [|? ? Hhd _]. cbn in Hhd. congruence.
Qed.

Lemma unhealthy_containers_nil (containers : list (string * string)) :
  NodeAgent.unhealthy_containers containers = [] ↔
  Forall (λ c : string * string, c.2 = "running") containers.
Proof.
  unfold NodeAgent.unhealthy_containers.
  induction containers as [|[name st] containers IH].
  - split; [constructor|done].
  - destruct (decide (st = "running")) as [->|Hne].
    + rewrite filter_cons_False by (cbn; intros Hn; now apply Hn).
      rewrite IH. split.
      * intros Hall. now constructor.
      * intros Hall. now inversion Hall.
    + rewrite filter_cons_True by done. split; [done|].
      intros Hall. inversion Hall as [|? ? Hhd _]. now destruct Hne.
Qed.

Lemma freeze_in_frozen (reason : string) a w :
  NodeAgent.is_frozen a = false →
  let '(a', w') := NodeAgent.freeze_in reason a w in
  NodeAgent.is_frozen a' = true ∧
  (node_id (NodeAgent.config a) ∉ Redis.nodes_active (Host.redis w')) ∧
  ∃ e, Redis.lb_events (Host.redis w') = Redis.lb_events (Host.redis w) ++ [e] ∧
       Event.event e = "node_frozen" ∧ Event.reason e = reason.
Proof.
  intros Hfrozen. unfold NodeAgent.freeze_in.
  pose proof (freeze_effective reason a (Host.redis w) Hfrozen) as Heff.
  destruct (NodeAgent.freeze reason a (Host.redis w)) as [a' s'].
  destruct Heff as (-> & Hact & _ & _ & _ & Hev). cbn [Host.redis Host.with_redis].
  split; [done|]. split; [rewrite Hact; set_solver|].
  eexists. split; [exact Hev|]. now split.
Qed.

(** Either every check passes and nothing happens, or the first check
    that fails, in the order CPU, memory, containers, custom checks,
    gives the reason of a freeze. *)
Lemma check_self_health_cases checks a w :
  (healthy checks a (Host.os w) ∧ NodeAgent._check_self_health checks a w = (a, w)) ∨
  (¬ healthy checks a (Host.os w) ∧
   ∃ reason, NodeAgent._check_self_health checks a w = NodeAgent.freeze_in reason a w ∧
             (cpu_percent (Host.os w) > cpu_threshold (NodeAgent.config a) →
              reason = "High CPU usage: " +:+ float_repr (cpu_percent (Host.os w)) +:+ "%")).
Proof.
  unfold NodeAgent._check_self_health, healthy.
  case_bool_decide as Hcpu.
  { right. split; [intros (? & _); lia|]. eexists. split; [reflexivity|done]. }
  case_bool_decide as Hmem.
  { right. split; [intros (_ & ? & _); lia|]. eexists. split; [reflexivity|]. intros; lia. }
  destruct (NodeAgent.docker_client a) eqn:Hdocker.
  - destruct (containers_list (Host.os w)) as [e|containers] eqn:Hlist.
    + right. split.
      * intros (_ & _ & Hd & _). destruct (Hd eq_refl) as (? & ? & _). congruence.
      * eexists. split; [reflexivity|]. intros; lia.
    + destruct (NodeAgent.unhealthy_containers containers) as [|name names] eqn:Hunhealthy.
      * apply unhealthy_containers_nil in Hunhealthy.
        destruct (NodeAgent.first_failed_check checks (Host.os w)) as [reason|] eqn:Hchecks.
        -- right. split.
           ++ intros (_ & _ & _ & Hall). apply first_failed_check_none in Hall. congruence.
           ++ eexists. split; [reflexivity|]. intros; lia.
        -- left. apply first_failed_check_none in Hchecks.
           split; [|done]. split_and!; [lia|lia| |done].
           intros _. now exists containers.
      * right. split.
        -- intros (_ & _ & Hd & _). destruct (Hd eq_refl) as (cs & Hcs & Hall).
           assert (cs = containers) as -> by congruence.
           apply unhealthy_containers_nil in Hall. congruence.
        -- eexists. split; [reflexivity|]. intros; lia.
  - destruct (NodeAgent.first_failed_check checks (Host.os w)) as [reason|] eqn:Hchecks.
    + right. split.
      * intros (_ & _ & _ & Hall). apply first_failed_check_none in Hall. congruence.
      * eexists. split; [reflexivity|]. intros; lia.
    + left. apply first_failed_check_none in Hchecks.
      split; [|done]. split_and!; [lia|lia|done|done].
Qed.

(** X14.  On an agent that is not frozen, [_check_self_health] changes
    nothing when the host is healthy: CPU and memory at or below their
    thresholds (the comparisons are strict, so a reading equal to the
    threshold passes), every container running when there is a Docker
    client, every custom check returning true.  Otherwise it freezes the
    agent: the flag is set, the node leaves ACTIVE_NODES and one
    [node_frozen] event is published; a CPU reading above the threshold
    is the reason given even if later checks would fail too. *)
Theorem check_self_health_spec checks a w :
  NodeAgent.is_frozen a = false →
  (healthy checks a (Host.os w) → NodeAgent._check_self_health checks a w = (a, w)) ∧
  (¬ healthy checks a (Host.os w) →
   let '(a', w') := NodeAgent._check_self_health checks a w in
   NodeAgent.is_frozen a' = true ∧
   (node_id (NodeAgent.config a) ∉ Redis.nodes_active (Host.redis w')) ∧
   ∃ e, Redis.lb_events (Host.redis w') = Redis.lb_events (Host.redis w) ++ [e] ∧
        Event.event e = "node_frozen" ∧
        (cpu_percent (Host.os w) > cpu_threshold (NodeAgent.config a) →
         Event.reason e
         = "High CPU usage: " +:+ float_repr (cpu_percent (Host.os w)) +:+ "%")).
Proof.
  intros Hfrozen.
  destruct (check_self_health_cases checks a w) as [[Hok Hrun]|[Hbad (reason & Hrun & Hcpu)]].
  - split; [done|]. intros Hno. now destruct Hno.
  - split; [intros Hok; now destruct Hbad|]. intros _. rewrite Hrun.
    pose proof (freeze_in_frozen reason a w Hfrozen) as Hfreeze.
    destruct (NodeAgent.freeze_in reason a w) as [a' w'].
    destruct Hfreeze as (Hflag & Hact & e & Hev & Hkind & Hreason).
    split; [done|]. split; [done|]. exists e. split; [done|]. split; [done|].
    intros Hhigh. rewrite Hreason. now apply Hcpu.
Qed.

End SelfHealth.

Lemma check_self_health_spec_witness :
  let strict := Config.Build_BazBeansConfig "redis://localhost:6379/0" "web-1" "default"
                  30 10 5 "/opt/app" "docker-compose.yml" 8000 10 20 [] "bazbeans:node_ips" in
  let a := NodeAgent.Build_t strict true false false false in
  NodeAgent.is_frozen a = false ∧
  healthy (H := Sim.platform) [] a (∅ : Sim.Fs) ∧
  NodeAgent._check_self_health [] a (Sim.world ∅) = (a, Sim.world ∅).
Proof.
  intros strict a.
  assert (Hok : healthy (H := Sim.platform) [] a (∅ : Sim.Fs)).
  { split_and!; [cbn; lia|cbn; lia|intros Hd; discriminate Hd|constructor]. }
  split; [reflexivity|]. split; [exact Hok|].
  exact (proj1 (check_self_health_spec (H := Sim.platform) [] a (Sim.world ∅) eq_refl) Hok).
Defined.

(** ** Commands that reach no handler *)

Section NotDispatched.
Context `{Platform}.
Import Config.
Implicit Types (a : NodeAgent.t) (w : Host.World) (command : gmap string string).

Lemma queue_cons_lookup (id : string) command (rest : list (gmap string string))
    (s : Redis.Store) :
  queue id s = command :: rest → Redis.commands s !! id = Some (command :: rest).
Proof.
  unfold queue. destruct (Redis.commands s !! id) as [q|]; cbn; intros Hq.
  - now subst.
  - discriminate Hq.
Qed.

(** X15.  [_handle_commands] does nothing at all on an empty queue.  It
    pops an empty dictionary and drops it without a trace.  A command
    whose type is missing or has no handler is popped and answered in the
    status hash with status [error] and details
    [Unknown command: <type>] ([None] for a missing type); the agent, the
    host and the channel are left alone. *)
Theorem handle_commands_not_dispatched (handlers : gmap string NodeAgent.Handler) a w :
  let id := node_id (NodeAgent.config a) in
  (queue id (Host.redis w) = [] → NodeAgent._handle_commands handlers a w = (a, w)) ∧
  (∀ command rest, queue id (Host.redis w) = command :: rest →
     let popped := Host.with_redis (after_pop id rest (Host.redis w)) w in
     (command = ∅ → NodeAgent._handle_commands handlers a w = (a, popped)) ∧
     (command ≠ ∅ → (∀ k, command !! "type" = Some k → handlers !! k = None) →
      let '(a', w') := NodeAgent._handle_commands handlers a w in
      a' = a ∧
      queue id (Host.redis w') = rest ∧
      Redis.hgetall_status id (Host.redis w') !! "status" = Some "error" ∧
      Redis.hgetall_status id (Host.redis w') !! "details"
      = Some ("Unknown command: " +:+ default "None" (command !! "type")) ∧
      Redis.lb_events (Host.redis w') = Redis.lb_events (Host.redis w) ∧
      Redis.nodes_active (Host.redis w') = Redis.nodes_active (Host.redis w) ∧
      Host.os w' = Host.os w ∧ Host.effects w' = Host.effects w)).
Proof.
  cbn zeta. split.
  - intros Hq. unfold NodeAgent._handle_commands, NodePool.get_command, Redis.lpop_command.
    unfold queue in Hq. now rewrite Hq.
  - intros command rest Hq%queue_cons_lookup.
    unfold NodeAgent._handle_commands, NodePool.get_command.
    rewrite (lpop_command_cons _ _ _ _ Hq). split.
    + intros ->. now rewrite bool_decide_eq_true_2.
    + intros Hne Hnone. rewrite bool_decide_eq_false_2 by done. cbn zeta.
      assert (Hmiss : command !! "type" ≫= (handlers !!.) = None).
      { destruct (command !! "type") as [k|]; [|done]. now apply Hnone. }
      change (match command !! "type" ≫= (handlers !!.) with
              | Some handler => ?yes handler
              | None => ?no
              end)
        with (match command !! "type" ≫= (handlers !!.) with
              | Some handler => yes handler
              | None => no
              end).
      destruct (command !! "type" ≫= (handlers !!.)) as [handler|]; [discriminate Hmiss|].
      destruct (update_status_fields "error"
                  ("Unknown command: " +:+ NodeAgent.str_of_type (command !! "type")) a
                  (Host.with_redis (after_pop (node_id (NodeAgent.config a)) rest (Host.redis w)) w))
        as (Hos & Heff & Hst).
      cbn zeta in Hos, Heff, Hst. split; [done|]. split_and!.
      * unfold queue. cbn. now rewrite lookup_insert_eq.
      * rewrite Hst. now apply lookup_union_Some_l.
      * rewrite Hst. now apply lookup_union_Some_l.
      * reflexivity.
      * reflexivity.
      * exact Hos.
      * exact Heff.
Qed.

End NotDispatched.

(** ** Validation and the heartbeat *)

Section Validation.
Context `{Platform}.
Import Config.

Lemma validate_inr (c : BazBeansConfig) :
  validate c = inr tt ↔
  0 < heartbeat_ttl c ∧ 0 < heartbeat_interval c ∧ 0 < command_poll_interval c ∧
  0 <= cpu_threshold c <= 100 ∧ 0 <= memory_threshold c <= 100 ∧
  node_id c ≠ "" ∧ redis_url c ≠ "".
Proof.
  unfold validate.
  repeat (case_bool_decide; cbn [negb]); split; try done;
    try (intros (?&?&?&?&?&?&?); exfalso; (lia || tauto)).
  intros _. split_and!; (lia || tauto).
Qed.

(** X16.  [validate] accepts a configuration exactly when the three
    durations are positive, both thresholds lie in [0, 100] and neither
    [node_id] nor [redis_url] is empty; the defaults pass for every host
    name that is not empty. *)
Theorem validate_accepts (c : BazBeansConfig) :
  (validate c = inr tt ↔
   0 < heartbeat_ttl c ∧ 0 < heartbeat_interval c ∧ 0 < command_poll_interval c ∧
   0 <= cpu_threshold c <= 100 ∧ 0 <= memory_threshold c <= 100 ∧
   node_id c ≠ "" ∧ redis_url c ≠ "") ∧
  (∀ hostname, hostname ≠ "" → validate (defaults hostname) = inr tt).
Proof.
  split; [apply validate_inr|].
  intros hostname Hhost. apply validate_inr. cbn. split_and!; (lia || done).
Qed.

(** X17.  The heartbeat of an agent built by [__init__] is never refused
    for its time to live: the configuration was validated, so the TTL is
    positive and the coordinator accepts the record that
    [_send_heartbeat] writes, whatever the probes read.  The record is
    then read for [heartbeat_ttl] seconds, and sending it touches nothing
    on the host. *)
Theorem validated_agent_heartbeat (c : BazBeansConfig) (docker : bool) (a : NodeAgent.t)
    (w : Host.World) :
  NodeAgent.new c docker = inr a →
  ∃ w', NodeAgent._send_heartbeat a w = inr w' ∧
        (∀ dt, 0 <= dt →
               Redis.exists_heartbeat (node_id c) (Redis.advance dt (Host.redis w'))
               = bool_decide (dt <= heartbeat_ttl c)) ∧
        Host.os w' = Host.os w ∧ Host.effects w' = Host.effects w.
Proof.
  intros Hnew. unfold NodeAgent.new in Hnew.
  destruct (validate c) as [e|[]] eqn:Hvalid; [done|]. injection Hnew as <-.
  apply validate_inr in Hvalid as (Httl & _).
  unfold NodeAgent._send_heartbeat, NodePool.heartbeat, Redis.setex_heartbeat.
  cbn [NodeAgent.config]. rewrite bool_decide_eq_false_2 by lia.
  eexists. split; [reflexivity|]. split_and!; [|reflexivity..].
  intros dt Hdt. unfold Redis.exists_heartbeat, Redis.get_heartbeat, Redis.advance.
  cbn [Redis.heartbeat Redis.now Host.redis Host.with_redis].
  rewrite lookup_insert_eq, Z.max_r by done.
  destruct (decide (dt <= heartbeat_ttl c)).
  - now rewrite !bool_decide_eq_true_2 by lia.
  - now rewrite !bool_decide_eq_false_2 by lia.
Qed.

End Validation.

Lemma validated_agent_heartbeat_witness :
  (NodeAgent.new web1 false = inr agent_web1) ∧
  ∃ w', NodeAgent._send_heartbeat agent_web1 (Sim.world ∅) = inr w' ∧
        Redis.exists_heartbeat "web-1" (Redis.advance 30 (Host.redis w')) = true ∧
        Redis.exists_heartbeat "web-1" (Redis.advance 31 (Host.redis w')) = false.
Proof.
  split; [reflexivity|].
  destruct (validated_agent_heartbeat (H := Sim.platform) web1 false agent_web1
              (Sim.world ∅) eq_refl) as (w' & Hsend & Hlive & _).
  exists w'. split; [exact Hsend|].
  split; [exact (Hlive 30 ltac:(lia))|exact (Hlive 31 ltac:(lia))].
Defined.

(** ** The operator's commands *)

Lemma same_but_commands_status (s s' : Redis.Store) (id : string) :
  same_but_commands s s' →
  ClusterController.get_node_status id s' = ClusterController.get_node_status id s.
Proof.
  intros (Hnow & _ & _ & _ & Hhb & Hst & _).
  unfold ClusterController.get_node_status, Redis.get_heartbeat, Redis.hgetall_status.
  now rewrite Hnow, Hhb, Hst.
Qed.

Lemma send_command_to_all_step_cases (command : gmap string string)
    (filter_dc : option string) (s : Redis.Store) (node : string) :
  (matches_dc filter_dc node s ∧
   ClusterController.send_command_to_all_step command filter_dc s node
   = NodePool.send_command node command s) ∨
  (¬ matches_dc filter_dc node s ∧
   ClusterController.send_command_to_all_step command filter_dc s node = s).
Proof.
  unfold ClusterController.send_command_to_all_step, matches_dc.
  destruct filter_dc as [[|ch dc]|]; [now left| |now left].
  case_bool_decide as Hdc.
  - right. now split.
  - left. split; [|done]. now apply dec_stable.
Qed.

Lemma send_command_to_all_loop (command : gmap string string) (filter_dc : option string)
    (l : list string) (s0 s : Redis.Store) :
  NoDup l → same_but_commands s0 s →
  let s' := foldl (ClusterController.send_command_to_all_step command filter_dc) s l in
  same_but_commands s0 s' ∧
  ∀ id, queue id s'
        = if bool_decide (id ∈ l ∧ matches_dc filter_dc id s0)
          then queue id s ++ [command] else queue id s.
Proof.
  intros Hnodup. revert s. induction Hnodup as [|node l Hnotin Hnodup IH]; intros s Hsame.
  - cbn. split; [done|]. intros id. rewrite bool_decide_eq_false_2; [done|].
    intros [Hin _]. inversion Hin.
  - cbn [foldl].
    assert (Hdc : matches_dc filter_dc node s ↔ matches_dc filter_dc node s0).
    { unfold matches_dc. now rewrite (same_but_commands_status s0 s node Hsame). }
    destruct (send_command_to_all_step_cases command filter_dc s node)
      as [[Hyes ->]|[Hno ->]].
    + assert (Hsame' : same_but_commands s0 (NodePool.send_command node command s)).
      { destruct Hsame as (?&?&?&?&?&?&?). now repeat split. }
      destruct (IH _ Hsame') as [Hsame'' Hq]. split; [done|].
      intros id. rewrite Hq, queue_send_command.
      destruct (decide (node = id)) as [<-|Hne].
      * rewrite (bool_decide_eq_true_2 (node = node)) by done.
        rewrite bool_decide_eq_false_2 by (intros [? _]; done).
        rewrite bool_decide_eq_true_2; [done|]. split; [left|now apply Hdc].
      * rewrite (bool_decide_eq_false_2 (node = id)) by done.
        erewrite (bool_decide_ext (id ∈ node :: l ∧ _)); [reflexivity|].
        rewrite elem_of_cons. naive_solver.
    + destruct (IH _ Hsame) as [Hsame'' Hq]. split; [done|].
      intros id. rewrite Hq.
      erewrite (bool_decide_ext (id ∈ node :: l ∧ _)); [reflexivity|].
      rewrite elem_of_cons. split; [|naive_solver].
      intros [[->|Hin] Hm]; [|done]. destruct Hno. now apply Hdc.
Qed.

(** X18.  [send_command_to_all] appends the command, once, to the queue
    of every node of ALL_NODES that passes the data-center filter, and to
    no other queue; frozen and dead nodes are not skipped.  Without a
    filter (or with an empty one) every registered node passes; with a
    filter a node passes when the [data_center] reported by
    [get_node_status] (the heartbeat's, if it has a live one) equals the
    filter.  Nothing but the queues changes in the coordinator. *)
Theorem send_command_to_all_spec (command : gmap string string) (filter_dc : option string)
    (s : Redis.Store) :
  let s' := ClusterController.send_command_to_all command filter_dc s in
  same_but_commands s s' ∧
  (∀ id, id ∈ Redis.nodes_all s → matches_dc filter_dc id s →
         queue id s' = queue id s ++ [command]) ∧
  (∀ id, ¬ (id ∈ Redis.nodes_all s ∧ matches_dc filter_dc id s) →
         queue id s' = queue id s).
Proof.
  cbn zeta. unfold ClusterController.send_command_to_all, ClusterController.get_all_nodes,
    Redis.smembers_all.
  destruct (send_command_to_all_loop command filter_dc (elements (Redis.nodes_all s)) s s
              (NoDup_elements _)) as [Hsame Hq].
  { now repeat split. }
  split; [exact Hsame|]. split.
  - intros id Hin Hdc. rewrite Hq. rewrite bool_decide_eq_true_2; [done|].
    split; [now apply elem_of_elements|done].
  - intros id Hno. rewrite Hq. rewrite bool_decide_eq_false_2; [done|].
    intros [Hin Hdc]. apply Hno. split; [now apply elem_of_elements|done].
Qed.

Lemma send_command_to_all_spec_witness :
  let s := NodePool.freeze web1 "maintenance"
             (NodePool.register web2 (NodePool.register web1 Redis.empty)) in
  let update : gmap string string := list_to_map [("type", "update")] in
  "web-1" ∈ Redis.nodes_all s ∧ matches_dc (Some "default") "web-1" s ∧
  queue "web-1" (ClusterController.send_command_to_all update (Some "default") s)
  = queue "web-1" s ++ [update].
Proof.
  intros s update.
  assert (Hin : "web-1" ∈ Redis.nodes_all s) by (vm_compute; reflexivity).
  assert (Hdc : matches_dc (Some "default") "web-1" s) by (vm_compute; reflexivity).
  split; [exact Hin|]. split; [exact Hdc|].
  destruct (send_command_to_all_spec update (Some "default") s) as (_ & Hsent & _).
  exact (Hsent "web-1" Hin Hdc).
Defined.

Section OperatorFreeze.
Context `{Platform}.
Import Config.
Implicit Types (a : NodeAgent.t) (w : Host.World).

(** X19.  An operator freeze from end to end.  When the CLI queues a
    freeze for a node whose queue is empty and whose agent is not
    frozen, the agent's next [_handle_commands] freezes it: the flag is
    set, the node leaves ACTIVE_NODES, [is_frozen] is ["true"] and a
    [node_frozen] event with the operator's reason is published.  The
    status word left in the hash is [executed_freeze], not [frozen], and
    [details] holds the serialised result, not the reason: the write-back
    of the result overwrites what the freeze wrote. *)
Theorem operator_freeze (checks : list NodeAgent.HealthCheck) (reason : string) a w :
  let id := node_id (NodeAgent.config a) in
  NodeAgent.is_frozen a = false →
  queue id (Host.redis w) = [] →
  let queued := Host.on_redis (ClusterController.freeze id reason) w in
  let '(a', w') :=
    NodeAgent._handle_commands (NodeAgent._register_builtin_handlers checks) a queued in
  NodeAgent.is_frozen a' = true ∧
  Redis.nodes_active (Host.redis w') = Redis.nodes_active (Host.redis w) ∖ {[id]} ∧
  queue id (Host.redis w') = [] ∧
  Redis.hgetall_status id (Host.redis w') !! "is_frozen" = Some "true" ∧
  Redis.hgetall_status id (Host.redis w') !! "status" = Some "executed_freeze" ∧
  Redis.hgetall_status id (Host.redis w') !! "details"
  = Some (json_dumps [("status", JStr "frozen"); ("reason", JStr reason)]) ∧
  ∃ e, Redis.lb_events (Host.redis w') = Redis.lb_events (Host.redis w) ++ [e] ∧
       Event.event e = "node_frozen" ∧ Event.node_id e = id ∧ Event.reason e = reason ∧
       id ∉ Event.active_nodes e.
Proof.
  intros id Hfrozen Hempty queued.
  set (command := list_to_map [("type", "freeze"); ("reason", reason)] : gmap string string).
  assert (Hqueue : Redis.commands (Host.redis queued) !! id = Some [command]).
  { unfold queued, Host.on_redis, ClusterController.freeze, ClusterController.send_command,
      Redis.rpush_command. cbn [Host.redis Host.with_redis Redis.commands].
    rewrite lookup_insert_eq. unfold queue in Hempty. now rewrite Hempty. }
  assert (Htype : command !! "type" = Some "freeze") by reflexivity.
  assert (Hreason : command !! "reason" = Some reason) by reflexivity.
  unfold NodeAgent._handle_commands, NodePool.get_command. fold id.
  rewrite (lpop_command_cons _ _ _ _ Hqueue).
  rewrite bool_decide_eq_false_2.
  2:{ intros Heq. rewrite Heq, lookup_empty in Htype. discriminate Htype. }
  cbn zeta. rewrite Htype.
  change (Some "freeze" ≫= (NodeAgent._register_builtin_handlers checks !!.))
    with (NodeAgent._register_builtin_handlers checks !! "freeze").
  assert (NodeAgent._register_builtin_handlers checks !! "freeze"
          = Some NodeAgent._cmd_freeze) as -> by reflexivity.
  unfold NodeAgent._cmd_freeze. rewrite Hreason. cbn [default].
  unfold NodeAgent.freeze_in, NodeAgent.str_of_type. cbn [default]. unfold Datatypes.id.
  change ("executed_" +:+ "freeze") with "executed_freeze".
  set (popped := Host.with_redis (after_pop id [] (Host.redis queued)) queued).
  pose proof (freeze_effective reason a (Host.redis popped) Hfrozen) as Heff.
  assert (Hrun : NodeAgent.freeze reason a (Host.redis popped)
                 = (NodeAgent.with_frozen true a,
                    PubSub.notify_frozen (NodeAgent.config a) reason
                      (NodePool.freeze (NodeAgent.config a) reason (Host.redis popped)))).
  { unfold NodeAgent.freeze. now rewrite Hfrozen. }
  rewrite Hrun in Heff |- *.
  set (s1 := PubSub.notify_frozen (NodeAgent.config a) reason
               (NodePool.freeze (NodeAgent.config a) reason (Host.redis popped))) in *.
  fold id in Heff. destruct Heff as (_ & Hact & Hflag & _ & _ & Hev).
  destruct (update_status_fields "executed_freeze"
              (json_dumps [("status", JStr "frozen"); ("reason", JStr reason)])
              (NodeAgent.with_frozen true a) (Host.with_redis s1 popped))
    as (_ & _ & Hst).
  cbn zeta in Hst. cbn [NodeAgent.config NodeAgent.with_frozen] in Hst. fold id in Hst.
  cbn [Host.redis Host.with_redis] in Hst.
  split; [reflexivity|]. rewrite Hst. split_and!.
  - exact Hact.
  - unfold queue. cbn [NodeAgent.update_status Host.on_redis Host.redis Host.with_redis
      NodePool.update_status Redis.hset_status Redis.commands].
    change (Redis.commands s1) with (Redis.commands (Host.redis popped)).
    cbn. now rewrite lookup_insert_eq.
  - rewrite lookup_union_r; [exact Hflag|].
    cbn [list_to_map foldr]. now rewrite !lookup_insert_ne, lookup_empty by done.
  - now apply lookup_union_Some_l.
  - now apply lookup_union_Some_l.
  - eexists. split; [exact Hev|]. cbn [Event.event Event.node_id Event.reason Event.active_nodes].
    split_and!; [done..|]. rewrite elem_of_elements. set_solver.
Qed.

End OperatorFreeze.

Lemma operator_freeze_witness :
  let w := (NodeAgent.startup agent_web1 (Sim.world ∅)).2 in
  NodeAgent.is_frozen agent_web1 = false ∧
  queue "web-1" (Host.redis w) = [] ∧
  "web-1" ∈ Redis.nodes_active (Host.redis w) ∧
  ("web-1" ∉ Redis.nodes_active
     (Host.redis (NodeAgent._handle_commands builtin agent_web1
                    (Host.on_redis (ClusterController.freeze "web-1" "maintenance") w)).2)).
Proof.
  intros w.
  assert (Hq : queue "web-1" (Host.redis w) = []) by reflexivity.
  split; [reflexivity|]. split; [exact Hq|]. split; [vm_compute; reflexivity|].
  pose proof (operator_freeze (H := Sim.platform) [] "maintenance" agent_web1 w eq_refl Hq)
    as Hop.
  cbn zeta in Hop.
  change (Config.node_id (NodeAgent.config agent_web1)) with "web-1" in Hop.
  change (NodeAgent._register_builtin_handlers []) with builtin in Hop.
  destruct (NodeAgent._handle_commands builtin agent_web1
              (Host.on_redis (ClusterController.freeze "web-1" "maintenance") w)) as [a' w'].
  destruct Hop as (_ & Hact & _). cbn [snd]. rewrite Hact. set_solver.
Defined.

(** ** The resolver chain *)

Section Resolvers.
Context `{Platform}.
Implicit Types (r : IPResolvers.IPResolver) (w : Host.World) (node : string).

Lemma resolve_multi_cons r (rs : list IPResolvers.IPResolver) node w :
  IPResolvers.resolve (IPResolvers.MultiFallbackIPResolver (r :: rs)) node w
  = match IPResolvers.resolve r node w with
    | inl e => inl e
    | inr ip =>
        if IPResolvers.truthy ip then inr ip
        else IPResolvers.resolve (IPResolvers.MultiFallbackIPResolver rs) node w
    end.
Proof. reflexivity. Qed.

(** X20.  [MultiFallbackIPResolver] goes through its list and stops at
    the first resolver that raises or answers with a non-empty address:
    it raises what that resolver raises, or returns that address, and
    returns [None] when no resolver stops the search.  It never returns
    an empty string, and what it returns or raises comes from a resolver
    before which every resolver answered [None] or an empty string. *)
Theorem multi_fallback_first_hit (rs : list IPResolvers.IPResolver) node w :
  let multi := IPResolvers.MultiFallbackIPResolver rs in
  let gave_up r' := ∃ ip', IPResolvers.resolve r' node w = inr ip' ∧
                           IPResolvers.truthy ip' = false in
  IPResolvers.resolve multi node w
  = default (inr None)
      (snd <$> list_find ends_search ((λ r, IPResolvers.resolve r node w) <$> rs)) ∧
  IPResolvers.resolve multi node w ≠ inr (Some "") ∧
  (∀ out, IPResolvers.resolve multi node w = out → out ≠ inr None →
          ∃ before r after,
            rs = before ++ r :: after ∧ IPResolvers.resolve r node w = out ∧
            Forall gave_up before) ∧
  (IPResolvers.resolve multi node w = inr None ↔ Forall gave_up rs).
Proof.
  cbn zeta. induction rs as [|r rs (IH1 & IH2 & IH3 & IH4)].
  - split_and!; [done|done| |].
    + intros out <- Hout. now destruct Hout.
    + split; [constructor|done].
  - rewrite resolve_multi_cons. cbn [fmap list_fmap list_find].
    destruct (IPResolvers.resolve r node w) as [e|ip] eqn:Hr.
    + rewrite decide_True by exact I. cbn. split_and!; [done|done| |].
      * intros out <- _. exists [], r, rs. now split_and!.
      * split; [done|]. intros Hall. apply Forall_cons in Hall as [(ip' & Hip' & _) _].
        congruence.
    + destruct (IPResolvers.truthy ip) eqn:Htruthy.
      * rewrite decide_True by exact Htruthy. cbn. split_and!; [done| | |].
        -- intros [= ->]. discriminate Htruthy.
        -- intros out <- _. exists [], r, rs. now split_and!.
        -- split.
           ++ intros [= ->]. discriminate Htruthy.
           ++ intros Hall. apply Forall_cons in Hall as [(ip' & Hip' & Hfalse) _].
              congruence.
      * rewrite decide_False by (cbn; congruence).
        assert (Hgave : ∃ ip', IPResolvers.resolve r node w = inr ip' ∧
                               IPResolvers.truthy ip' = false)
          by (exists ip; now split).
        split_and!.
        -- rewrite IH1.
           now destruct (list_find ends_search
                           ((λ r0, IPResolvers.resolve r0 node w) <$> rs)) as [[i out]|].
        -- exact IH2.
        -- intros out Hout Hnone.
           destruct (IH3 out Hout Hnone) as (before & r' & after & -> & Hr' & Hbefore).
           exists (r :: before), r', after. split_and!; [done|done|].
           constructor; [exact Hgave|exact Hbefore].
        -- rewrite IH4. split.
           ++ intros Hall. constructor; [exact Hgave|exact Hall].
           ++ intros Hall. now apply Forall_cons in Hall as [_ Hall].
Qed.

(** X21.  [ChainedIPResolver primary fallback] and the two-element
    [MultiFallbackIPResolver] agree on every address that counts and on
    every exception: one returns a non-empty address, or raises, exactly
    when the other does, and then it is the same address or exception.
    They differ only in how failure is returned (the chain passes on what
    the fallback said, [None] or an empty string, where the other
    returns [None]), so the updater renders the same line with either. *)
Theorem chained_is_two_element_fallback (primary fallback : IPResolvers.IPResolver) node w
    (u : NginxUpdater.t) :
  let chained := IPResolvers.ChainedIPResolver primary fallback in
  let multi := IPResolvers.MultiFallbackIPResolver [primary; fallback] in
  (∀ out, ends_search out →
          IPResolvers.resolve chained node w = out ↔ IPResolvers.resolve multi node w = out) ∧
  (¬ ends_search (IPResolvers.resolve chained node w) ↔
   IPResolvers.resolve multi node w = inr None) ∧
  NginxUpdater.server_entry
    (NginxUpdater.Build_t (NginxUpdater.config u) (NginxUpdater.upstream_name u)
       (NginxUpdater.upstream_file u) (NginxUpdater.reload_command u) chained
       (NginxUpdater.active_nodes u)) w node
  = NginxUpdater.server_entry
      (NginxUpdater.Build_t (NginxUpdater.config u) (NginxUpdater.upstream_name u)
         (NginxUpdater.upstream_file u) (NginxUpdater.reload_command u) multi
         (NginxUpdater.active_nodes u)) w node.
Proof.
  cbn zeta. unfold NginxUpdater.server_entry. cbn [NginxUpdater.ip_resolver NginxUpdater.config].
  rewrite !resolve_multi_cons.
  change (IPResolvers.resolve (IPResolvers.ChainedIPResolver primary fallback) node w)
    with (match IPResolvers.resolve primary node w with
          | inl e => inl e
          | inr ip =>
              if IPResolvers.truthy ip then inr ip
              else IPResolvers.resolve fallback node w
          end).
  change (IPResolvers.resolve (IPResolvers.MultiFallbackIPResolver []) node w)
    with (@inr string (option string) None).
  destruct (IPResolvers.resolve primary node w) as [e1|[[|c1 ip1]|]];
    destruct (IPResolvers.resolve fallback node w) as [e2|[[|c2 ip2]|]]; cbn;
    (split_and!; [intros [e|[[|c ip]|]]; cbn; intuition congruence
                 |intuition congruence|reflexivity]).
Qed.

End Resolvers.

(** ** The updater, once more *)

Section UpdaterMore.
Context `{Platform}.
Import Config.
Implicit Types (u : NginxUpdater.t) (w : Host.World).

Lemma update_upstream_snapshot u w :
  (NginxUpdater._update_upstream u w).1.1
  = match NginxUpdater.active_nodes u with
    | [] => NginxUpdater.with_active_nodes (Redis.smembers_active (Host.redis w)) u
    | _ => u
    end.
Proof.
  unfold NginxUpdater._update_upstream.
  set (u1 := match NginxUpdater.active_nodes u with
             | [] => NginxUpdater.with_active_nodes (Redis.smembers_active (Host.redis w)) u
             | _ => u
             end).
  destruct (NginxUpdater._generate_upstream_config u1 w) as [e|text]; [done|].
  destruct (path_exists _ _);
    [destruct (Host.move _ _ w) as [[e|] w1]; [done|]|];
    now destruct (Host.write _ _ _) as [[e|] w2].
Qed.

Lemma append_entries_snapshot (snapshot : list string) u w (lines nodes : list string) :
  NginxUpdater.append_entries (NginxUpdater.with_active_nodes snapshot u) w lines nodes
  = NginxUpdater.append_entries u w lines nodes.
Proof.
  revert lines. induction nodes as [|node nodes IH]; intros lines; [reflexivity|].
  cbn [NginxUpdater.append_entries].
  change (NginxUpdater.server_entry (NginxUpdater.with_active_nodes snapshot u) w node)
    with (NginxUpdater.server_entry u w node).
  destruct (NginxUpdater.server_entry u w node); [reflexivity|apply IH].
Qed.

(** X22.  Once the updater has taken a non-empty snapshot from an event,
    its snapshot is that list as a set, and events that repeat it, in
    any order and with any repetition, are ignored: they change neither
    the updater nor the host and raise nothing, whatever has happened to
    the coordinator meanwhile.  This holds also when the update for the
    first event failed or raised, since the snapshot is assigned first:
    the file then stays as it is until the membership changes again. *)
Theorem repeated_events_are_ignored (nodes : list string) u w :
  nodes ≠ [] →
  let '(u', w', _) := NginxUpdater._update_upstream_if_needed nodes u w in
  list_to_set (NginxUpdater.active_nodes u') =@{gset string} list_to_set nodes ∧
  ∀ nodes' w'', list_to_set nodes' =@{gset string} list_to_set nodes →
                NginxUpdater._update_upstream_if_needed nodes' u' w'' = (u', w'', None).
Proof.
  intros Hne.
  assert (Hsnap : list_to_set
                    (NginxUpdater.active_nodes
                       (NginxUpdater._update_upstream_if_needed nodes u w).1.1)
                  =@{gset string} list_to_set nodes).
  { unfold NginxUpdater._update_upstream_if_needed. case_bool_decide as Hsame; [done|].
    rewrite update_upstream_snapshot. cbn [NginxUpdater.active_nodes NginxUpdater.with_active_nodes].
    now destruct nodes. }
  destruct (NginxUpdater._update_upstream_if_needed nodes u w) as [[u' w'] raised].
  cbn [fst] in Hsnap.
  split; [exact Hsnap|]. intros nodes' w'' Hsame.
  unfold NginxUpdater._update_upstream_if_needed. rewrite bool_decide_eq_true_2; [done|].
  congruence.
Qed.

(** X23.  What [_generate_upstream_config] gives (the text of the
    upstream file, or the exception of a resolver) does not depend on the
    order in which the snapshot lists the nodes: two snapshots that are
    permutations of one another give the same. *)
Theorem upstream_text_ignores_order (nodes nodes' : list string) u w :
  nodes ≡ₚ nodes' →
  NginxUpdater._generate_upstream_config (NginxUpdater.with_active_nodes nodes u) w
  = NginxUpdater._generate_upstream_config (NginxUpdater.with_active_nodes nodes' u) w.
Proof.
  intros Hperm.
  unfold NginxUpdater._generate_upstream_config, NginxUpdater._generate_upstream_lines.
  cbn [NginxUpdater.active_nodes NginxUpdater.with_active_nodes NginxUpdater.upstream_name].
  assert (sorted nodes = sorted nodes') as ->.
  { destruct (sorted_spec nodes) as [Hs1 Hp1]. destruct (sorted_spec nodes') as [Hs2 Hp2].
    apply (StronglySorted_unique String.le); [done|done|].
    now rewrite Hp1, Hp2. }
  rewrite (Permutation_length Hperm). now rewrite !append_entries_snapshot.
Qed.

Lemma handlers_lookup (k : string) :
  NginxUpdater.handlers !! k
  = if bool_decide (k ∈ membership_kinds) then Some NginxUpdater._handle_node_event else None.
Proof.
  unfold NginxUpdater.handlers, membership_kinds. cbn [list_to_map foldr].
  destruct (decide (k = "node_registered")) as [->|H1]; [reflexivity|].
  destruct (decide (k = "node_removed")) as [->|H2]; [reflexivity|].
  destruct (decide (k = "node_frozen")) as [->|H3]; [reflexivity|].
  destruct (decide (k = "node_unfrozen")) as [->|H4]; [reflexivity|].
  rewrite !lookup_insert_ne, lookup_empty by done.
  rewrite bool_decide_eq_false_2; [done|].
  rewrite !elem_of_cons. intros [?|[?|[?|[?|Hnil]]]]; try done. inversion Hnil.
Qed.

(** X24.  What the updater does with a stream of messages depends only
    on the snapshots carried by the events of the four membership kinds:
    subscription notices, undecodable messages and events of other kinds
    are skipped, and the kind, node and reason of a membership event play
    no part.  Listening to the stream is reconciling with each of those
    snapshots in turn, going on with the next one when a reconciliation
    raises. *)
Theorem listen_reconciles_snapshots (messages : list Message) (st : NginxUpdater.t * Host.World) :
  PubSubSubscriber.listen NginxUpdater.handlers messages st
  = foldl (λ st nodes, (NginxUpdater._update_upstream_if_needed nodes st.1 st.2).1)
      st (snapshots messages).
Proof.
  unfold PubSubSubscriber.listen, snapshots. revert st.
  induction messages as [|message messages IH]; intros st; [done|].
  cbn [foldl omap list_omap]. rewrite IH. clear IH.
  destruct message as [|[data|]]; cbn [PubSubSubscriber.listen_step]; [done| |done].
  unfold PubSub.dispatch. rewrite handlers_lookup.
  case_bool_decide; reflexivity.
Qed.

(** X28.  A resolver that raises leaves the updater out of step with its
    file.  When the event's set differs from the snapshot, its list is
    not empty and the resolver raises for one of its nodes, the exception
    leaves [_update_upstream_if_needed]: nothing on the host is touched,
    so the upstream file keeps its old content, but the snapshot is
    already the event's, and a later event with the same set of nodes is
    taken for no change and skipped. *)
Theorem raising_resolver_leaves_stale_file (nodes : list string) u w :
  list_to_set nodes ≠@{gset string} list_to_set (NginxUpdater.active_nodes u) →
  Exists (λ node, ¬ answers u w node) nodes →
  let '(u', w', raised) := NginxUpdater._update_upstream_if_needed nodes u w in
  is_Some raised ∧
  w' = w ∧
  u' = NginxUpdater.with_active_nodes nodes u ∧
  ∀ nodes' w'', list_to_set nodes' =@{gset string} list_to_set nodes →
                NginxUpdater._update_upstream_if_needed nodes' u' w'' = (u', w'', None).
Proof.
  intros Hdiff Hex. unfold NginxUpdater._update_upstream_if_needed at 1.
  rewrite bool_decide_eq_false_2 by exact Hdiff.
  assert (Hne : nodes ≠ []) by (intros ->; inversion Hex).
  unfold NginxUpdater._update_upstream.
  cbn [NginxUpdater.active_nodes NginxUpdater.with_active_nodes].
  assert (match nodes with
          | [] => NginxUpdater.with_active_nodes (Redis.smembers_active (Host.redis w))
                    (NginxUpdater.with_active_nodes nodes u)
          | _ :: _ => NginxUpdater.with_active_nodes nodes u
          end = NginxUpdater.with_active_nodes nodes u) as -> by now destruct nodes.
  destruct (generate_upstream_config_raises (NginxUpdater.with_active_nodes nodes u) w Hex)
    as [e ->].
  split_and!; [now exists e|reflexivity|reflexivity|].
  intros nodes' w'' Hsame. unfold NginxUpdater._update_upstream_if_needed.
  now rewrite bool_decide_eq_true_2.
Qed.

End UpdaterMore.

Lemma repeated_events_are_ignored_witness :
  let st := (NginxUpdater._update_upstream_if_needed ["b"; "a"] (updater static_ips [])
               (Sim.world ∅)).1 in
  ["b"; "a"] ≠ [] ∧
  NginxUpdater._update_upstream_if_needed ["a"; "b"; "a"] st.1 st.2 = (st, None).
Proof.
  intros st. split; [discriminate|].
  pose proof (repeated_events_are_ignored (H := Sim.platform) ["b"; "a"]
                (updater static_ips []) (Sim.world ∅) ltac:(discriminate)) as Hrep.
  subst st.
  destruct (NginxUpdater._update_upstream_if_needed ["b"; "a"] (updater static_ips [])
              (Sim.world ∅)) as [[u' w'] raised].
  destruct Hrep as [_ Hrep]. cbn [fst snd].
  apply Hrep. apply (bool_decide_unpack _). vm_compute. exact I.
Defined.

Lemma upstream_text_ignores_order_witness :
  ["b"; "a"; "c"] ≡ₚ ["c"; "b"; "a"] ∧
  NginxUpdater._generate_upstream_config
    (NginxUpdater.with_active_nodes ["b"; "a"; "c"] (updater static_ips [])) (Sim.world ∅)
  = NginxUpdater._generate_upstream_config
      (NginxUpdater.with_active_nodes ["c"; "b"; "a"] (updater static_ips [])) (Sim.world ∅).
Proof.
  assert (Hperm : ["b"; "a"; "c"] ≡ₚ ["c"; "b"; "a"]).
  { apply (bool_decide_unpack _). vm_compute. exact I. }
  split; [exact Hperm|].
  exact (upstream_text_ignores_order (H := Sim.platform) _ _ (updater static_ips [])
           (Sim.world ∅) Hperm).
Defined.

Lemma raising_resolver_leaves_stale_file_witness :
  let long := "n23456789012345678901234567890123456789012345678901234567890123456789" in
  let u := updater (IPResolvers.DNSIPResolver ".example.org") ["a"] in
  let w := Sim.world {["/etc/nginx/conf.d/upstream.conf" := Some "old"]} in
  (list_to_set ["a"; long] ≠@{gset string} list_to_set (NginxUpdater.active_nodes u)) ∧
  answers u w "a" ∧
  ¬ answers u w long ∧
  (NginxUpdater._update_upstream_if_needed ["a"; long] u w).1.2 = w.
Proof.
  intros long u w.
  assert (Hdiff : list_to_set ["a"; long] ≠@{gset string}
                  list_to_set (NginxUpdater.active_nodes u)).
  { intros Heq. apply (bool_decide_pack _) in Heq. vm_compute in Heq. exact Heq. }
  assert (Ha : answers u w "a") by (eexists; vm_compute; reflexivity).
  assert (Hlong : ¬ answers u w long).
  { intros [ip Hip]. vm_compute in Hip. discriminate Hip. }
  split_and!; [exact Hdiff|exact Ha|exact Hlong|].
  pose proof (raising_resolver_leaves_stale_file (H := Sim.platform) ["a"; long] u w Hdiff
                ltac:(apply Exists_cons_tl, Exists_cons_hd; exact Hlong)) as Hraise.
  destruct (NginxUpdater._update_upstream_if_needed ["a"; long] u w) as [[u' w'] raised].
  now destruct Hraise as (_ & -> & _).
Defined.

(** ** Start-up *)

Section Startup.
Context `{Platform}.
Import Config.
Implicit Types (a : NodeAgent.t) (w : Host.World) (u : NginxUpdater.t).

Lemma hget_ip_hset_ip (key key' id id' ip : string) (s : Redis.Store) :
  Redis.hget_ip key id (Redis.hset_ip key' id' ip s)
  = if bool_decide (key = key' ∧ id = id') then Some ip else Redis.hget_ip key id s.
Proof.
  unfold Redis.hget_ip, Redis.hset_ip. cbn [Redis.node_ips].
  destruct (decide (key = key')) as [->|Hkey].
  - rewrite lookup_insert_eq. cbn. destruct (decide (id = id')) as [->|Hid].
    + rewrite lookup_insert_eq. now rewrite bool_decide_eq_true_2.
    + rewrite lookup_insert_ne by done. rewrite bool_decide_eq_false_2 by tauto.
      now destruct (Redis.node_ips s !! key').
  - rewrite lookup_insert_ne by done. now rewrite bool_decide_eq_false_2 by tauto.
Qed.

(** X25.  On a host whose address can be detected, the part of [run]
    before the loop leaves the node registered and active, with the
    detected address in the hash that the agent's [node_ips_key] names:
    [get_node_ip] gives it, and the addresses of the other nodes are as
    they were.  An updater with a [RedisIPResolver] reads the hash that a
    default configuration names.  If the agent's [node_ips_key] is that
    default, the updater renders the node as a [server] line with the
    detected address and the port of the updater's own configuration; if
    it has been overridden, start-up changes nothing in what the updater
    renders for the node.  One [node_registered] event is published, whose
    snapshot lists the node; the host is not touched. *)
Theorem startup_makes_node_resolvable (ip hostname : string) a w u :
  let c := NodeAgent.config a in
  let id := node_id c in
  local_ip (Host.os w) = Some ip → ip ≠ "" →
  NginxUpdater.ip_resolver u = IPResolvers.new_RedisIPResolver hostname →
  let '(a', w') := NodeAgent.startup a w in
  NodeAgent.running a' = true ∧
  id ∈ Redis.nodes_all (Host.redis w') ∧ id ∈ Redis.nodes_active (Host.redis w') ∧
  NodePool.get_node_ip c id (Host.redis w') = Some ip ∧
  (∀ other, other ≠ id →
            NodePool.get_node_ip c other (Host.redis w')
            = NodePool.get_node_ip c other (Host.redis w)) ∧
  (node_ips_key c = "bazbeans:node_ips" →
   NginxUpdater.server_entry u w' id
   = inr ("    server " +:+ ip +:+ ":" +:+ pretty (node_port (NginxUpdater.config u)) +:+ ";")) ∧
  (node_ips_key c ≠ "bazbeans:node_ips" →
   NginxUpdater.server_entry u w' id = NginxUpdater.server_entry u w id) ∧
  (∃ e, Redis.lb_events (Host.redis w') = Redis.lb_events (Host.redis w) ++ [e] ∧
        Event.event e = "node_registered" ∧ Event.node_id e = id ∧
        id ∈ Event.active_nodes e) ∧
  Host.os w' = Host.os w ∧ Host.effects w' = Host.effects w.
Proof.
  intros c id Hip Hne Hresolver. unfold NodeAgent.startup.
  cbn [Host.on_redis Host.with_redis Host.os]. rewrite Hip.
  destruct ip as [|ch ip]; [done|].
  cbn [Host.on_redis Host.with_redis Host.os Host.redis Host.effects NodeAgent.running
       NodeAgent.with_running].
  destruct (register_status (NodeAgent.config a) (Host.redis w)) as (Hall & Hact & _).
  cbn zeta in Hall, Hact. fold c id in Hall, Hact.
  set (s1 := PubSub.notify_registered c (NodePool.register c (Host.redis w))).
  assert (Hips : Redis.node_ips s1 = Redis.node_ips (Host.redis w)) by reflexivity.
  assert (Hread : ∀ key other,
            Redis.hget_ip key other (NodePool.register_ip c (String ch ip) s1)
            = if bool_decide (key = node_ips_key c ∧ other = id) then Some (String ch ip)
              else Redis.hget_ip key other (Host.redis w)).
  { intros key other. unfold NodePool.register_ip. rewrite hget_ip_hset_ip.
    fold id. case_bool_decide; [reflexivity|]. unfold Redis.hget_ip. now rewrite Hips. }
  split_and!.
  - reflexivity.
  - exact Hall.
  - exact Hact.
  - unfold NodePool.get_node_ip. fold c s1. rewrite Hread.
    now rewrite bool_decide_eq_true_2.
  - intros other Hother. unfold NodePool.get_node_ip. fold c s1. rewrite Hread.
    now rewrite bool_decide_eq_false_2 by tauto.
  - intros Hkey. unfold NginxUpdater.server_entry. rewrite Hresolver.
    cbn [IPResolvers.resolve IPResolvers.new_RedisIPResolver]. unfold Host.on_redis.
    cbn [Host.redis Host.with_redis node_ips_key defaults]. fold c s1. rewrite Hread.
    now rewrite bool_decide_eq_true_2.
  - intros Hkey. unfold NginxUpdater.server_entry. rewrite Hresolver.
    cbn [IPResolvers.resolve IPResolvers.new_RedisIPResolver]. unfold Host.on_redis.
    cbn [Host.redis Host.with_redis node_ips_key defaults]. fold c s1. rewrite Hread.
    rewrite bool_decide_eq_false_2; [reflexivity|]. intros [Heq _]. now destruct Hkey.
  - eexists. split; [reflexivity|].
    cbn [Event.event Event.node_id Event.active_nodes]. split_and!; [done..|].
    unfold Redis.smembers_active. now rewrite elem_of_elements.
  - reflexivity.
  - reflexivity.
Qed.

End Startup.

Lemma startup_makes_node_resolvable_witness :
  let u := updater (IPResolvers.new_RedisIPResolver "proxy") [] in
  let moved :=
    NodeAgent.Build_t
      (Config.Build_BazBeansConfig "redis://localhost:6379/0" "web-3" "default" 30 10 5
         "/opt/app" "docker-compose.yml" 8000 90 85 [] "prod:node_ips")
      true false false false in
  local_ip (Host.os (Sim.world ∅)) = Some "10.0.0.1" ∧
  NginxUpdater.server_entry u (NodeAgent.startup agent_web1 (Sim.world ∅)).2 "web-1"
  = inr ("    server 10.0.0.1:" +:+ pretty (Config.node_port (NginxUpdater.config u)) +:+ ";") ∧
  NginxUpdater.server_entry u (NodeAgent.startup moved (Sim.world ∅)).2 "web-3"
  = inr "    # Could not resolve IP for web-3".
Proof.
  intros u moved. split; [reflexivity|]. split.
  - pose proof (startup_makes_node_resolvable (H := Sim.platform) "10.0.0.1" "proxy"
                  agent_web1 (Sim.world ∅) u eq_refl ltac:(discriminate) eq_refl) as Hst.
    cbn zeta in Hst.
    destruct (NodeAgent.startup agent_web1 (Sim.world ∅)) as [a1 w1].
    destruct Hst as (_ & _ & _ & _ & _ & Hentry & _). exact (Hentry eq_refl).
  - pose proof (startup_makes_node_resolvable (H := Sim.platform) "10.0.0.1" "proxy"
                  moved (Sim.world ∅) u eq_refl ltac:(discriminate) eq_refl) as Hst.
    cbn zeta in Hst.
    destruct (NodeAgent.startup moved (Sim.world ∅)) as [a1 w1].
    destruct Hst as (_ & _ & _ & _ & _ & _ & Hentry & _). cbn [snd].
    exact (eq_trans (Hentry ltac:(discriminate)) eq_refl).
Defined.

(** ** The docker-compose plugin *)

Section Compose.
Context `{Platform}.
Import Config.
Implicit Types (a : NodeAgent.t) (w : Host.World).

Lemma run_docker_compose_result (c : BazBeansConfig) (args : list string) w :
  let cmd := "docker-compose" :: "-f" :: compose_file c :: args in
  let '(result, w') := DockerComposeCommands._run_docker_compose c args w in
  Host.redis w' = Host.redis w ∧
  Host.effects w' = Host.effects w ++ [Spawned cmd false (Some (app_dir c))] ∧
  result.*1 = ["stdout"; "stderr"; "returncode"; "success"].
Proof.
  cbn zeta. unfold DockerComposeCommands._run_docker_compose, Host.run.
  cbn [app].
  now destruct (subprocess_run _ false (Some (app_dir c)) (Host.os w)) as [[so se rc| |e] os1].
Qed.

(** X26.  [_run_docker_compose] never raises and starts exactly one
    process: [docker-compose -f <compose_file>] followed by the
    arguments, without a shell, in [app_dir].  Its result has the keys
    [stdout], [stderr], [returncode] and [success] in this order, and
    [success] is true exactly when [returncode] is 0; the return code is
    the one of the process, or -1 when the process timed out or could
    not be run.  The coordinator is not touched. *)
Theorem run_docker_compose_spec (c : BazBeansConfig) (args : list string) w :
  let cmd := "docker-compose" :: "-f" :: compose_file c :: args in
  let '(result, w') := DockerComposeCommands._run_docker_compose c args w in
  Host.redis w' = Host.redis w ∧
  Host.os w' = (subprocess_run cmd false (Some (app_dir c)) (Host.os w)).2 ∧
  Host.effects w' = Host.effects w ++ [Spawned cmd false (Some (app_dir c))] ∧
  result.*1 = ["stdout"; "stderr"; "returncode"; "success"] ∧
  ∃ returncode : Z,
    (list_to_map result : gmap string jvalue) !! "returncode" = Some (JNum returncode) ∧
    (list_to_map result : gmap string jvalue) !! "success"
    = Some (JBool (bool_decide (returncode = 0))) ∧
    match (subprocess_run cmd false (Some (app_dir c)) (Host.os w)).1 with
    | Completed _ _ code => returncode = code
    | _ => returncode = -1
    end.
Proof.
  cbn zeta. unfold DockerComposeCommands._run_docker_compose, Host.run.
  cbn [app].
  destruct (subprocess_run _ false (Some (app_dir c)) (Host.os w)) as [[so se rc| |e] os1];
    cbn [fst snd Host.redis Host.os Host.effects]; (split_and!; [done..|]).
  - exists rc. now split_and!.
  - exists (-1). now split_and!.
  - exists (-1). now split_and!.
Qed.

(** X27.  A [status] command served by the plugin is always recorded as
    executed.  Whatever docker-compose does (it may fail, time out or be
    missing), the handler returns, so the agent takes the command off
    its queue, starts the one process [docker-compose -f <compose_file>
    ps] in [app_dir], and writes the status word [executed_status] with
    the serialised result, which ends with the message; the word
    [error_status] is never written and the agent itself is unchanged. *)
Theorem compose_status_is_always_executed (handlers : gmap string NodeAgent.Handler)
    (c : BazBeansConfig) (command : gmap string string) rest a w :
  let id := node_id (NodeAgent.config a) in
  handlers !! "status" = Some (DockerComposeCommands._cmd_status c) →
  Redis.commands (Host.redis w) !! id = Some (command :: rest) →
  command !! "type" = Some "status" →
  let '(a', w') := NodeAgent._handle_commands handlers a w in
  a' = a ∧
  queue id (Host.redis w') = rest ∧
  Host.effects w'
  = Host.effects w ++ [Spawned ["docker-compose"; "-f"; compose_file c; "ps"] false
                         (Some (app_dir c))] ∧
  Redis.hgetall_status id (Host.redis w') !! "status" = Some "executed_status" ∧
  ∃ result,
    Redis.hgetall_status id (Host.redis w') !! "details" = Some (json_dumps result) ∧
    result.*1 = ["stdout"; "stderr"; "returncode"; "success"; "message"] ∧
    last result = Some ("message", JStr "Service status retrieved").
Proof.
  intros id Hhandler Hqueue Htype.
  unfold NodeAgent._handle_commands, NodePool.get_command. fold id.
  rewrite (lpop_command_cons _ _ _ _ Hqueue).
  rewrite bool_decide_eq_false_2.
  2:{ intros Heq. rewrite Heq, lookup_empty in Htype. discriminate Htype. }
  cbn zeta. rewrite Htype.
  change (Some "status" ≫= (handlers !!.)) with (handlers !! "status").
  rewrite Hhandler. unfold DockerComposeCommands._cmd_status.
  set (popped := Host.with_redis (after_pop id rest (Host.redis w)) w).
  pose proof (run_docker_compose_result c ["ps"] popped) as Hrun.
  destruct (DockerComposeCommands._run_docker_compose c ["ps"] popped) as [result w1].
  destruct Hrun as (Hredis & Heff & Hkeys).
  unfold NodeAgent.str_of_type. cbn [default]. unfold Datatypes.id.
  change ("executed_" +:+ "status") with "executed_status".
  destruct (update_status_fields "executed_status"
              (json_dumps (DockerComposeCommands.with_message "Service status retrieved" result))
              a w1) as (_ & Heff' & Hst).
  cbn zeta in Heff', Hst. fold id in Hst.
  split; [reflexivity|]. rewrite Hst, Heff', Heff. split_and!.
  - unfold queue, NodeAgent.update_status, Host.on_redis, NodePool.update_status,
      Redis.hset_status.
    cbn [Host.redis Host.with_redis Redis.commands]. rewrite Hredis.
    unfold popped. cbn [Host.redis Host.with_redis after_pop Redis.commands].
    now rewrite lookup_insert_eq.
  - reflexivity.
  - now apply lookup_union_Some_l.
  - eexists. split; [now apply lookup_union_Some_l|].
    unfold DockerComposeCommands.with_message. rewrite fmap_app, Hkeys.
    split; [reflexivity|]. now rewrite last_snoc.
Qed.

End Compose.

Lemma compose_status_is_always_executed_witness :
  let handlers : gmap string (@NodeAgent.Handler Sim.platform) :=
    NodeAgent.register_command_plugin
      {["status" := DockerComposeCommands._cmd_status web1]} builtin in
  let w := Host.on_redis
             (ClusterController.send_command "web-1" (list_to_map [("type", "status")]))
             (Sim.world ∅) in
  handlers !! "status" = Some (DockerComposeCommands._cmd_status web1) ∧
  Redis.hgetall_status "web-1"
    (Host.redis (NodeAgent._handle_commands handlers agent_web1 w).2) !! "status"
  = Some "executed_status".
Proof.
  intros handlers w.
  assert (Hhandler : handlers !! "status" = Some (DockerComposeCommands._cmd_status web1))
    by reflexivity.
  split; [exact Hhandler|].
  pose proof (compose_status_is_always_executed (H := Sim.platform) handlers web1
                (list_to_map [("type", "status")]) [] agent_web1 w Hhandler
                eq_refl eq_refl) as Hrun.
  cbn zeta in Hrun. change (Config.node_id (NodeAgent.config agent_web1)) with "web-1" in Hrun.
  destruct (NodeAgent._handle_commands handlers agent_web1 w) as [a' w'].
  now destruct Hrun as (_ & _ & _ & Hstatus & _).
Defined.
